(** * Job-market dashboard: shared filter store, chart handlers and
      per-chart aggregation helpers

    A shallow embedding of the TypeScript sources

    - [FilterContext] (the shared store: [filters] and [activeItem]),
    - [HiringPulseChart], [JobPostingsTimeLine],
      [SalaryLocationIndustryBarChart], [SalaryJobTitleRidgeline]
      (the chart components),

    followed by the properties of the filter-coordination protocol and of the
    aggregation helpers.

    Conventions of the embedding.
    - A JavaScript array of strings is a [list string]; [arr.includes(x)] is
      [includes x arr], [arr.filter(t => t !== x)] is [filter (λ t, t ≠ x) arr]
      and [[...arr, x]] is [arr ++ [x]].
    - A JavaScript object used as a dictionary is a [gmap string _] of its
      own properties; the names it inherits are listed in [Object_prototype].
    - Job counts are integers ([Z]); salaries, kernel weights and random
      draws are exact rationals ([Q], compared with [==]).  The rounding of
      IEEE doubles is outside the model, except where it decides the shape of
      a result: the number of thresholds of a density curve is computed from
      the quotient of the machine ([Numbers]).
    - An event handler is a function from the store to the store.  It takes
      two stores: [ctx], the value of [useFilterContext()] captured by the
      closure when the handler was bound, and [s], the store at the time the
      event fires.  [setFilters] and [setActiveItem] replace one component of
      [s].  Which store a handler holds when it fires in the running
      dashboard follows from the dependency lists of the effects that bind
      the handlers ([Dashboard.follows_store], [Dashboard.rebound_by_click]).
      DOM styling and tooltips are not part of the store and are left out,
      except for the [selected] class that a handler reads back. *)

From Stdlib Require Import ZArith QArith Qround Qabs List Bool Ascii String Sorted Lia Lqa.
From stdpp Require Import base gmap strings list pretty.

(** ** JavaScript helpers *)

(** [arr.includes(x)] *)
Definition includes (x : string) (arr : list string) : bool :=
  bool_decide (x ∈ arr).

(** [Math.round]: the nearest integer, ties towards +∞. *)
Definition Math_round (x : Q) : Z := Qfloor (x + (1 # 2))%Q.

(** [Math.ceil] *)
Definition Math_ceil (x : Q) : Z := Qceiling x.

(** [a || b] on numbers: [b] when [a] is falsy (zero). *)
Definition js_or (a b : Q) : Q := if Qeq_bool a 0 then b else a.

(** [a || b] where [a] may be [undefined]. *)
Definition js_or_undef (a : option Q) (b : Q) : Q :=
  match a with
  | Some x => js_or x b
  | None => b
  end.

(** Completion of a JavaScript computation: a value or a thrown exception. *)
Inductive Completion (A : Type) : Type :=
| Normal (a : A)
| Throw (msg : string).
Arguments Normal {A} a.
Arguments Throw {A} msg.

Definition cbind {A B} (c : Completion A) (k : A → Completion B) : Completion B :=
  match c with
  | Normal a => k a
  | Throw m => Throw m
  end.

Notation "x ←? c ; k" := (cbind c (λ x, k))
  (at level 20, c at level 100, k at level 200, right associativity,
   format "x  ←?  c ;  '/' k").

(** [arr.forEach] over a body that may throw, threading an accumulator. *)
Fixpoint forEachC {A S} (body : A → S → Completion S) (arr : list A) (acc : S)
  : Completion S :=
  match arr with
  | [] => Normal acc
  | a :: rest => acc' ←? body a acc; forEachC body rest acc'
  end.

(** A JavaScript number that may be [NaN] (only integers are needed). *)
Definition JsNum := option Z.

(** A [Date] object: its time value in milliseconds, [None] for an
    Invalid Date. *)
Definition JsDate := option Z.

(** The host facilities the charts call: the [Date] built-in, [parseInt],
    [Number], and date-fns' [parseISO] and [format].  They are not part of
    the repository and are taken as an interface. *)
Class Host := {
  (** [parseInt(s)] *)
  parseInt : string → JsNum;
  (** [Number(s)] *)
  Number : string → JsNum;
  (** the time value of [new Date(s)] for a string [s]; the constructor
      never throws, an unrecognised string gives an Invalid Date *)
  Date_parse : string → JsDate;
  (** the time value of [new Date(year, monthIndex, day)] *)
  Date_local : Z → Z → Z → JsDate;
  (** the time value of [new Date()] *)
  Date_now : Z;
  getFullYear : Z → Z;
  getMonth : Z → Z;
  getDate : Z → Z;
  getDay : Z → Z;
  (** [d.setDate(n)]: the time value afterwards *)
  setDate : Z → Z → JsDate;
  (** date-fns [parseISO(s)] *)
  parseISO : string → JsDate;
  (** date-fns [format(d, pattern)] for a valid date [d] *)
  format : Z → string → string
}.

(** The host [h] at the moment when its clock reads [now]. *)
Definition at_time (h : Host) (now : Z) : Host := {|
  parseInt := @parseInt h;
  Number := @Number h;
  Date_parse := @Date_parse h;
  Date_local := @Date_local h;
  Date_now := now;
  getFullYear := @getFullYear h;
  getMonth := @getMonth h;
  getDate := @getDate h;
  getDay := @getDay h;
  setDate := @setDate h;
  parseISO := @parseISO h;
  format := @format h
|}.

(** An object used as a map is a finite map of its own properties.  The
    reading [obj[key]] also finds the members every object inherits from
    [Object.prototype]: under these names a key that the object does not hold
    reads as the inherited member, not as [undefined]. *)
Definition Object_prototype : list string :=
  ["constructor"; "hasOwnProperty"; "isPrototypeOf"; "propertyIsEnumerable";
   "toLocaleString"; "toString"; "valueOf"; "__proto__";
   "__defineGetter__"; "__defineSetter__"; "__lookupGetter__"; "__lookupSetter__"].

(** [s.includes(c)] for a one-character needle. *)
Fixpoint str_includes (c : ascii) (s : string) : bool :=
  match s with
  | EmptyString => false
  | String a rest => Ascii.eqb a c || str_includes c rest
  end.

(** [s.split(c)] for a one-character separator. *)
Fixpoint str_split (c : ascii) (s : string) : list string :=
  match s with
  | EmptyString => [EmptyString]
  | String a rest =>
      if Ascii.eqb a c then EmptyString :: str_split c rest
      else match str_split c rest with
           | [] => [String a EmptyString]
           | h :: t => String a h :: t
           end
  end.

(** [s.substring(1)] *)
Definition substring1 (s : string) : string :=
  match s with
  | EmptyString => EmptyString
  | String _ rest => rest
  end.

(** [Math.ceil(a / b)] for integers [a] and [0 < b]. *)
Definition ceil_div (a b : Z) : Z := (- ((- a) / b))%Z.

(** [arr.sort(cmp)]: a stable sort; [leb a b] says that [cmp(a, b) <= 0]. *)
Fixpoint insert_sorted {A} (leb : A → A → bool) (x : A) (l : list A) : list A :=
  match l with
  | [] => [x]
  | h :: t => if leb x h then x :: l else h :: insert_sorted leb x t
  end.

Definition insertion_sort {A} (leb : A → A → bool) (l : list A) : list A :=
  foldr (insert_sorted leb) [] l.

(** [arr.sort()] on strings. *)
Definition sort_strings (l : list string) : list string :=
  insertion_sort String.leb l.

(** [arr.sort((a, b) => a - b)] on numbers. *)
Definition sort_ascending (l : list Q) : list Q :=
  insertion_sort Qle_bool l.

(** Sum of a list of numbers. *)
Definition Qsum (l : list Q) : Q := foldr Qplus 0%Q l.

(** [Math.max(a, b)] *)
Definition Math_max (a b : Q) : Q := if Qle_bool a b then b else a.

(** ** Machine numbers

    Numbers are exact rationals, so a computed salary or weight stands for
    the binary64 value up to its rounding.  Where rounding decides the shape
    of a result and not only its last digits, the operation is taken from the
    machine: [divide a b] is the quotient [a / b] as the machine computes
    it. *)
Class Numbers := { divide : Q → Q → Q }.

(** Arithmetic without rounding, on which the model is run on concrete
    inputs. *)
#[global] Instance exact_numbers : Numbers := {| divide := Qdiv |}.

(** ** d3-array, as far as the charts use it *)

Module d3.

(** [d3.quantile] on a sorted array (the R-7 method). *)
Definition quantile (sorted : list Q) (p : Q) : option Q :=
  let n := length sorted in
  if (n =? 0)%nat then None
  else if Qle_bool p 0 || (n <? 2)%nat then sorted !! 0%nat
  else if Qle_bool 1 p then sorted !! (n - 1)%nat
  else
    let i := (inject_Z (Z.of_nat (n - 1)) * p)%Q in
    let i0 := Qfloor i in
    value0 ← sorted !! Z.to_nat i0;
    value1 ← sorted !! S (Z.to_nat i0);
    Some (value0 + (value1 - value0) * (i - inject_Z i0))%Q.

(** [d3.median] *)
Definition median (sorted : list Q) : option Q := quantile sorted (1 # 2).

(** [d3.mean] *)
Definition mean (l : list Q) : option Q :=
  match l with
  | [] => None
  | _ => Some (Qsum l / inject_Z (Z.of_nat (length l)))%Q
  end.

(** [d3.range(start, stop, step)]: [n = max(0, ceil((stop - start) / step)) | 0]
    values [start + i * step].  With [step = 0] the quotient is [NaN] or
    infinite and [| 0] turns it into [0].  The number of values hangs on the
    rounding of the quotient: a quotient that is exactly 100 may be computed
    as 100.00000000000001, and its ceiling is then 101. *)
Definition range `{Numbers} (start stop step : Q) : list Q :=
  let n :=
    if Qeq_bool step 0 then 0%Z
    else Z.max 0 (Math_ceil (divide (stop - start) step)) in
  map (λ i, (start + inject_Z (Z.of_nat i) * step)%Q) (seq 0 (Z.to_nat n)).

(** [d3.max]: the greatest value, [undefined] for an empty array. *)
Definition max (l : list Q) : option Q :=
  fold_left
    (λ acc value,
       match acc with
       | None => Some value
       | Some m => if Qlt_le_dec m value then Some value else Some m
       end) l None.

(** [d3.min]: the least value, [undefined] for an empty array. *)
Definition min (l : list Q) : option Q :=
  fold_left
    (λ acc value,
       match acc with
       | None => Some value
       | Some m => if Qlt_le_dec value m then Some value else Some m
       end) l None.

End d3.

(** ** The shared filter store (FilterContext) *)

Module FilterContext.

Record FilterOptions := mkFilterOptions {
  experienceLevels : list string;
  locations : list string;
  industries : list string;
  employmentTypes : list string
}.

Inductive ItemType := Industry | Location | JobTitle | ExperienceLevel.

(** [type: null] is [None]; [value: null] is [None]. *)
Record ActiveItem := mkActiveItem {
  type : option ItemType;
  value : option string
}.

Record Store := mkStore {
  filters : FilterOptions;
  activeItem : ActiveItem
}.

(** The provider's initial state. *)
Definition initial : Store :=
  mkStore (mkFilterOptions [] [] [] []) (mkActiveItem None None).

Definition setFilters (next : FilterOptions) (s : Store) : Store :=
  mkStore next (activeItem s).

Definition setActiveItem (next : ActiveItem) (s : Store) : Store :=
  mkStore (filters s) next.

(** [{ ...f, experienceLevels: v }] *)
Definition with_experienceLevels (v : list string) (f : FilterOptions) :=
  mkFilterOptions v (locations f) (industries f) (employmentTypes f).

(** [{ ...f, industries: v }] *)
Definition with_industries (v : list string) (f : FilterOptions) :=
  mkFilterOptions (experienceLevels f) (locations f) v (employmentTypes f).

Definition no_item : ActiveItem := mkActiveItem None None.

Definition item (t : ItemType) (v : string) : ActiveItem :=
  mkActiveItem (Some t) (Some v).

(** The four set-valued fields, by name. *)
Inductive Field :=
| F_experienceLevels | F_locations | F_industries | F_employmentTypes.

Definition get (fld : Field) (f : FilterOptions) : list string :=
  match fld with
  | F_experienceLevels => experienceLevels f
  | F_locations => locations f
  | F_industries => industries f
  | F_employmentTypes => employmentTypes f
  end.

End FilterContext.
Import FilterContext.

#[global] Instance ItemType_eq_dec : EqDecision ItemType.
Proof. solve_decision. Defined.
#[global] Instance Field_eq_dec : EqDecision Field.
Proof. solve_decision. Defined.

(** ** Data payloads (the [@/types] declarations, as the charts use them) *)

Module Types.

(** [TimeLineData]: [data[level][timePoint]] is a job count. *)
Record TimeLineData := mkTimeLineData {
  timePoints : list string;
  experienceLevels : list string;
  data : gmap string (gmap string Z)
}.

(** [GroupedBarData]: [data[location][industry]] is an average salary. *)
Record GroupedBarData := mkGroupedBarData {
  bar_locations : list string;
  bar_industries : list string;
  bar_data : gmap string (gmap string Q)
}.

(** One entry of [RidgelineData.salaryRanges]. *)
Record SalaryRange := mkSalaryRange { values : list Q }.

(** [RidgelineData]; [salaryRanges] is kept in [Object.entries] order. *)
Record RidgelineData := mkRidgelineData {
  jobTitles : list string;
  salaryRanges : list (string * SalaryRange)
}.

End Types.

(** What a component returns from its render function. *)
Inductive View := Skeleton | NoDataAvailable | ChartFrame.

(** ** HiringPulseChart: interaction handlers *)

Module HiringPulseChart.

(** Heatmap cell, [mouseover]: stroke and tooltip only. *)
Definition heatmap_mouseover (ctx : Store) (d_level : string) (s : Store) : Store := s.

(** Heatmap cell, [mouseout]: stroke and tooltip only. *)
Definition heatmap_mouseout (ctx : Store) (s : Store) : Store := s.

(** Heatmap cell, [click]. *)
Definition heatmap_click (ctx : Store) (d_level : string) (s : Store) : Store :=
  let newFilters := filters ctx in
  let newFilters :=
    if negb (includes d_level (experienceLevels newFilters))
    then with_experienceLevels [d_level] newFilters
    else with_experienceLevels [] newFilters in
  setFilters newFilters s.

Definition bubble_mouseover (ctx : Store) (d_name : string) (s : Store) : Store := s.
Definition bubble_mouseout (ctx : Store) (s : Store) : Store := s.

(** Bubble, [click]. *)
Definition bubble_click (ctx : Store) (d_name : string) (s : Store) : Store :=
  let newFilters := filters ctx in
  let newFilters :=
    if negb (includes d_name (experienceLevels newFilters))
    then with_experienceLevels [d_name] newFilters
    else with_experienceLevels [] newFilters in
  setFilters newFilters s.

Definition point_mouseover (ctx : Store) (level : string) (s : Store) : Store := s.
Definition point_mouseout (ctx : Store) (s : Store) : Store := s.

(** Trend chart data point, [click]. *)
Definition point_click (ctx : Store) (level : string) (s : Store) : Store :=
  let newFilters := filters ctx in
  let newFilters :=
    if negb (includes level (experienceLevels newFilters))
    then with_experienceLevels [level] newFilters
    else with_experienceLevels [] newFilters in
  setFilters newFilters s.

(** *** Aggregation *)

Record Aggregated := mkAggregated {
  byExperience : gmap string Z;
  byIndustry : gmap string Z;
  byExperienceAndIndustry : gmap string (gmap string Z);
  timeSeries : gmap string (gmap string Z);
  agg_experienceLevels : list string;
  agg_industries : list string;
  agg_timePoints : list string
}.

Definition industries : list string :=
  ["Technology"; "Healthcare"; "Finance"; "Education"; "Retail"].

(** Sum of [data.data[level][timePoint] || 0] over the keys of one series. *)
Definition sum_series (series : gmap string Z) : Z :=
  map_fold (λ _ count total, total + count)%Z 0%Z series.

(** First loop: totals and time series per experience level.  The state is
    [(expLevelTotals, industryData, timeData)]. *)
Definition init_level (data : Types.TimeLineData)
    (st : gmap string Z * gmap string (gmap string Z) * gmap string (gmap string Z))
    (level : string) :=
  let '(expLevelTotals, industryData, timeData) := st in
  let series := default ∅ (Types.data data !! level) in
  (<[level := sum_series series]> expLevelTotals,
   <[level := ∅]> industryData,
   <[level := series]> timeData).

(** Inner body of the second loop.  [Math.random()] is the next element of
    the sequence [random]; [n] counts the draws made so far.  The state is
    [(n, industryData, industryTotals)]. *)
Definition distribute (random : nat → Q) (expLevelTotals : gmap string Z)
    (industry : string)
    (st : nat * gmap string (gmap string Z) * gmap string Z) (level : string) :=
  let '(n, industryData, industryTotals) := st in
  let industryWeight := (random n * (1 # 2) + (1 # 2))%Q in
  let count :=
    Math_round (inject_Z (default 0%Z (expLevelTotals !! level)) * industryWeight
                / inject_Z (Z.of_nat (length industries)))%Q in
  (S n,
   <[level := <[industry := count]> (default ∅ (industryData !! level))]> industryData,
   <[industry := (default 0%Z (industryTotals !! industry) + count)%Z]> industryTotals).

(** Outer body of the second loop. *)
Definition distribute_industry (random : nat → Q) (levels : list string)
    (expLevelTotals : gmap string Z)
    (st : nat * gmap string (gmap string Z) * gmap string Z) (industry : string) :=
  let '(n, industryData, industryTotals) := st in
  fold_left (distribute random expLevelTotals industry) levels
    (n, industryData, <[industry := 0%Z]> industryTotals).

Definition getAggregatedData (random : nat → Q) (data : option Types.TimeLineData)
  : option Aggregated :=
  match data with
  | None => None
  | Some data =>
      let '(expLevelTotals, industryData, timeData) :=
        fold_left (init_level data) (Types.experienceLevels data) (∅, ∅, ∅) in
      let '(_, industryData, industryTotals) :=
        fold_left (distribute_industry random (Types.experienceLevels data) expLevelTotals)
          industries (0%nat, industryData, ∅) in
      Some (mkAggregated expLevelTotals industryTotals industryData timeData
              (Types.experienceLevels data) industries (Types.timePoints data))
  end.

(** *** Render *)

Record Rendered := mkRendered {
  view : View;
  aggregatedData : option Aggregated
}.

(** The component body: [getAggregatedData()] runs on every render, then
    the loading and no-data guards choose the markup.  An array, even an
    empty one, is truthy, so [!data.experienceLevels] and
    [!data.timePoints] are false for every payload of the declared type. *)
Definition render (random : nat → Q) (data : option Types.TimeLineData)
    (isLoading : bool) : Rendered :=
  let aggregatedData := getAggregatedData random data in
  mkRendered
    (if isLoading then Skeleton
     else match data with
          | None => NoDataAvailable
          | Some _ => ChartFrame
          end)
    aggregatedData.

(** *** Date labels of the trend chart *)

Section ParseDate.
Context `{Host}.

(** [new Date(s)] for a string: returns an Invalid Date for a string it
    cannot parse and does not throw. *)
Definition new_Date_string (s : string) : Completion JsDate :=
  Normal (Date_parse s).

(** [new Date(year, monthIndex)]: Invalid Date when an argument is [NaN]. *)
Definition new_Date_ym (year month : JsNum) : JsDate :=
  y ← year; m ← month; Date_local y m 1.

(** [parseDate]: the date and the lines written to [console.error]. *)
Definition parseDate (dateString : string) : JsDate * list string :=
  if str_includes "-" dateString then
    let parts := map Number (str_split "-" dateString) in
    let year := mjoin (parts !! 0%nat) in
    let month := mjoin (parts !! 1%nat) in
    (new_Date_ym year (m ← month; Some (m - 1)%Z), [])
  else if str_includes "Q" dateString then
    let parts := str_split " " dateString in
    let quarter := default EmptyString (parts !! 0%nat) in
    let year := parts !! 1%nat in
    let quarterNum := parseInt (substring1 quarter) in
    let month := (q ← quarterNum; Some ((q - 1) * 3)%Z) in
    (new_Date_ym (year ≫= parseInt) month, [])
  else
    match new_Date_string dateString with
    | Normal d => (d, [])
    | Throw e =>
        (Some Date_now, ["Error parsing date: " +:+ dateString])
    end.

End ParseDate.

(** *** Bubble chart data *)

(** One element of [bubbleData]. *)
Record Bubble := mkBubble {
  name : string;
  value : option Z;
  group : option string
}.



End HiringPulseChart.

(** ** JobPostingsTimeLine: interaction handlers *)

Module JobPostingsTimeLine.

(** The update of the local [visibleExperienceLevels] that the click
    handlers share. *)
Definition update_visible (visibleExperienceLevels : list string) (level : string)
  : list string :=
  let isCurrentlyVisible := includes level visibleExperienceLevels in
  if isCurrentlyVisible && bool_decide (1 < length visibleExperienceLevels)
  then filter (λ l, l ≠ level) visibleExperienceLevels
  else if negb isCurrentlyVisible
       then visibleExperienceLevels ++ [level]
       else visibleExperienceLevels.

(** Line, [mouseover]. *)
Definition line_mouseover (ctx : Store) (level : string) (s : Store) : Store :=
  setActiveItem (item ExperienceLevel level) s.

(** Line, [mouseout]: the stroke reset depends on the selection, the
    reset of the active item does not. *)
Definition line_mouseout (ctx : Store) (level : string) (s : Store) : Store :=
  setActiveItem no_item s.

(** Line, [click]. *)
Definition line_click (ctx : Store) (level : string) (s : Store) : Store :=
  let newFilters := filters ctx in
  let isLevelSelected := includes level (experienceLevels newFilters) in
  let newFilters :=
    if isLevelSelected
    then with_experienceLevels
           (filter (λ l, l ≠ level) (experienceLevels newFilters)) newFilters
    else with_experienceLevels (experienceLevels newFilters ++ [level]) newFilters in
  setFilters newFilters s.

(** Data point, [mouseover]. *)
Definition point_mouseover (ctx : Store) (d_level : string) (s : Store) : Store :=
  setActiveItem (item ExperienceLevel d_level) s.

(** Data point, [mouseout]; [selected] is the element's [selected] class. *)
Definition point_mouseout (ctx : Store) (selected : bool) (s : Store) : Store :=
  if negb selected then setActiveItem no_item s else s.

(** Data point, [click]: returns the element's new [selected] class and
    the store. *)
Definition point_click (ctx : Store) (selected : bool) (d_level : string) (s : Store)
  : bool * Store :=
  let isSelected := selected in
  let newFilters := filters ctx in
  let experienceLevel := d_level in
  let newFilters :=
    if includes experienceLevel (experienceLevels newFilters)
    then with_experienceLevels
           (filter (λ e, e ≠ experienceLevel) (experienceLevels newFilters)) newFilters
    else with_experienceLevels
           (experienceLevels newFilters ++ [experienceLevel]) newFilters in
  (negb isSelected, setFilters newFilters s).

(** Legend entry, [click]: the handler first updates the local
    [visibleExperienceLevels] by [update_visible], then the store. *)
Definition legend_click (ctx : Store) (d : string) (s : Store) : Store :=
  let newFilters := filters ctx in
  let experienceLevel := d in
  let newFilters :=
    if includes experienceLevel (experienceLevels newFilters)
    then with_experienceLevels
           (filter (λ e, e ≠ experienceLevel) (experienceLevels newFilters)) newFilters
    else with_experienceLevels
           (experienceLevels newFilters ++ [experienceLevel]) newFilters in
  let s := setFilters newFilters s in
  setActiveItem (item ExperienceLevel experienceLevel) s.

(** Filter menu, "Select All". *)
Definition menu_select_all (ctx : Store) (data_experienceLevels : list string)
    (s : Store) : Store :=
  let newFilters := with_experienceLevels data_experienceLevels (filters ctx) in
  setFilters newFilters s.

(** Filter menu, "Clear". *)
Definition menu_clear (ctx : Store) (s : Store) : Store :=
  let newFilters := with_experienceLevels [] (filters ctx) in
  setFilters newFilters s.

(** Filter menu, one row. *)
Definition menu_row_click (ctx : Store) (level : string) (s : Store) : Store :=
  let isSelected := includes level (experienceLevels (filters ctx)) in
  let newFilters := filters ctx in
  let newFilters :=
    if isSelected
    then with_experienceLevels
           (filter (λ l, l ≠ level) (experienceLevels newFilters)) newFilters
    else with_experienceLevels (experienceLevels newFilters ++ [level]) newFilters in
  setFilters newFilters s.

(** The second copy of the component keeps a local [selectedLevels] and
    copies it into the store from an effect. *)
Definition sync_selectedLevels (ctx : Store) (isLoading : bool)
    (selectedLevels : list string) (s : Store) : Store :=
  if isLoading then s else
  let currentFilterLevels := experienceLevels (filters ctx) in
  let needsUpdate :=
    negb (length selectedLevels =? length currentFilterLevels)%nat
    || existsb (λ level, negb (includes level currentFilterLevels)) selectedLevels in
  if needsUpdate then
    let newFilters := filters ctx in
    let newFilters :=
      if bool_decide (0 < length selectedLevels)
      then with_experienceLevels selectedLevels newFilters
      else with_experienceLevels [] newFilters in
    setFilters newFilters s
  else s.

(** *** Aggregation by time interval *)

Inductive TimeInterval := Monthly | Weekly | Quarterly.

Section Aggregation.
Context `{Host}.

(** [getWeekOfYear]: the week number as a string, ["NaN"] for a date
    that does not parse. *)
Definition getWeekOfYear (dateStr : string) : string :=
  match parseISO dateStr with
  | None => "NaN"
  | Some date =>
      match Date_local (getFullYear date) 0 1 with
      | None => "NaN"
      | Some startOfYear =>
          let days := ((date - startOfYear) / (24 * 60 * 60 * 1000))%Z in
          pretty (ceil_div (days + getDay startOfYear + 1) 7)
      end
  end.

(** [getDateOfWeek] *)
Definition getDateOfWeek (weekNum : JsNum) : JsDate :=
  let year := getFullYear Date_now in
  januaryFirst ← Date_local year 0 1;
  weekNum ← weekNum;
  let daysToAdd := ((weekNum - 1) * 7)%Z in
  setDate januaryFirst (getDate januaryFirst + daysToAdd)%Z.

(** [getQuarter] *)
Definition getQuarter (dateStr : string) : string :=
  match parseISO dateStr with
  | None => "QNaN NaN"
  | Some date =>
      let quarter := (getMonth date / 3 + 1)%Z in
      "Q" +:+ pretty quarter +:+ " " +:+ pretty (getFullYear date)
  end.

(** The label under which a week is stored: [format(weekDate, "MMM dd")];
    date-fns throws a [RangeError] on an Invalid Date. *)
Definition weekLabel (week : string) : Completion string :=
  match getDateOfWeek (parseInt week) with
  | None => Throw "RangeError: Invalid time value"
  | Some weekDate => Normal (format weekDate "MMM dd")
  end.

(** [groups[key].sum += v; groups[key].count += 1], creating the group
    on first use. *)
Definition add_to_group (key : string) (v : Z) (groups : gmap string (Z * Z))
  : gmap string (Z * Z) :=
  let '(sum, count) := default (0, 0)%Z (groups !! key) in
  <[key := (sum + v, count + 1)%Z]> groups.

(** Body of [data.timePoints.forEach]: reading [data.data[expLevel][date]]
    throws when [data.data[expLevel]] is [undefined], which is the case of a
    level without a series unless it is named like a member of
    [Object_prototype]. *)
Definition group_point (data : Types.TimeLineData) (key : string → string)
    (expLevel : string) (date : string) (groups : gmap string (Z * Z))
  : Completion (gmap string (Z * Z)) :=
  match Types.data data !! expLevel with
  | None => Throw "TypeError: Cannot read properties of undefined"
  | Some series => Normal (add_to_group (key date) (default 0%Z (series !! date)) groups)
  end.

(** [Math.round(stats.sum / stats.count)] *)
Definition bucket_value (stats : Z * Z) : Z :=
  Math_round (inject_Z (fst stats) / inject_Z (snd stats))%Q.

(** Body of [Object.entries(groups).forEach]. *)
Definition store_bucket (label : string → Completion string)
    (entry : string * (Z * Z)) (out : gmap string Z) : Completion (gmap string Z) :=
  lbl ←? label (fst entry);
  Normal (<[lbl := bucket_value (snd entry)]> out).

(** One experience level of the Weekly or Quarterly branch.  The two
    branches have the same text up to the grouping key and the label of a
    group.  [Object.entries] is read off the map with [map_to_list]; the
    order of the entries only matters if two groups get the same
    label. *)
Definition aggregate_level (data : Types.TimeLineData) (key : string → string)
    (label : string → Completion string) (expLevel : string)
  : Completion (gmap string Z) :=
  groups ←? forEachC (group_point data key expLevel) (Types.timePoints data) ∅;
  forEachC (store_bucket label) (map_to_list groups) ∅.

(** Body of [data.experienceLevels.forEach]. *)
Definition aggregate_step (data : Types.TimeLineData) (key : string → string)
    (label : string → Completion string) (expLevel : string)
    (aggregatedData : gmap string (gmap string Z))
  : Completion (gmap string (gmap string Z)) :=
  buckets ←? aggregate_level data key label expLevel;
  Normal (<[expLevel := buckets]> aggregatedData).

(** [Object.keys(Object.values(aggregatedData)[0] || {}).sort()]; the
    first value is the one of the first experience level. *)
Definition newTimePoints (levels : list string)
    (aggregatedData : gmap string (gmap string Z)) : list string :=
  match levels with
  | [] => []
  | first :: _ =>
      sort_strings (map fst (map_to_list (default ∅ (aggregatedData !! first))))
  end.

Definition bucketKey (timeInterval : TimeInterval) : string → string :=
  match timeInterval with
  | Weekly => getWeekOfYear
  | Quarterly => getQuarter
  | Monthly => λ date, date
  end.

Definition bucketLabel (timeInterval : TimeInterval) : string → Completion string :=
  match timeInterval with
  | Weekly => weekLabel
  | _ => Normal
  end.

Definition getAggregatedData (timeInterval : TimeInterval)
    (data : option Types.TimeLineData) : Completion (option Types.TimeLineData) :=
  match data with
  | None => Normal None
  | Some data =>
      match timeInterval with
      | Weekly =>
          aggregatedData ←?
            forEachC (aggregate_step data getWeekOfYear weekLabel)
              (Types.experienceLevels data) ∅;
          Normal (Some (Types.mkTimeLineData
                          (newTimePoints (Types.experienceLevels data) aggregatedData)
                          (Types.experienceLevels data) aggregatedData))
      | Quarterly =>
          aggregatedData ←?
            forEachC (aggregate_step data getQuarter Normal)
              (Types.experienceLevels data) ∅;
          Normal (Some (Types.mkTimeLineData
                          (newTimePoints (Types.experienceLevels data) aggregatedData)
                          (Types.experienceLevels data) aggregatedData))
      | Monthly =>
          Normal (Some (Types.mkTimeLineData (Types.timePoints data)
                          (Types.experienceLevels data) (Types.data data)))
      end
  end.

(** [parseDate] of the timeline: the same text as in HiringPulseChart. *)
Definition parseDate (dateString : string) : JsDate * list string :=
  HiringPulseChart.parseDate dateString.

(** *** Render *)

Record Rendered := mkRendered {
  view : View;
  aggregatedData : option Types.TimeLineData
}.

(** The component body: [getAggregatedData()] runs on every render, before
    the guards; when it throws, so does the render and there is no markup.
    Otherwise the guards choose the markup.  Arrays are truthy, so the
    no-data guard only fires when [data] is [undefined]. *)
Definition render (timeInterval : TimeInterval) (data : option Types.TimeLineData)
    (isLoading : bool) : Completion Rendered :=
  aggregatedData ←? getAggregatedData timeInterval data;
  Normal
    (mkRendered
       (if isLoading then Skeleton
        else match data with
             | None => NoDataAvailable
             | Some _ => ChartFrame
             end)
       aggregatedData).

End Aggregation.

(** *** Line styling and the Y scale *)

(** The [class] attribute a line is drawn with. *)
Definition lineClass (filters : FilterOptions) (level : string) : string :=
  let isLevelSelected := includes level (experienceLevels filters) in
  let isAnyFilterActive := bool_decide (0 < length (experienceLevels filters)) in
  let lineClass := "timeline-line" in
  if isLevelSelected then lineClass +:+ " selected"
  else if isAnyFilterActive then lineClass +:+ " faded"
  else lineClass.

(** The line of [level] in a drawing: the drawing effect skips a level that
    is not in [visibleExperienceLevels]; a line that is drawn gets
    [lineClass]. *)
Definition drawn_line (filters : FilterOptions) (visibleExperienceLevels : list string)
    (level : string) : option string :=
  if negb (includes level visibleExperienceLevels) then None
  else Some (lineClass filters level).

(** The effect that restyles the lines after a change of the filters: the
    [selected] and the [faded] class of the line of [level]. *)
Definition line_classes (filters : FilterOptions) (level : string) : bool * bool :=
  let isSelected := includes level (experienceLevels filters) in
  if isSelected then (true, false)
  else if bool_decide (0 < length (experienceLevels filters)) then (false, true)
  else (false, false).

(** Data point, [click], in the second copy of the component: the new local
    [selectedLevels], the element's new [selected] class and the store. *)
Definition point_click2 (ctx : Store) (selectedLevels : list string) (d_level : string)
    (s : Store) : list string * bool * Store :=
  let experienceLevel := d_level in
  let isAlreadySelected := includes experienceLevel selectedLevels in
  let selectedLevels' :=
    if isAlreadySelected then
      if (length selectedLevels =? 1)%nat then []
      else filter (λ level, level ≠ experienceLevel) selectedLevels
    else selectedLevels ++ [experienceLevel] in
  let s := setActiveItem (item ExperienceLevel experienceLevel) s in
  let newSelected := negb isAlreadySelected in
  (selectedLevels', newSelected, s).

(** Inner body of the computation of [maxCount]: reading
    [aggregatedData.data[level][time]] throws when the level has no series. *)
Definition maxCount_step (aggregated : Types.TimeLineData) (level time : string)
    (maxCount : Z) : Completion Z :=
  match Types.data aggregated !! level with
  | None => Throw "TypeError: Cannot read properties of undefined"
  | Some series => Normal (Z.max maxCount (default 0%Z (series !! time)))
  end.

(** [maxCount], the greatest count shown, from which the Y scale is built. *)
Definition maxCount (aggregated : Types.TimeLineData) : Completion Z :=
  forEachC
    (λ level acc, forEachC (maxCount_step aggregated level) (Types.timePoints aggregated) acc)
    (Types.experienceLevels aggregated) 0%Z.

End JobPostingsTimeLine.

(** ** SalaryLocationIndustryBarChart: interaction handlers *)

Module SalaryLocationIndustryBarChart.

(** Bar, [mouseover]. *)
Definition bar_mouseover (ctx : Store) (industry : string) (s : Store) : Store :=
  setActiveItem (item Industry industry) s.

(** Bar, [mouseout]. *)
Definition bar_mouseout (ctx : Store) (s : Store) : Store :=
  setActiveItem no_item s.

(** Legend entry, [click]: the new local [activeIndustries] and the store. *)
Definition legend_click (ctx : Store) (activeIndustries : list string) (d : string)
    (s : Store) : list string * Store :=
  let newActiveIndustries :=
    if includes d activeIndustries
    then filter (λ i, i ≠ d) activeIndustries
    else activeIndustries ++ [d] in
  let s :=
    if includes d (industries (filters ctx))
    then setFilters
           (with_industries (filter (λ industry, industry ≠ d)
                               (industries (filters ctx))) (filters ctx)) s
    else setFilters
           (with_industries (industries (filters ctx) ++ [d]) (filters ctx)) s in
  (newActiveIndustries, s).

(** [toggleIndustry]. *)
Definition toggleIndustry (ctx : Store) (activeIndustries : list string)
    (industry : string) (s : Store) : list string * Store :=
  let newActiveIndustries :=
    if includes industry activeIndustries
    then filter (λ i, i ≠ industry) activeIndustries
    else activeIndustries ++ [industry] in
  let newIndustryFilters :=
    if includes industry (industries (filters ctx))
    then filter (λ i, i ≠ industry) (industries (filters ctx))
    else industries (filters ctx) ++ [industry] in
  let s := setFilters (with_industries newIndustryFilters (filters ctx)) s in
  let s :=
    if includes industry newActiveIndustries && negb (includes industry activeIndustries)
    then setActiveItem (item Industry industry) s
    else if bool_decide (type (activeItem ctx) = Some Industry)
            && bool_decide (value (activeItem ctx) = Some industry)
         then setActiveItem no_item s
         else s in
  (newActiveIndustries, s).

(** "Select All" button. *)
Definition select_all (ctx : Store) (data_industries : list string) (s : Store)
  : list string * Store :=
  (data_industries, setFilters (with_industries data_industries (filters ctx)) s).

(** "Clear" button. *)
Definition clear (ctx : Store) (s : Store) : list string * Store :=
  let s := setFilters (with_industries [] (filters ctx)) s in
  ([], setActiveItem no_item s).

(** Industry badge, [onClick]. *)
Definition badge_click (ctx : Store) (activeIndustries : list string)
    (industry : string) (s : Store) : list string * Store :=
  let newActiveIndustries :=
    if includes industry activeIndustries
    then filter (λ i, i ≠ industry) activeIndustries
    else activeIndustries ++ [industry] in
  let s :=
    if includes industry (industries (filters ctx))
    then setFilters
           (with_industries (filter (λ industry2, industry2 ≠ industry)
                               (industries (filters ctx))) (filters ctx)) s
    else setFilters
           (with_industries (industries (filters ctx) ++ [industry]) (filters ctx)) s in
  let s :=
    if includes industry newActiveIndustries && negb (includes industry activeIndustries)
    then setActiveItem (item Industry industry) s
    else if bool_decide (type (activeItem ctx) = Some Industry)
            && bool_decide (value (activeItem ctx) = Some industry)
         then setActiveItem no_item s
         else s in
  (newActiveIndustries, s).

(** *** Default selection and drawing *)

(** One entry of [industryTotals]. *)
Record IndustryTotal := mkIndustryTotal {
  industry : string;
  avgSalary : Q
}.

(** Body of [data.locations.forEach] in the default-selection effect; the
    state is [(total, count)]. *)
Definition add_location (data : Types.GroupedBarData) (industry : string)
    (st : Q * Z) (location : string) : Q * Z :=
  let '(total, count) := st in
  match Types.bar_data data !! location with
  | None => st
  | Some row =>
      match row !! industry with
      | Some v => if Qlt_le_dec 0 v then ((total + v)%Q, (count + 1)%Z) else st
      | None => st
      end
  end.

Definition industryTotal (data : Types.GroupedBarData) (industry : string)
  : IndustryTotal :=
  let '(total, count) :=
    fold_left (add_location data industry) (Types.bar_locations data) (0%Q, 0%Z) in
  mkIndustryTotal industry
    (if (0 <? count)%Z then (total / inject_Z count)%Q else 0%Q).

(** The three industries with the highest average salary. *)
Definition topIndustries (data : Types.GroupedBarData) : list string :=
  let industryTotals := map (industryTotal data) (Types.bar_industries data) in
  map industry
    (take 3 (insertion_sort (λ a b, Qle_bool (avgSalary b) (avgSalary a)) industryTotals)).

(** The effect that picks the default [activeIndustries]: the argument of
    [setActiveIndustries], or [None] when the effect sets nothing. *)
Definition default_industries_effect (ctx : Store) (data : option Types.GroupedBarData)
    (isLoading : bool) (activeIndustries : list string) : option (list string) :=
  match data with
  | Some data =>
      if negb isLoading && bool_decide (0 < length (Types.bar_industries data))
      then
        if bool_decide (length activeIndustries = 0%nat)
        then
          if bool_decide (0 < length (industries (filters ctx)))
          then Some (filter (λ ind, ind ∈ Types.bar_industries data)
                       (industries (filters ctx)))
          else Some (topIndustries data)
        else None
      else None
  | None => None
  end.

(** Guard of the drawing effect: [true] when the chart is drawn. *)
Definition draws (data : option Types.GroupedBarData) (isLoading : bool)
    (activeIndustries : list string) : bool :=
  match data with
  | Some data =>
      negb isLoading
      && bool_decide (0 < length (Types.bar_locations data))
      && bool_decide (0 < length activeIndustries)
  | None => false
  end.

(** *** Render *)

(** The guard tests [!data || !data.industries]; an empty [industries]
    array is truthy. *)
Definition render (data : option Types.GroupedBarData) (isLoading : bool) : View :=
  if isLoading then Skeleton
  else match data with
       | None => NoDataAvailable
       | Some _ => ChartFrame
       end.

(** *** Highlighting and the Y scale *)

(** The effect that follows the active item of other charts.  It tests
    the [activeIndustries] of its render and passes an updater to
    [setActiveIndustries], [prev => [...prev, activeItem.value]]: the result
    is the updater, or [None] when the effect sets nothing.  An empty string
    is falsy. *)
Definition highlight_updater (ctx : Store) (data : option Types.GroupedBarData)
    (activeIndustries : list string) : option (list string → list string) :=
  match type (activeItem ctx), value (activeItem ctx), data with
  | Some Industry, Some v, Some data =>
      if negb (String.eqb v EmptyString) && includes v (Types.bar_industries data)
      then if negb (includes v activeIndustries)
           then Some (λ prev, prev ++ [v])
           else None
      else None
  | _, _, _ => None
  end.

(** The new [activeIndustries] when the updater is the only update queued
    in the commit: [prev] is the list of the render. *)
Definition highlight_effect (ctx : Store) (data : option Types.GroupedBarData)
    (activeIndustries : list string) : option (list string) :=
  (λ update, update activeIndustries) <$> highlight_updater ctx data activeIndustries.

(** The [activeIndustries] after the effects of a commit in which both
    effects run (the first one, or one that follows a change of
    [activeIndustries]).  The effects run in the order of their declaration
    and their updates are applied in that order: the value set by the default
    selection, then the updater of the highlight effect on top of it. *)
Definition after_effects (ctx : Store) (data : option Types.GroupedBarData)
    (isLoading : bool) (activeIndustries : list string) : list string :=
  let set :=
    default activeIndustries (default_industries_effect ctx data isLoading activeIndustries) in
  match highlight_updater ctx data activeIndustries with
  | Some update => update set
  | None => set
  end.

(** The salary of a bar, [None] when no bar is drawn:
    [data.data[location] && data.data[location][industry]] must be truthy. *)
Definition bar_value (data : Types.GroupedBarData) (location industry : string)
  : option Q :=
  row ← Types.bar_data data !! location;
  v ← row !! industry;
  if Qeq_bool v 0 then None else Some v.

(** [maxSalary]: the greatest salary among the bars of the first ten
    locations, padded by 10%. *)
Definition maxSalary (data : Types.GroupedBarData) : Q :=
  let filteredLocations := take 10 (Types.bar_locations data) in
  let allIndustries := Types.bar_industries data in
  let maxSalary :=
    fold_left
      (λ maxSalary location,
         fold_left
           (λ maxSalary industry,
              match bar_value data location industry with
              | Some v => Math_max maxSalary (js_or v 0)
              | None => maxSalary
              end) allIndustries maxSalary)
      filteredLocations 0%Q in
  (maxSalary * (11 # 10))%Q.

End SalaryLocationIndustryBarChart.

(** ** SalaryJobTitleRidgeline: interaction handlers *)

Module SalaryJobTitleRidgeline.

(** Overlay, [mouseover]. *)
Definition overlay_mouseover (ctx : Store) (d_title : string) (s : Store) : Store :=
  setActiveItem (item JobTitle d_title) s.

(** Overlay, [mouseout]. *)
Definition overlay_mouseout (ctx : Store) (s : Store) : Store :=
  setActiveItem no_item s.

(** Overlay, [click]: the job title is toggled in [filters.industries]. *)
Definition overlay_click (ctx : Store) (d_title : string) (s : Store) : Store :=
  let newFilters := filters ctx in
  let jobTitle := d_title in
  let newFilters :=
    if includes jobTitle (industries (filters ctx))
    then with_industries (filter (λ t, t ≠ jobTitle) (industries newFilters)) newFilters
    else with_industries (industries newFilters ++ [jobTitle]) newFilters in
  let s := setFilters newFilters s in
  setActiveItem (item JobTitle jobTitle) s.

(** *** Salary statistics per job title *)

Record JobStat := mkJobStat {
  title : string;
  median : Q;
  count : nat;
  min : Q;
  max : Q;
  q1 : Q;
  q3 : Q;
  rangeSize : Q;
  values : list Q
}.

(** [a || b] where both may be [undefined]. *)
Definition or_undef (a b : option Q) : option Q :=
  match a with
  | Some x => if Qeq_bool x 0 then b else Some x
  | None => b
  end.

(** The body of [.map(([title, range]) => ...)]. *)
Definition job_stat (title : string) (range : Types.SalaryRange) : JobStat :=
  let sortedValues := sort_ascending (Types.values range) in
  let median :=
    js_or_undef (or_undef (d3.median sortedValues) (sortedValues !! 0%nat)) 0 in
  let min := js_or_undef (sortedValues !! 0%nat) 0 in
  let max := js_or_undef (sortedValues !! (length sortedValues - 1)%nat) 0 in
  let '(min, max) :=
    if (length sortedValues =? 1)%nat
    then ((median * (9 # 10))%Q, (median * (11 # 10))%Q)
    else (min, max) in
  let q1 :=
    if (2 <? length sortedValues)%nat
    then js_or_undef (d3.quantile sortedValues (1 # 4)) min
    else (min + (median - min) / 2)%Q in
  let q3 :=
    if (2 <? length sortedValues)%nat
    then js_or_undef (d3.quantile sortedValues (3 # 4)) max
    else (median + (max - median) / 2)%Q in
  let rangeSize := (max - min)%Q in
  mkJobStat title median (length (Types.values range)) min max q1 q3 rangeSize
    (Types.values range).

(** [jobTitlesByMedian]: entries without values are filtered out. *)
Definition jobTitlesByMedian (data : Types.RidgelineData) : list JobStat :=
  map (λ entry, job_stat (fst entry) (snd entry))
    (filter (λ entry, 0 < length (Types.values (snd entry)))
       (Types.salaryRanges data)).

(** *** Density display mode *)

(** [kde]: the kernel density estimator. *)
Definition kde (kernel : Q → Q) (thresholds : list Q) (data : list Q) : list (Q * Q) :=
  map (λ t, (t, js_or_undef (d3.mean (map (λ d, kernel (t - d)%Q) data)) 0)) thresholds.

(** [epanechnikov(bandwidth)]: with [bandwidth = 0] the quotient
    [x / bandwidth] is infinite or [NaN], the comparison fails and the
    kernel is [0]. *)
Definition epanechnikov (bandwidth : Q) (x : Q) : Q :=
  if Qeq_bool bandwidth 0 then 0%Q
  else
    let x := (x / bandwidth)%Q in
    if Qle_bool (Qabs x) 1 then ((3 # 4) * (1 - x * x) / bandwidth)%Q else 0%Q.

(** The body of [jobGroups.each] in density mode: [None] when the job
    title is skipped, otherwise the [density] bound to the path. *)
Definition density `{Numbers} (d : JobStat) : option (list (Q * Q)) :=
  if (length (values d) <=? 1)%nat then None
  else
    let bandwidth := ((max d - min d) / 5)%Q in
    let thresholds := d3.range (min d) (max d) ((max d - min d) / 100)%Q in
    Some (kde (epanechnikov bandwidth) thresholds (values d)).

(** *** Render *)

Record Rendered := mkRendered {
  view : View;
  drawn : option (list JobStat)
}.

(** The component: the drawing effect computes [jobTitlesByMedian] unless
    its guard returns early; the markup is chosen by the guards at the end
    of the component body. *)
Definition render (data : option Types.RidgelineData) (isLoading : bool) : Rendered :=
  let no_data :=
    match data with
    | None => true
    | Some data => (length (Types.jobTitles data) =? 0)%nat
    end in
  mkRendered
    (if isLoading then Skeleton
     else if no_data then NoDataAvailable else ChartFrame)
    (if isLoading || no_data then None
     else jobTitlesByMedian <$> data).

(** *** Display order and the X scale *)

Inductive SortBy := sort_alphabetical | sort_median | sort_range.

(** [displayJobTitles]; [localeCompare a b] is the sign of
    [a.localeCompare(b)], a host function. *)
Definition displayJobTitles (localeCompare : string → string → Z) (sortBy : SortBy)
    (jobTitlesByMedian : list JobStat) : list JobStat :=
  match sortBy with
  | sort_median =>
      insertion_sort (λ a b, Qle_bool (median b) (median a)) jobTitlesByMedian
  | sort_range =>
      insertion_sort (λ a b, Qle_bool (rangeSize b) (rangeSize a)) jobTitlesByMedian
  | sort_alphabetical =>
      insertion_sort (λ a b, (localeCompare (title a) (title b) <=? 0)%Z) jobTitlesByMedian
  end.

(** [displayedTitles]: the first 5 titles, or the first 15. *)
Definition displayedTitles (showTopTitles : bool) (displayJobTitles : list JobStat)
  : list JobStat :=
  if showTopTitles
  then take (Nat.min 5 (length displayJobTitles)) displayJobTitles
  else take (Nat.min 15 (length displayJobTitles)) displayJobTitles.

(** The domain of the X scale: [[globalMin - padding, globalMax + padding]]. *)
Definition x_domain (displayedTitles : list JobStat) : Q * Q :=
  let globalMin := js_or_undef (d3.min (map min displayedTitles)) 0 in
  let globalMax := js_or_undef (d3.max (map max displayedTitles)) 100000 in
  let '(globalMin, globalMax) :=
    if Qeq_bool globalMin globalMax
    then ((globalMin * (8 # 10))%Q, (globalMax * (12 # 10))%Q)
    else (globalMin, globalMax) in
  let padding := Math_max ((globalMax - globalMin) * (5 # 100))%Q 1000 in
  ((globalMin - padding)%Q, (globalMax + padding)%Q).

(** [maxDensity]: the greatest density of the curve, [0.01] when there is
    none or it is zero. *)
Definition maxDensity (density : list (Q * Q)) : Q :=
  js_or_undef (d3.max (map snd density)) (1 # 100).

(** The upper edge [y1] of the density area at a point of the curve, in a
    band of height [bandwidth] ([y.bandwidth()]); the lower edge [y0] is
    [bandwidth]. *)
Definition density_y1 (bandwidth : Q) (density : list (Q * Q)) (point : Q * Q) : Q :=
  (bandwidth - (snd point / maxDensity density) * bandwidth * (8 # 10))%Q.

End SalaryJobTitleRidgeline.

(** ** The interactive elements of the dashboard *)

Module Dashboard.

Inductive Chart :=
| HiringPulse | TimeLine | LocationIndustryBar | JobTitleRidgeline.

(** What a handler reads besides the store: the [selected] class of the
    element and the chart's local [activeIndustries]. *)
Record Local := mkLocal {
  selected : bool;
  activeIndustries : list string
}.

(** The elements whose click handler toggles a category. *)
Inductive ClickTarget :=
| HeatmapCell | Bubble | TrendPoint
| TimelineLine | TimelinePoint | TimelineLegend | TimelineMenuRow
| BarLegend | IndustryBadge | ToggleIndustry
| RidgelineOverlay.

Definition chart_of (t : ClickTarget) : Chart :=
  match t with
  | HeatmapCell | Bubble | TrendPoint => HiringPulse
  | TimelineLine | TimelinePoint | TimelineLegend | TimelineMenuRow => TimeLine
  | BarLegend | IndustryBadge | ToggleIndustry => LocationIndustryBar
  | RidgelineOverlay => JobTitleRidgeline
  end.

(** The field of [FilterOptions] that the click handler assigns. *)
Definition clicked_field (t : ClickTarget) : Field :=
  match t with
  | HeatmapCell | Bubble | TrendPoint
  | TimelineLine | TimelinePoint | TimelineLegend | TimelineMenuRow => F_experienceLevels
  | BarLegend | IndustryBadge | ToggleIndustry | RidgelineOverlay => F_industries
  end.

(** A click on the element of category [cat]. *)
Definition click (t : ClickTarget) (loc : Local) (cat : string) (ctx s : Store) : Store :=
  match t with
  | HeatmapCell => HiringPulseChart.heatmap_click ctx cat s
  | Bubble => HiringPulseChart.bubble_click ctx cat s
  | TrendPoint => HiringPulseChart.point_click ctx cat s
  | TimelineLine => JobPostingsTimeLine.line_click ctx cat s
  | TimelinePoint => snd (JobPostingsTimeLine.point_click ctx (selected loc) cat s)
  | TimelineLegend => JobPostingsTimeLine.legend_click ctx cat s
  | TimelineMenuRow => JobPostingsTimeLine.menu_row_click ctx cat s
  | BarLegend =>
      snd (SalaryLocationIndustryBarChart.legend_click ctx (activeIndustries loc) cat s)
  | IndustryBadge =>
      snd (SalaryLocationIndustryBarChart.badge_click ctx (activeIndustries loc) cat s)
  | ToggleIndustry =>
      snd (SalaryLocationIndustryBarChart.toggleIndustry ctx (activeIndustries loc) cat s)
  | RidgelineOverlay => SalaryJobTitleRidgeline.overlay_click ctx cat s
  end.

(** *** The snapshot a handler holds

    A handler reads [filters] from the closure of the render in which it was
    bound.  The handlers written in the JSX (filter-menu rows, badges) are
    bound at every render.  The handlers attached by a drawing effect are
    bound when the effect runs: HiringPulseChart lists [filters] among the
    dependencies of the effect; the timeline lists [aggregatedData], a new
    object at every render; the bar chart lists [data, isLoading,
    activeIndustries] and the ridgeline [data, isLoading, showTopTitles,
    redrawTrigger], so a change of [filters] made elsewhere does not bind
    their handlers again. *)
Definition follows_store (t : ClickTarget) : bool :=
  match t with
  | BarLegend | RidgelineOverlay => false
  | _ => true
  end.


(** The store whose [filters] a handler holds when it fires on the store
    [s]; [drawn] is the store of the render in which the chart was last
    drawn. *)
Definition captured (t : ClickTarget) (drawn s : Store) : Store :=
  if follows_store t then s else drawn.

(** A click in the running dashboard. *)
Definition fire (t : ClickTarget) (loc : Local) (cat : string) (drawn s : Store) : Store :=
  click t loc cat (captured t drawn s) s.


(** A click on a data point of the second copy of the timeline.  The
    handler, bound at every render, replaces the local [selectedLevels] and
    sets the active item; the effect that depends on [selectedLevels] runs
    after the render that follows (the chart is drawn, so [isLoading] is
    [false]) and copies them into the store.  Returns the new
    [selectedLevels] and the store after the effect. *)
Definition click_point2 (selectedLevels : list string) (cat : string) (s : Store)
  : list string * Store :=
  let '(selectedLevels', _, s1) :=
    JobPostingsTimeLine.point_click2 s selectedLevels cat s in
  (selectedLevels', JobPostingsTimeLine.sync_selectedLevels s1 false selectedLevels' s1).


(** Every interaction handler that calls [setFilters]. *)
Inductive Mutation :=
| Click (t : ClickTarget) (loc : Local) (cat : string)
| TimelineSelectAll (data_experienceLevels : list string)
| TimelineClear
| BarSelectAll (data_industries : list string)
| BarClear.

Definition mutate (m : Mutation) (ctx s : Store) : Store :=
  match m with
  | Click t loc cat => click t loc cat ctx s
  | TimelineSelectAll levels => JobPostingsTimeLine.menu_select_all ctx levels s
  | TimelineClear => JobPostingsTimeLine.menu_clear ctx s
  | BarSelectAll inds => snd (SalaryLocationIndustryBarChart.select_all ctx inds s)
  | BarClear => snd (SalaryLocationIndustryBarChart.clear ctx s)
  end.

Definition mutated_field (m : Mutation) : Field :=
  match m with
  | Click t _ _ => clicked_field t
  | TimelineSelectAll _ | TimelineClear => F_experienceLevels
  | BarSelectAll _ | BarClear => F_industries
  end.

(** The Select All and Clear buttons are written in the JSX. *)
Definition mutation_follows_store (m : Mutation) : bool :=
  match m with
  | Click t _ _ => follows_store t
  | _ => true
  end.

(** A mutation in the running dashboard: the handler holds the live store
    or the store of the last drawing. *)
Definition fire_mutation (m : Mutation) (drawn s : Store) : Store :=
  mutate m (if mutation_follows_store m then s else drawn) s.

(** The data elements that have pointer handlers. *)
Inductive HoverTarget :=
| HoverHeatmapCell | HoverBubble | HoverTrendPoint
| HoverTimelineLine | HoverTimelinePoint
| HoverBar
| HoverRidgelineOverlay.

Definition mouseover (h : HoverTarget) (cat : string) (ctx s : Store) : Store :=
  match h with
  | HoverHeatmapCell => HiringPulseChart.heatmap_mouseover ctx cat s
  | HoverBubble => HiringPulseChart.bubble_mouseover ctx cat s
  | HoverTrendPoint => HiringPulseChart.point_mouseover ctx cat s
  | HoverTimelineLine => JobPostingsTimeLine.line_mouseover ctx cat s
  | HoverTimelinePoint => JobPostingsTimeLine.point_mouseover ctx cat s
  | HoverBar => SalaryLocationIndustryBarChart.bar_mouseover ctx cat s
  | HoverRidgelineOverlay => SalaryJobTitleRidgeline.overlay_mouseover ctx cat s
  end.

Definition mouseout (h : HoverTarget) (loc : Local) (cat : string) (ctx s : Store)
  : Store :=
  match h with
  | HoverHeatmapCell => HiringPulseChart.heatmap_mouseout ctx s
  | HoverBubble => HiringPulseChart.bubble_mouseout ctx s
  | HoverTrendPoint => HiringPulseChart.point_mouseout ctx s
  | HoverTimelineLine => JobPostingsTimeLine.line_mouseout ctx cat s
  | HoverTimelinePoint => JobPostingsTimeLine.point_mouseout ctx (selected loc) s
  | HoverBar => SalaryLocationIndustryBarChart.bar_mouseout ctx s
  | HoverRidgelineOverlay => SalaryJobTitleRidgeline.overlay_mouseout ctx s
  end.

(** The props of a chart: its payload and the loading flag. *)
Inductive Props :=
| HiringPulseProps (data : option Types.TimeLineData) (isLoading : bool)
| TimeLineProps (data : option Types.TimeLineData) (isLoading : bool)
| BarProps (data : option Types.GroupedBarData) (isLoading : bool)
| RidgelineProps (data : option Types.RidgelineData) (isLoading : bool).

Definition isLoading (p : Props) : bool :=
  match p with
  | HiringPulseProps _ l | TimeLineProps _ l | BarProps _ l | RidgelineProps _ l => l
  end.

(** [data] is [undefined]. *)
Definition data_undefined (p : Props) : bool :=
  match p with
  | HiringPulseProps None _ | TimeLineProps None _
  | BarProps None _ | RidgelineProps None _ => true
  | _ => false
  end.

(** The payload's category list is present and has length 0. *)
Definition categories_empty (p : Props) : bool :=
  match p with
  | HiringPulseProps (Some d) _ | TimeLineProps (Some d) _ =>
      (length (Types.experienceLevels d) =? 0)%nat
  | BarProps (Some d) _ => (length (Types.bar_industries d) =? 0)%nat
  | RidgelineProps (Some d) _ => (length (Types.jobTitles d) =? 0)%nat
  | _ => false
  end.

(** The markup a chart renders, when the render returns.  [random] feeds
    [Math.random], [interval] is the timeline's current [timeInterval]. *)
Definition view `{Host} (random : nat → Q) (interval : JobPostingsTimeLine.TimeInterval)
    (p : Props) : Completion View :=
  match p with
  | HiringPulseProps d l =>
      Normal (HiringPulseChart.view (HiringPulseChart.render random d l))
  | TimeLineProps d l =>
      rendered ←? JobPostingsTimeLine.render interval d l;
      Normal (JobPostingsTimeLine.view rendered)
  | BarProps d l => Normal (SalaryLocationIndustryBarChart.render d l)
  | RidgelineProps d l =>
      Normal (SalaryJobTitleRidgeline.view (SalaryJobTitleRidgeline.render d l))
  end.

(** Whether rendering the chart derives aggregates from the payload:
    [getAggregatedData] returns an object (or throws on the way), the bar
    chart's effects compute the default selection or draw, the ridgeline's
    effect computes [jobTitlesByMedian]. *)
Definition derives `{Host} (random : nat → Q) (interval : JobPostingsTimeLine.TimeInterval)
    (ctx : Store) (activeIndustries : list string) (p : Props) : bool :=
  match p with
  | HiringPulseProps d l =>
      bool_decide (is_Some (HiringPulseChart.aggregatedData
                              (HiringPulseChart.render random d l)))
  | TimeLineProps d l =>
      match JobPostingsTimeLine.render interval d l with
      | Normal rendered => bool_decide (is_Some (JobPostingsTimeLine.aggregatedData rendered))
      | Throw _ => true
      end
  | BarProps d l =>
      bool_decide (is_Some (SalaryLocationIndustryBarChart.default_industries_effect
                              ctx d l activeIndustries))
      || SalaryLocationIndustryBarChart.draws d l activeIndustries
  | RidgelineProps d l =>
      bool_decide (is_Some (SalaryJobTitleRidgeline.drawn
                              (SalaryJobTitleRidgeline.render d l)))
  end.

(** The aggregates a chart derives from its payload: the result of
    [getAggregatedData] (or the exception it ends with), the default
    selection and [maxSalary] of the bar chart, [jobTitlesByMedian] of the
    ridgeline. *)
Inductive Aggregates :=
| HiringPulseAggregates (aggregatedData : option HiringPulseChart.Aggregated)
| TimeLineAggregates (aggregatedData : Completion (option Types.TimeLineData))
| BarAggregates (defaultIndustries : option (list string)) (maxSalary : option Q)
| RidgelineAggregates (jobTitlesByMedian : option (list SalaryJobTitleRidgeline.JobStat)).

(** Besides the payload, the aggregation window [interval] and the state
    of the chart, the derivations read two ambient inputs: HiringPulseChart
    draws from [Math.random], and the timeline builds its Weekly labels from
    [new Date()], the clock of the host. *)
Definition aggregates `{Host} (random : nat → Q)
    (interval : JobPostingsTimeLine.TimeInterval) (ctx : Store)
    (activeIndustries : list string) (p : Props) : Aggregates :=
  match p with
  | HiringPulseProps d l =>
      HiringPulseAggregates
        (HiringPulseChart.aggregatedData (HiringPulseChart.render random d l))
  | TimeLineProps d l =>
      TimeLineAggregates (JobPostingsTimeLine.getAggregatedData interval d)
  | BarProps d l =>
      BarAggregates
        (SalaryLocationIndustryBarChart.default_industries_effect ctx d l activeIndustries)
        (if SalaryLocationIndustryBarChart.draws d l activeIndustries
         then SalaryLocationIndustryBarChart.maxSalary <$> d else None)
  | RidgelineProps d l =>
      RidgelineAggregates
        (SalaryJobTitleRidgeline.drawn (SalaryJobTitleRidgeline.render d l))
  end.

End Dashboard.

(** ** A reference host

    An executable instance of [Host] for a machine whose local time is UTC,
    used to run the aggregation on concrete payloads.  Dates are proleptic
    Gregorian; only the ISO forms [YYYY-MM-DD] and [YYYY-MM] are parsed, and
    [format] knows the pattern ["MMM dd"]. *)

Module UTC.

Definition msPerDay : Z := 86400000.

(** Days since 1970-01-01 of the civil date [y]-[m]-[d] ([m] from 1). *)
Definition days_from_civil (y m d : Z) : Z :=
  let y := if (m <=? 2)%Z then (y - 1)%Z else y in
  let era := (y / 400)%Z in
  let yoe := (y - era * 400)%Z in
  let doy := ((153 * (if (2 <? m)%Z then m - 3 else m + 9) + 2) / 5 + d - 1)%Z in
  let doe := (yoe * 365 + yoe / 4 - yoe / 100 + doy)%Z in
  (era * 146097 + doe - 719468)%Z.

(** The civil date [(y, m, d)] of a day number. *)
Definition civil_from_days (z : Z) : Z * Z * Z :=
  let z := (z + 719468)%Z in
  let era := (z / 146097)%Z in
  let doe := (z - era * 146097)%Z in
  let yoe := ((doe - doe / 1460 + doe / 36524 - doe / 146096) / 365)%Z in
  let y := (yoe + era * 400)%Z in
  let doy := (doe - (365 * yoe + yoe / 4 - yoe / 100))%Z in
  let mp := ((5 * doy + 2) / 153)%Z in
  let d := (doy - (153 * mp + 2) / 5 + 1)%Z in
  let m := if (mp <? 10)%Z then (mp + 3)%Z else (mp - 9)%Z in
  (if (m <=? 2)%Z then y + 1 else y, m, d)%Z.

Definition civil (t : Z) : Z * Z * Z := civil_from_days (t / msPerDay).

Definition digit (a : ascii) : option Z :=
  let n := Z.of_N (N_of_ascii a) in
  if ((48 <=? n) && (n <=? 57))%Z then Some (n - 48)%Z else None.

(** The value of a non-empty string of decimal digits. *)
Fixpoint digits (acc : Z) (s : string) : option Z :=
  match s with
  | EmptyString => Some acc
  | String a rest => d ← digit a; digits (acc * 10 + d) rest
  end.

Definition number (s : string) : JsNum :=
  match s with
  | EmptyString => None
  | String "-" rest =>
      match rest with
      | EmptyString => None
      | _ => n ← digits 0 rest; Some (- n)%Z
      end
  | _ => digits 0 s
  end.

(** The value of the longest prefix of decimal digits, with the number
    of digits read. *)
Fixpoint digits_prefix (acc : Z) (read : bool) (s : string) : JsNum :=
  match s with
  | EmptyString => if read then Some acc else None
  | String a rest =>
      match digit a with
      | Some d => digits_prefix (acc * 10 + d) true rest
      | None => if read then Some acc else None
      end
  end.

Definition parse_int (s : string) : JsNum :=
  match s with
  | String "-" rest => n ← digits_prefix 0 false rest; Some (- n)%Z
  | _ => digits_prefix 0 false s
  end.

Definition date_local (y m d : Z) : JsDate :=
  let months := (y * 12 + m)%Z in
  Some ((days_from_civil (months / 12) (months mod 12 + 1) 1 + (d - 1)) * msPerDay)%Z.

Definition parse_iso (s : string) : JsDate :=
  match map number (str_split "-" s) with
  | [Some y; Some m; Some d] =>
      if ((1 <=? m) && (m <=? 12) && (1 <=? d) && (d <=? 31))%Z
      then date_local y (m - 1) d else None
  | [Some y; Some m] =>
      if ((1 <=? m) && (m <=? 12))%Z then date_local y (m - 1) 1 else None
  | _ => None
  end.

Definition month_name (m : Z) : string :=
  default "???"
    (["Jan"; "Feb"; "Mar"; "Apr"; "May"; "Jun";
      "Jul"; "Aug"; "Sep"; "Oct"; "Nov"; "Dec"] !! Z.to_nat (m - 1)).

Definition two_digits (n : Z) : string :=
  if (n <? 10)%Z then "0" +:+ pretty n else pretty n.

Definition format_date (t : Z) (pattern : string) : string :=
  let '(y, m, d) := civil t in
  if bool_decide (pattern = "MMM dd")
  then month_name m +:+ " " +:+ two_digits d
  else pretty y +:+ "-" +:+ two_digits m +:+ "-" +:+ two_digits d.

(** The clock of the reference host reads 2025-06-15. *)
Definition clock : Z := (days_from_civil 2025 6 15 * msPerDay)%Z.

#[export] Instance host : Host := {|
  parseInt := parse_int;
  Number := number;
  Date_parse := parse_iso;
  Date_local := date_local;
  Date_now := clock;
  getFullYear := λ t, (civil t).1.1;
  getMonth := λ t, ((civil t).1.2 - 1)%Z;
  getDate := λ t, (civil t).2;
  getDay := λ t, ((t / msPerDay + 4) mod 7)%Z;
  setDate := λ t n,
    let '(y, m, _) := civil t in
    Some ((days_from_civil y m 1 + (n - 1)) * msPerDay + t mod msPerDay)%Z;
  parseISO := parse_iso;
  format := format_date
|}.

End UTC.

(** * Notions used in the statements *)

(** The add/remove toggle that the handlers inline. *)
Definition toggle (v : string) (l : list string) : list string :=
  if includes v l then filter (λ t, t ≠ v) l else l ++ [v].

(** The exclusive select of HiringPulseChart. *)
Definition select_only (v : string) (l : list string) : list string :=
  if negb (includes v l) then [v] else [].

(** One experience level with a total of 10 postings. *)
Definition one_level : Types.TimeLineData :=
  Types.mkTimeLineData ["2023-01"] ["Senior-level"]
    {[ "Senior-level" := {[ "2023-01" := 10%Z ]} ]}.

(** The textbook median of a sorted list: the middle value, or the mean of
    the two middle values. *)
Definition exact_median (sorted : list Q) : Q :=
  let n := length sorted in
  ((nth ((n - 1) / 2) sorted 0 + nth (n / 2) sorted 0) / 2)%Q.

(** [m] is (equal to) the least element of [vs]. *)
Definition is_least (m : Q) (vs : list Q) : Prop :=
  (∃ x, x ∈ vs ∧ (m == x)%Q) ∧ ∀ x, x ∈ vs → (m <= x)%Q.

(** [m] is (equal to) the greatest element of [vs]. *)
Definition is_greatest (m : Q) (vs : list Q) : Prop :=
  (∃ x, x ∈ vs ∧ (m == x)%Q) ∧ ∀ x, x ∈ vs → (x <= m)%Q.

(** The Epanechnikov kernel [K(u) = 3/4 (1 - u²)] on [[-1, 1]]. *)
Definition epanechnikov_kernel (u : Q) : Q :=
  if Qle_bool (Qabs u) 1 then ((3 # 4) * (1 - u * u))%Q else 0%Q.

(** The kernel density estimate with bandwidth [h] of the sample [xs] at [t]:
    [(1 / (n h)) Σ K((t - x) / h)]. *)
Definition kde_estimate (h : Q) (xs : list Q) (t : Q) : Q :=
  (Qsum (map (λ x, epanechnikov_kernel ((t - x) / h)) xs)
   / (inject_Z (Z.of_nat (length xs)) * h))%Q.

(** Sum of a list of counts. *)
Definition Zsum (l : list Z) : Z := foldr Z.add 0%Z l.

(** The count of a time point in a series: [series[date] || 0]. *)
Definition count_at (series : gmap string Z) (date : string) : Z :=
  default 0%Z (series !! date).

(** The time points that fall in the bucket [k]. *)
Definition bucket_points (key : string → string) (k : string) (dates : list string)
  : list string :=
  filter (λ d, key d = k) dates.

(** The average of the counts of the time points of a bucket, rounded. *)
Definition rounded_average (series : gmap string Z) (pts : list string) : Z :=
  Math_round (inject_Z (Zsum (map (count_at series) pts))
              / inject_Z (Z.of_nat (length pts)))%Q.

(** The local [selectedLevels] of the second copy of the timeline and the
    experience-level filter hold the same values, as many in each. *)
Definition in_sync (selectedLevels : list string) (s : Store) : Prop :=
  (∀ x, x ∈ selectedLevels ↔ x ∈ experienceLevels (filters s))
  ∧ length selectedLevels = length (experienceLevels (filters s)).

(** A payload with one count, on a day of the tenth week of 2024. *)
Definition march_day : Types.TimeLineData :=
  Types.mkTimeLineData ["2024-03-05"] ["Senior-level"]
    {[ "Senior-level" := {[ "2024-03-05" := 4%Z ]} ]}.

(** The time points of the Weekly aggregation, when it returns. *)
Definition weekly_labels `{Host} (data : Types.TimeLineData) : option (list string) :=
  match JobPostingsTimeLine.getAggregatedData JobPostingsTimeLine.Weekly (Some data) with
  | Normal (Some aggregated) => Some (Types.timePoints aggregated)
  | _ => None
  end.

(** Daily counts 4 and 6 of two days of the first week of 2024. *)
Definition two_days : Types.TimeLineData :=
  Types.mkTimeLineData ["2024-01-02"; "2024-01-03"] ["Senior-level"]
    {[ "Senior-level" := {[ "2024-01-02" := 4%Z; "2024-01-03" := 6%Z ]} ]}.

(** ** Notions used in the further properties *)

(** The salary that a location contributes to the average of an industry. *)
Definition positive_salary (data : Types.GroupedBarData) (industry location : string)
  : option Q :=
  row ← Types.bar_data data !! location;
  v ← row !! industry;
  if Qlt_le_dec 0 v then Some v else None.

(** The positive salaries of an industry, one per location that has one. *)
Definition positive_salaries (data : Types.GroupedBarData) (industry : string) : list Q :=
  omap (positive_salary data industry) (Types.bar_locations data).





(** The weekly aggregate of [two_days] on the reference host. *)
Definition two_days_weekly : Types.TimeLineData :=
  match JobPostingsTimeLine.getAggregatedData (H := UTC.host) JobPostingsTimeLine.Weekly
          (Some two_days) with
  | Normal (Some aggregated) => aggregated
  | _ => two_days
  end.

(** A payload that lists a level without a series. *)
Definition no_series : Types.TimeLineData :=
  Types.mkTimeLineData ["2024-01-02"] ["Mid-level"] ∅.

(** A decimal digit. *)
Definition is_digit (c : ascii) : bool :=
  (48 <=? nat_of_ascii c)%nat && (nat_of_ascii c <=? 57)%nat.

(** A string of decimal digits. *)
Fixpoint all_digits (s : string) : bool :=
  match s with
  | EmptyString => true
  | String a rest => is_digit a && all_digits rest
  end.

(** * Properties *)

Import Dashboard.

(** ** Lists as membership sets *)

Lemma includes_spec (x : string) (l : list string) : includes x l = true ↔ x ∈ l.
Proof. unfold includes. apply bool_decide_eq_true. Qed.

Lemma includes_false (x : string) (l : list string) : includes x l = false ↔ x ∉ l.
Proof. unfold includes. apply bool_decide_eq_false. Qed.

Lemma elem_of_toggle (x v : string) (l : list string) :
  x ∈ toggle v l ↔ (x = v ∧ v ∉ l) ∨ (x ≠ v ∧ x ∈ l).
Proof.
  unfold toggle. destruct (includes v l) eqn:E.
  - apply includes_spec in E. rewrite list_elem_of_filter.
    split.
    + intros [Hne Hin]. right. done.
    + intros [[-> Hn] | [Hne Hin]]; [contradiction | done].
  - apply includes_false in E. rewrite elem_of_app, list_elem_of_singleton.
    split.
    + intros [Hin | ->]; [right | left]; [|done].
      split; [|done]. intros ->. contradiction.
    + intros [[-> _] | [_ Hin]]; [right | left]; done.
Qed.


Lemma elem_of_select_only (x v : string) (l : list string) :
  x ∈ select_only v l ↔ x = v ∧ v ∉ l.
Proof.
  unfold select_only. destruct (includes v l) eqn:E; simpl.
  - apply includes_spec in E. rewrite elem_of_nil. tauto.
  - apply includes_false in E. rewrite list_elem_of_singleton. tauto.
Qed.

(** ** What each click handler writes *)

Lemma setFilters_filters f s : filters (setFilters f s) = f.
Proof. reflexivity. Qed.

Lemma setActiveItem_filters a s : filters (setActiveItem a s) = filters s.
Proof. reflexivity. Qed.

Lemma setActiveItem_activeItem a s : activeItem (setActiveItem a s) = a.
Proof. reflexivity. Qed.

Lemma get_with_experienceLevels fld v f :
  get fld (with_experienceLevels v f) =
  if decide (fld = F_experienceLevels) then v else get fld f.
Proof. destruct fld; reflexivity. Qed.

Lemma get_with_industries fld v f :
  get fld (with_industries v f) =
  if decide (fld = F_industries) then v else get fld f.
Proof. destruct fld; reflexivity. Qed.

(** Unfolds the handlers and splits on every test they make. *)
Ltac run_handler :=
  cbn [click mutate mouseover mouseout snd fst];
  unfold HiringPulseChart.heatmap_click, HiringPulseChart.bubble_click,
    HiringPulseChart.point_click,
    JobPostingsTimeLine.line_click, JobPostingsTimeLine.point_click,
    JobPostingsTimeLine.legend_click, JobPostingsTimeLine.menu_row_click,
    JobPostingsTimeLine.menu_select_all, JobPostingsTimeLine.menu_clear,
    SalaryLocationIndustryBarChart.legend_click,
    SalaryLocationIndustryBarChart.badge_click,
    SalaryLocationIndustryBarChart.toggleIndustry,
    SalaryLocationIndustryBarChart.select_all,
    SalaryLocationIndustryBarChart.clear,
    SalaryJobTitleRidgeline.overlay_click;
  cbn [snd fst];
  repeat match goal with
         | |- context [if ?b then _ else _] => destruct b eqn:?
         end;
  cbn [snd fst filters activeItem setFilters setActiveItem].

Lemma click_field (t : ClickTarget) loc cat ctx s :
  get (clicked_field t) (filters (click t loc cat ctx s)) =
  match chart_of t with
  | HiringPulse => select_only cat (get (clicked_field t) (filters ctx))
  | _ => toggle cat (get (clicked_field t) (filters ctx))
  end.
Proof.
  destruct t; cbn [chart_of clicked_field get]; unfold toggle, select_only;
    run_handler; try reflexivity; try congruence.
Qed.

(** ** C1: clicking twice *)

Lemma point_click2_selected (ctx : Store) (selectedLevels : list string) (level : string)
    (s : Store) :
  (JobPostingsTimeLine.point_click2 ctx selectedLevels level s).1.1
  = toggle level selectedLevels.
Proof.
  unfold JobPostingsTimeLine.point_click2, toggle. cbn [fst snd].
  destruct (includes level selectedLevels) eqn:E; [| reflexivity].
  destruct (length selectedLevels =? 1)%nat eqn:El; [| reflexivity].
  apply Nat.eqb_eq in El. apply includes_spec in E.
  destruct selectedLevels as [| x [| y l]]; try discriminate El.
  apply list_elem_of_singleton in E as <-.
  cbn. destruct (decide (level ≠ level)); [contradiction | reflexivity].
Qed.

Lemma length_toggle (v : string) (l : list string) :
  length (toggle v l) ≠ length l.
Proof.
  unfold toggle. destruct (includes v l) eqn:E.
  - apply includes_spec in E. clear -E.
    induction l as [| a l IH]; [by apply elem_of_nil in E |].
    assert (Hle : ∀ l : list string, length (filter (λ t, t ≠ v) l) ≤ length l).
    { clear. induction l as [| b l IH]; [done |].
      rewrite filter_cons. destruct (decide (b ≠ v)); simpl; lia. }
    rewrite filter_cons. destruct (decide (a ≠ v)) as [Ha | Ha].
    + apply elem_of_cons in E as [-> | E]; [contradiction |].
      simpl. specialize (IH E). lia.
    + simpl. specialize (Hle l). lia.
  - rewrite length_app. simpl. lia.
Qed.

(** One click on a data point of the second copy, when the local selection
    and the filter are in step: the filter becomes the toggled selection. *)
Lemma click_point2_in_sync (selectedLevels : list string) (cat : string) (s : Store) :
  in_sync selectedLevels s →
  (click_point2 selectedLevels cat s).1 = toggle cat selectedLevels
  ∧ experienceLevels (filters (click_point2 selectedLevels cat s).2)
    = toggle cat selectedLevels
  ∧ ∀ fld, fld ≠ F_experienceLevels →
      get fld (filters (click_point2 selectedLevels cat s).2) = get fld (filters s).
Proof.
  intros [Hmem Hlen]. unfold click_point2.
  pose proof (point_click2_selected s selectedLevels cat s) as Hsel.
  destruct (JobPostingsTimeLine.point_click2 s selectedLevels cat s)
    as [[sel' sel_class] s1] eqn:E.
  cbn [fst snd] in *. subst sel'.
  assert (Hs1 : filters s1 = filters s).
  { unfold JobPostingsTimeLine.point_click2 in E. injection E as _ _ <-. reflexivity. }
  split; [reflexivity |].
  unfold JobPostingsTimeLine.sync_selectedLevels. rewrite Hs1.
  pose proof (length_toggle cat selectedLevels) as Hne.
  rewrite Hlen in Hne. apply Nat.eqb_neq in Hne. rewrite Hne. cbn [negb orb].
  destruct (bool_decide (0 < length (toggle cat selectedLevels))) eqn:L;
    cbn [filters setFilters].
  - split; [reflexivity |]. intros fld Hfld. by destruct fld.
  - apply bool_decide_eq_false in L.
    destruct (toggle cat selectedLevels) eqn:Et; [| simpl in L; lia].
    split; [reflexivity |]. intros fld Hfld. by destruct fld.
Qed.

(** The clicked field a handler reads is the one of the live store when the
    handler follows the store or nothing has changed since the drawing. *)
Lemma captured_filters (t : ClickTarget) (drawn s : Store) :
  (follows_store t = false → filters drawn = filters s) →
  filters (captured t drawn s) = filters s.
Proof.
  intros H. unfold captured. destruct (follows_store t); [reflexivity | by apply H].
Qed.




(** The ridgeline overlay is bound in an effect whose dependency list does
    not contain [filters].  A second click handled by the closure of the
    first render reads the same snapshot again and writes the same value. *)
Remark ridgeline_click_same_snapshot (ctx : Store) (title : string) (s : Store) :
  let s1 := SalaryJobTitleRidgeline.overlay_click ctx title s in
  SalaryJobTitleRidgeline.overlay_click ctx title s1 = s1.
Proof.
  unfold SalaryJobTitleRidgeline.overlay_click.
  destruct (includes title (industries (filters ctx))); reflexivity.
Qed.

(** ** C2: what one click does to the clicked field *)

(** C2, as stated, fails.  A click on a heatmap cell of level "Senior-level"
    while {"Entry-level"} is selected removes "Entry-level", a value other than
    the clicked one.  A click on a data point of "Mid-level" in the second copy
    of the timeline, whose local [selectedLevels] still hold "Entry-level"
    after a legend click took it out of the filter, puts "Entry-level" back.
    A click on the legend entry "Finance" of a bar chart drawn before
    "Data Scientist" was put into the industries takes "Data Scientist"
    out. *)
Lemma click_changes_other_value :
  (let ctx := mkStore (mkFilterOptions ["Entry-level"] [] [] []) no_item in
   let loc := mkLocal false [] in
   let before := get (clicked_field HeatmapCell) (filters ctx) in
   let after :=
     get (clicked_field HeatmapCell) (filters (click HeatmapCell loc "Senior-level" ctx ctx)) in
   after = ["Senior-level"]
   ∧ ¬ (∀ x, x ≠ "Senior-level" → (x ∈ after ↔ x ∈ before)))
  ∧ (let s := mkStore (mkFilterOptions ["Mid-level"; "Senior-level"] [] [] []) no_item in
     let selectedLevels := ["Entry-level"; "Mid-level"; "Senior-level"] in
     let before := experienceLevels (filters s) in
     let after := experienceLevels (filters (click_point2 selectedLevels "Mid-level" s).2) in
     after = ["Entry-level"; "Senior-level"]
     ∧ ¬ (∀ x, x ≠ "Mid-level" → (x ∈ after ↔ x ∈ before)))
  ∧ (let s := mkStore (mkFilterOptions [] [] ["Data Scientist"] []) no_item in
     let loc := mkLocal false [] in
     let before := get (clicked_field BarLegend) (filters s) in
     let after := get (clicked_field BarLegend) (filters (fire BarLegend loc "Finance" initial s)) in
     after = ["Finance"]
     ∧ ¬ (∀ x, x ≠ "Finance" → (x ∈ after ↔ x ∈ before))).
Proof.
  split; [| split]; (split; [reflexivity |]); intros Hall.
  - specialize (Hall "Entry-level" ltac:(discriminate)).
    vm_compute in Hall. destruct Hall as [_ Hall].
    specialize (Hall (list_elem_of_here _ _)).
    apply list_elem_of_singleton in Hall. discriminate.
  - specialize (Hall "Entry-level" ltac:(discriminate)).
    destruct Hall as [Hall _]. specialize (Hall (list_elem_of_here _ _)).
    vm_compute in Hall.
    apply elem_of_cons in Hall as [Hall | Hall]; [discriminate Hall |].
    apply list_elem_of_singleton in Hall. discriminate Hall.
  - specialize (Hall "Data Scientist" ltac:(discriminate)).
    vm_compute in Hall. destruct Hall as [_ Hall].
    specialize (Hall (list_elem_of_here _ _)).
    apply list_elem_of_singleton in Hall. discriminate.
Qed.

(** C2 (amended): a click by a handler that holds the current filters
    toggles the membership of the clicked category in the field the handler
    assigns ([experienceLevels] for HiringPulseChart and the timeline,
    [industries] for the bar chart and, with the job title as value, for the
    ridgeline): it is a member afterwards exactly when it was not before.  The
    add/remove handlers leave every other value of the field as it was; the
    HiringPulseChart handlers remove every other value.  A click on a data
    point of the second copy of the timeline does the same to
    [experienceLevels] through its local [selectedLevels] when these hold the
    values of the filter.  Nothing is said of a legend entry of the bar chart
    or a ridgeline overlay drawn before the filters last changed. *)
Theorem click_toggles_category (t : ClickTarget) (loc : Local)
    (selectedLevels : list string) (cat : string) (drawn s : Store) :
  (follows_store t = false → filters drawn = filters s) →
  in_sync selectedLevels s →
  let before := get (clicked_field t) (filters s) in
  let after := get (clicked_field t) (filters (fire t loc cat drawn s)) in
  let before2 := experienceLevels (filters s) in
  let after2 := experienceLevels (filters (click_point2 selectedLevels cat s).2) in
  ((cat ∈ after ↔ cat ∉ before)
   ∧ match chart_of t with
     | HiringPulse => ∀ x, x ≠ cat → x ∉ after
     | _ => ∀ x, x ≠ cat → (x ∈ after ↔ x ∈ before)
     end)
  ∧ ((cat ∈ after2 ↔ cat ∉ before2)
     ∧ ∀ x, x ≠ cat → (x ∈ after2 ↔ x ∈ before2)).
Proof.
  intros Hcur Hsync before after before2 after2. subst before after before2 after2.
  split.
  - unfold fire. rewrite click_field, (captured_filters t drawn s Hcur).
    destruct (chart_of t); split;
      try (rewrite elem_of_toggle; tauto);
      try (intros x Hne; rewrite elem_of_toggle; tauto);
      try (rewrite elem_of_select_only; tauto);
      intros x Hne; rewrite elem_of_select_only; tauto.
  - destruct (click_point2_in_sync selectedLevels cat s Hsync) as (_ & -> & _).
    destruct Hsync as [Hmem _]. split.
    + rewrite elem_of_toggle, <- Hmem. tauto.
    + intros x Hne. rewrite elem_of_toggle, <- Hmem. tauto.
Qed.

Lemma click_toggles_category_witness :
  let loc := mkLocal false [] in
  in_sync [] initial
  ∧ ("Data Scientist"
       ∈ get (clicked_field RidgelineOverlay)
           (filters (fire RidgelineOverlay loc "Data Scientist" initial initial))
     ↔ "Data Scientist" ∉ get (clicked_field RidgelineOverlay) (filters initial)).
Proof.
  intros loc.
  assert (Hsync : in_sync [] initial) by (split; reflexivity).
  split; [exact Hsync |].
  apply (click_toggles_category RidgelineOverlay loc [] "Data Scientist" initial initial).
  - reflexivity.
  - exact Hsync.
Defined.

(** ** C3: pointer-enter and pointer-leave *)

(** C3, as stated, fails: the pointer handlers of a heatmap cell never call
    [setActiveItem].  After pointer-enter the active item is still the empty
    one, and pointer-leave from an unselected cell leaves an active item set
    elsewhere in place. *)
Lemma heatmap_hover_leaves_active_item :
  let loc := mkLocal false [] in
  let s := setActiveItem (item Industry "Finance") initial in
  ¬ (∃ kind, activeItem (mouseover HoverHeatmapCell "Senior-level" initial initial)
             = item kind "Senior-level")
  ∧ activeItem (mouseout HoverHeatmapCell loc "Senior-level" s s) ≠ no_item.
Proof.
  split.
  - intros [kind Hk]. vm_compute in Hk. discriminate.
  - vm_compute. discriminate.
Qed.

(** C3 (amended): pointer handlers never touch [filters].  Pointer-enter on
    a timeline line or data point, on a bar and on a ridgeline overlay sets the
    active item to the element's category ([experienceLevel], [industry],
    [jobTitle]); pointer-leave resets it to the empty item, always for the
    line, the bar and the overlay, and for a timeline data point only when the
    point does not carry the [selected] class.  The pointer handlers of
    HiringPulseChart (heatmap cell, bubble, trend point) leave the store as it
    is. *)
Theorem hover_active_item (h : HoverTarget) (loc : Local) (cat : string) (ctx s : Store) :
  filters (mouseover h cat ctx s) = filters s
  ∧ filters (mouseout h loc cat ctx s) = filters s
  ∧ match h with
    | HoverHeatmapCell | HoverBubble | HoverTrendPoint =>
        mouseover h cat ctx s = s ∧ mouseout h loc cat ctx s = s
    | HoverTimelineLine =>
        activeItem (mouseover h cat ctx s) = item ExperienceLevel cat
        ∧ activeItem (mouseout h loc cat ctx s) = no_item
    | HoverTimelinePoint =>
        activeItem (mouseover h cat ctx s) = item ExperienceLevel cat
        ∧ (if selected loc
           then mouseout h loc cat ctx s = s
           else activeItem (mouseout h loc cat ctx s) = no_item)
    | HoverBar =>
        activeItem (mouseover h cat ctx s) = item Industry cat
        ∧ activeItem (mouseout h loc cat ctx s) = no_item
    | HoverRidgelineOverlay =>
        activeItem (mouseover h cat ctx s) = item JobTitle cat
        ∧ activeItem (mouseout h loc cat ctx s) = no_item
    end.
Proof.
  destruct h; cbn [mouseover mouseout];
    unfold JobPostingsTimeLine.point_mouseout;
    destruct (selected loc); repeat split.
Qed.

(** ** C10: the fields a mutation does not assign *)

(** Every interaction handler that calls [setFilters] passes a copy of the
    snapshot it holds with one field replaced, so each of the three other
    fields of the new [filters] equals that field of the snapshot. *)
Lemma mutation_preserves_other_fields (m : Mutation) (ctx s : Store) (fld : Field) :
  fld ≠ mutated_field m →
  get fld (filters (mutate m ctx s)) = get fld (filters ctx).
Proof.
  intros Hne.
  destruct m as [t loc cat | levels | | inds |]; [destruct t | | | |];
    cbn [mutated_field clicked_field] in Hne;
    destruct fld; try contradiction;
    run_handler; reflexivity.
Qed.

(** C10 (defect of the code): every handler spreads the snapshot it holds,
    but the snapshot is not always the previous state of the store.  A handler
    that follows the store leaves the three other fields as they are in the
    store.  The legend entry of the bar chart and the ridgeline overlay hold
    the filters of the render in which their chart was drawn, and write the
    three other fields back as they were then: what another chart has put into
    them since is dropped. *)
Theorem stale_handler_drops_other_fields (m : Mutation) (drawn s : Store) (fld : Field) :
  fld ≠ mutated_field m →
  if mutation_follows_store m
  then get fld (filters (fire_mutation m drawn s)) = get fld (filters s)
  else get fld (filters (fire_mutation m drawn s)) = get fld (filters drawn)
       ∧ (get fld (filters drawn) ≠ get fld (filters s) →
          get fld (filters (fire_mutation m drawn s)) ≠ get fld (filters s)).
Proof.
  intros Hne. unfold fire_mutation.
  destruct (mutation_follows_store m).
  - by apply mutation_preserves_other_fields.
  - rewrite (mutation_preserves_other_fields m drawn s fld Hne). done.
Qed.

(** The ridgeline is drawn while no filter is set; a click on the timeline
    selects "Senior-level"; a click on the overlay of "Data Scientist" then
    writes the empty [experienceLevels] of the drawing back. *)
Lemma stale_handler_drops_other_fields_witness :
  let drawn := initial in
  let s := setFilters (with_experienceLevels ["Senior-level"] (filters drawn)) drawn in
  let m := Click RidgelineOverlay (mkLocal false []) "Data Scientist" in
  F_experienceLevels ≠ mutated_field m
  ∧ mutation_follows_store m = false
  ∧ get F_experienceLevels (filters s) = ["Senior-level"]
  ∧ get F_experienceLevels (filters (fire_mutation m drawn s)) = []
  ∧ get F_experienceLevels (filters (fire_mutation m drawn s))
    ≠ get F_experienceLevels (filters s).
Proof.
  intros drawn s m.
  assert (Hne : F_experienceLevels ≠ mutated_field m) by discriminate.
  split; [exact Hne |]. split; [reflexivity |]. split; [reflexivity |].
  pose proof (stale_handler_drops_other_fields m drawn s F_experienceLevels Hne) as H.
  cbn [mutation_follows_store m follows_store] in H.
  split; [exact (proj1 H) |].
  apply (proj2 H). discriminate.
Defined.

(** The effect of the second copy of the timeline that copies the local
    [selectedLevels] into the store spreads the snapshot as well. *)
Lemma sync_selectedLevels_other_fields (ctx : Store) (isLoading : bool)
    (selectedLevels : list string) (s : Store) (fld : Field) :
  fld ≠ F_experienceLevels →
  filters s = filters ctx →
  get fld (filters (JobPostingsTimeLine.sync_selectedLevels ctx isLoading selectedLevels s))
  = get fld (filters ctx).
Proof.
  intros Hne Hs. unfold JobPostingsTimeLine.sync_selectedLevels.
  repeat match goal with
         | |- context [if ?b then _ else _] => destruct b eqn:?
         end;
    cbn [filters setFilters]; rewrite ?Hs;
    destruct fld; try contradiction; reflexivity.
Qed.

(** ** C8: the no-data boundary *)

(** C8, as stated, fails: with [isLoading = false] and a payload whose
    [experienceLevels] is the empty array, HiringPulseChart renders the chart
    frame and [getAggregatedData] builds its aggregates. *)
Lemma empty_levels_render_the_chart :
  let p := HiringPulseProps (Some (Types.mkTimeLineData [] [] ∅)) false in
  isLoading p = false
  ∧ categories_empty p = true
  ∧ view (H := UTC.host) (λ _, 0%Q) JobPostingsTimeLine.Monthly p = Normal ChartFrame
  ∧ derives (H := UTC.host) (λ _, 0%Q) JobPostingsTimeLine.Monthly initial [] p = true.
Proof. repeat split. Qed.

Lemma no_levels_no_throw `{Host} (interval : JobPostingsTimeLine.TimeInterval)
    (d : Types.TimeLineData) (l : bool) :
  Types.experienceLevels d = [] →
  ∃ rendered, JobPostingsTimeLine.render interval (Some d) l = Normal rendered
    ∧ JobPostingsTimeLine.view rendered = if l then Skeleton else ChartFrame.
Proof.
  intros E. unfold JobPostingsTimeLine.render, JobPostingsTimeLine.getAggregatedData.
  rewrite E. destruct interval; cbn; by eexists.
Qed.

(** C8 (amended): with [isLoading = false], every chart renders the
    "No Data Available" state and derives no aggregate when [data] is
    [undefined]; the ridgeline does so as well when [jobTitles] has length 0.
    The three other charts only test for [undefined]: with an empty category
    list they render the chart frame. *)
Theorem no_data_boundary `{Host} (random : nat → Q)
    (interval : JobPostingsTimeLine.TimeInterval) (ctx : Store)
    (activeIndustries : list string) (p : Props) :
  isLoading p = false →
  (data_undefined p = true →
   view random interval p = Normal NoDataAvailable
   ∧ derives random interval ctx activeIndustries p = false)
  ∧ (categories_empty p = true →
     match p with
     | RidgelineProps _ _ =>
         view random interval p = Normal NoDataAvailable
         ∧ derives random interval ctx activeIndustries p = false
     | _ => view random interval p = Normal ChartFrame
     end).
Proof.
  destruct p as [[d|] l | [d|] l | [d|] l | [d|] l]; cbn [isLoading];
    intros ->; cbn [data_undefined categories_empty];
    (split; [try discriminate | try discriminate]).
  - intros _. reflexivity.
  - intros _. split; reflexivity.
  - intros E. apply Nat.eqb_eq, nil_length_inv in E.
    destruct (no_levels_no_throw interval d false E) as (r & Hr & Hv).
    cbn [view]. rewrite Hr. cbn [cbind]. by rewrite Hv.
  - intros _. destruct interval; split; reflexivity.
  - intros _. reflexivity.
  - intros _. split; reflexivity.
  - intros E. cbn [view derives]. unfold SalaryJobTitleRidgeline.render.
    cbn [SalaryJobTitleRidgeline.view SalaryJobTitleRidgeline.drawn orb].
    rewrite E. split; reflexivity.
  - intros _. split; reflexivity.
Qed.

Lemma no_data_boundary_witness :
  let p := RidgelineProps (Some (Types.mkRidgelineData [] [])) false in
  isLoading p = false
  ∧ categories_empty p = true
  ∧ view (H := UTC.host) (λ _, 0%Q) JobPostingsTimeLine.Weekly p = Normal NoDataAvailable
  ∧ derives (H := UTC.host) (λ _, 0%Q) JobPostingsTimeLine.Weekly initial [] p = false.
Proof.
  intros p. split; [reflexivity |]. split; [reflexivity |].
  exact (proj2 (no_data_boundary (H := UTC.host) (λ _, 0%Q) JobPostingsTimeLine.Weekly
                  initial [] p eq_refl) eq_refl).
Defined.

(** ** C4: what the derived aggregates depend on *)

(** C4, as stated, fails, in two ways.  [getAggregatedData] of
    HiringPulseChart draws an industry weight from [Math.random] for every
    pair of industry and level: on the same payload, draws of [0] give
    "Technology" one posting and draws of [1/2] give it two.  The Weekly
    aggregation of the timeline labels a week by its date in the year of the
    clock: the tenth week is "Mar 04" when the clock reads 2024 and "Mar 05"
    when it reads 2025. *)
Lemma random_weights_change_aggregates :
  ((HiringPulseChart.getAggregatedData (λ _, 0%Q) (Some one_level)
      ≫= λ a, HiringPulseChart.byIndustry a !! "Technology") = Some 1%Z
   ∧ (HiringPulseChart.getAggregatedData (λ _, 1 # 2) (Some one_level)
        ≫= λ a, HiringPulseChart.byIndustry a !! "Technology") = Some 2%Z
   ∧ HiringPulseChart.getAggregatedData (λ _, 0%Q) (Some one_level)
     ≠ HiringPulseChart.getAggregatedData (λ _, 1 # 2) (Some one_level))
  ∧ (let in_2024 := at_time UTC.host (UTC.days_from_civil 2024 6 15 * UTC.msPerDay) in
     let in_2025 := at_time UTC.host (UTC.days_from_civil 2025 6 15 * UTC.msPerDay) in
     weekly_labels (H := in_2024) march_day = Some ["Mar 04"]
     ∧ weekly_labels (H := in_2025) march_day = Some ["Mar 05"]
     ∧ JobPostingsTimeLine.getAggregatedData (H := in_2024)
         JobPostingsTimeLine.Weekly (Some march_day)
       ≠ JobPostingsTimeLine.getAggregatedData (H := in_2025)
           JobPostingsTimeLine.Weekly (Some march_day)).
Proof.
  split.
  - assert (H0 : (HiringPulseChart.getAggregatedData (λ _, 0%Q) (Some one_level)
       ≫= λ a, HiringPulseChart.byIndustry a !! "Technology") = Some 1%Z)
      by (vm_compute; reflexivity).
    assert (H1 : (HiringPulseChart.getAggregatedData (λ _, 1 # 2) (Some one_level)
       ≫= λ a, HiringPulseChart.byIndustry a !! "Technology") = Some 2%Z)
      by (vm_compute; reflexivity).
    split; [exact H0 | split; [exact H1 |]].
    intros Heq. rewrite Heq in H0. rewrite H0 in H1. discriminate H1.
  - intros in_2024 in_2025.
    assert (H4 : weekly_labels (H := in_2024) march_day = Some ["Mar 04"])
      by (vm_compute; reflexivity).
    assert (H5 : weekly_labels (H := in_2025) march_day = Some ["Mar 05"])
      by (vm_compute; reflexivity).
    split; [exact H4 | split; [exact H5 |]].
    intros Heq. unfold weekly_labels in H4, H5. rewrite Heq in H4. rewrite H4 in H5.
    discriminate H5.
Qed.

Lemma forEachC_ext {A S} (f g : A → S → Completion S) (l : list A) (acc : S) :
  (∀ a s, f a s = g a s) → forEachC f l acc = forEachC g l acc.
Proof.
  intros Hfg. revert acc. induction l as [| a l IH]; intros acc; cbn [forEachC]; [done |].
  rewrite Hfg. destruct (g a acc); cbn [cbind]; [apply IH | done].
Qed.

(** The inner loop of the distribution reads one draw per level, starting
    at the draw [n]. *)
Lemma distribute_draws (random1 random2 : nat → Q) (totals : gmap string Z)
    (industry : string) (levels : list string) (n : nat)
    (industryData : gmap string (gmap string Z)) (industryTotals : gmap string Z) :
  (∀ k, (n ≤ k < n + length levels)%nat → random1 k = random2 k) →
  fold_left (HiringPulseChart.distribute random1 totals industry) levels
    (n, industryData, industryTotals)
  = fold_left (HiringPulseChart.distribute random2 totals industry) levels
      (n, industryData, industryTotals)
  ∧ (fold_left (HiringPulseChart.distribute random1 totals industry) levels
       (n, industryData, industryTotals)).1.1 = (n + length levels)%nat.
Proof.
  revert n industryData industryTotals.
  induction levels as [| level levels IH]; intros n iD iT Hr.
  - cbn. split; [done | lia].
  - cbn [fold_left].
    assert (Hstep : HiringPulseChart.distribute random2 totals industry (n, iD, iT) level
                    = HiringPulseChart.distribute random1 totals industry (n, iD, iT) level).
    { unfold HiringPulseChart.distribute. rewrite (Hr n) by (simpl; lia). reflexivity. }
    rewrite Hstep.
    assert (Hn : (HiringPulseChart.distribute random1 totals industry (n, iD, iT) level).1.1
                 = S n) by reflexivity.
    destruct (HiringPulseChart.distribute random1 totals industry (n, iD, iT) level)
      as [[n' iD'] iT'].
    cbn [fst] in Hn. subst n'.
    destruct (IH (S n) iD' iT') as [Heq Hlen].
    { intros k Hk. apply Hr. simpl. lia. }
    split; [exact Heq | rewrite Hlen; simpl; lia].
Qed.

Lemma distribute_industry_draws (random1 random2 : nat → Q) (levels : list string)
    (totals : gmap string Z) (inds : list string) (n : nat)
    (industryData : gmap string (gmap string Z)) (industryTotals : gmap string Z) :
  (∀ k, (n ≤ k < n + length inds * length levels)%nat → random1 k = random2 k) →
  fold_left (HiringPulseChart.distribute_industry random1 levels totals) inds
    (n, industryData, industryTotals)
  = fold_left (HiringPulseChart.distribute_industry random2 levels totals) inds
      (n, industryData, industryTotals).
Proof.
  revert n industryData industryTotals.
  induction inds as [| industry inds IH]; intros n iD iT Hr; [done |].
  cbn [fold_left]. unfold HiringPulseChart.distribute_industry at 2 4.
  destruct (distribute_draws random1 random2 totals industry levels n iD
              (<[industry := 0%Z]> iT)) as [Heq Hn].
  { intros k Hk. apply Hr. simpl. lia. }
  rewrite <- Heq.
  destruct (fold_left (HiringPulseChart.distribute random1 totals industry) levels
              (n, iD, <[industry := 0%Z]> iT)) as [[n' iD'] iT'].
  cbn [fst] in Hn. subst n'. apply IH.
  intros k Hk. apply Hr. simpl. lia.
Qed.

(** Only the label of a week reads the clock, and only its year. *)
Lemma weekLabel_at_time (h : Host) (now1 now2 : Z) (week : string) :
  getFullYear (Host := h) now1 = getFullYear (Host := h) now2 →
  JobPostingsTimeLine.weekLabel (H := at_time h now1) week
  = JobPostingsTimeLine.weekLabel (H := at_time h now2) week.
Proof.
  intros Hy. unfold JobPostingsTimeLine.weekLabel, JobPostingsTimeLine.getDateOfWeek.
  cbn [at_time getFullYear Date_now Date_local parseInt setDate getDate format].
  rewrite Hy. reflexivity.
Qed.

Lemma getAggregatedData_at_time (h : Host) (now1 now2 : Z)
    (interval : JobPostingsTimeLine.TimeInterval) (data : option Types.TimeLineData) :
  (interval = JobPostingsTimeLine.Weekly →
   getFullYear (Host := h) now1 = getFullYear (Host := h) now2) →
  JobPostingsTimeLine.getAggregatedData (H := at_time h now1) interval data
  = JobPostingsTimeLine.getAggregatedData (H := at_time h now2) interval data.
Proof.
  intros Hy. destruct data as [data |]; [| reflexivity].
  destruct interval; [reflexivity | | reflexivity].
  specialize (Hy eq_refl). unfold JobPostingsTimeLine.getAggregatedData.
  rewrite (forEachC_ext
             (JobPostingsTimeLine.aggregate_step data
                (JobPostingsTimeLine.getWeekOfYear (H := at_time h now1))
                (JobPostingsTimeLine.weekLabel (H := at_time h now1)))
             (JobPostingsTimeLine.aggregate_step data
                (JobPostingsTimeLine.getWeekOfYear (H := at_time h now2))
                (JobPostingsTimeLine.weekLabel (H := at_time h now2)))); [reflexivity |].
  intros level acc. unfold JobPostingsTimeLine.aggregate_step.
  replace (JobPostingsTimeLine.aggregate_level data
             (JobPostingsTimeLine.getWeekOfYear (H := at_time h now1))
             (JobPostingsTimeLine.weekLabel (H := at_time h now1)) level)
    with (JobPostingsTimeLine.aggregate_level data
            (JobPostingsTimeLine.getWeekOfYear (H := at_time h now2))
            (JobPostingsTimeLine.weekLabel (H := at_time h now2)) level); [reflexivity |].
  unfold JobPostingsTimeLine.aggregate_level.
  change (JobPostingsTimeLine.getWeekOfYear (H := at_time h now2))
    with (JobPostingsTimeLine.getWeekOfYear (H := at_time h now1)).
  destruct (forEachC _ (Types.timePoints data) ∅) as [groups | msg]; cbn [cbind]; [| done].
  apply forEachC_ext. intros entry out. unfold JobPostingsTimeLine.store_bucket.
  by rewrite (weekLabel_at_time h now2 now1).
Qed.

(** C4 (amended): the derived aggregates are a function of the payload, of
    the aggregation window and the state of the chart, and of two ambient
    inputs.  The aggregates of HiringPulseChart also depend on the values
    drawn from [Math.random], one for each of the five industries and each
    listed level: with the same draws they are equal, and whatever the draws,
    [byExperience], [timeSeries] and the copied lists of levels, industries and
    time points are the same.  The Weekly aggregates of the timeline also
    depend on the year of the clock: at two moments of the same year they are
    equal; the Monthly and Quarterly aggregates do not depend on the moment.
    The aggregates of the bar chart and of the ridgeline depend on neither. *)
Theorem aggregates_depend_on_draws_and_clock (h : Host) (now1 now2 : Z)
    (random1 random2 : nat → Q) (interval : JobPostingsTimeLine.TimeInterval)
    (ctx : Store) (activeIndustries : list string) (p : Props) :
  let a1 := aggregates (H := at_time h now1) random1 interval ctx activeIndustries p in
  let a2 := aggregates (H := at_time h now2) random2 interval ctx activeIndustries p in
  match p with
  | HiringPulseProps data _ =>
      let levels := from_option Types.experienceLevels [] data in
      ((∀ n, (n < length HiringPulseChart.industries * length levels)%nat →
             random1 n = random2 n) → a1 = a2)
      ∧ HiringPulseChart.byExperience <$> HiringPulseChart.getAggregatedData random1 data
        = HiringPulseChart.byExperience <$> HiringPulseChart.getAggregatedData random2 data
      ∧ HiringPulseChart.timeSeries <$> HiringPulseChart.getAggregatedData random1 data
        = HiringPulseChart.timeSeries <$> HiringPulseChart.getAggregatedData random2 data
      ∧ HiringPulseChart.agg_experienceLevels <$> HiringPulseChart.getAggregatedData random1 data
        = HiringPulseChart.agg_experienceLevels <$> HiringPulseChart.getAggregatedData random2 data
      ∧ HiringPulseChart.agg_industries <$> HiringPulseChart.getAggregatedData random1 data
        = HiringPulseChart.agg_industries <$> HiringPulseChart.getAggregatedData random2 data
      ∧ HiringPulseChart.agg_timePoints <$> HiringPulseChart.getAggregatedData random1 data
        = HiringPulseChart.agg_timePoints <$> HiringPulseChart.getAggregatedData random2 data
  | TimeLineProps data _ =>
      (interval = JobPostingsTimeLine.Weekly →
       getFullYear (Host := h) now1 = getFullYear (Host := h) now2) →
      a1 = a2
  | BarProps _ _ | RidgelineProps _ _ => a1 = a2
  end.
Proof.
  intros a1 a2. subst a1 a2.
  destruct p as [data l | data l | data l | data l]; cbn [aggregates];
    [| | reflexivity | reflexivity].
  - cbn [HiringPulseChart.render HiringPulseChart.aggregatedData].
    unfold HiringPulseChart.getAggregatedData.
    destruct data as [data |]; [| by repeat split].
    cbn [from_option].
    destruct (fold_left (HiringPulseChart.init_level data) (Types.experienceLevels data)
                (∅, ∅, ∅)) as [[totals industryData] timeData].
    split.
    + intros Hr.
      rewrite (distribute_industry_draws random1 random2 (Types.experienceLevels data)
                 totals HiringPulseChart.industries 0 industryData ∅); [reflexivity |].
      intros k Hk. apply Hr. lia.
    + destruct (fold_left
                  (HiringPulseChart.distribute_industry random1 (Types.experienceLevels data) totals)
                  HiringPulseChart.industries (0%nat, industryData, ∅)) as [[n1 i1] t1].
      destruct (fold_left
                  (HiringPulseChart.distribute_industry random2 (Types.experienceLevels data) totals)
                  HiringPulseChart.industries (0%nat, industryData, ∅)) as [[n2 i2] t2].
      repeat split.
  - intros Hy. f_equal. by apply getAggregatedData_at_time.
Qed.

(** Two Weekly aggregations of the same payload, on the 15th of June and
    on the 1st of July of 2025. *)
Lemma aggregates_depend_on_draws_and_clock_witness :
  let p := TimeLineProps (Some march_day) false in
  let june := (UTC.days_from_civil 2025 6 15 * UTC.msPerDay)%Z in
  let july := (UTC.days_from_civil 2025 7 1 * UTC.msPerDay)%Z in
  getFullYear (Host := UTC.host) june = getFullYear (Host := UTC.host) july
  ∧ aggregates (H := at_time UTC.host june) (λ _, 0%Q) JobPostingsTimeLine.Weekly initial [] p
    = aggregates (H := at_time UTC.host july) (λ _, 1 # 2) JobPostingsTimeLine.Weekly
        initial [] p.
Proof.
  intros p june july.
  assert (Hy : getFullYear (Host := UTC.host) june = getFullYear (Host := UTC.host) july)
    by (vm_compute; reflexivity).
  split; [exact Hy |].
  apply (aggregates_depend_on_draws_and_clock UTC.host june july (λ _, 0%Q) (λ _, 1 # 2)
           JobPostingsTimeLine.Weekly initial [] p).
  intros _. exact Hy.
Defined.

(** ** C9: malformed date labels *)

Section ParseDateProperties.
Context `{Host}.

(** [parseDate] never writes to the console. *)
Lemma parseDate_never_logs (dateString : string) :
  snd (HiringPulseChart.parseDate dateString) = [].
Proof.
  unfold HiringPulseChart.parseDate.
  destruct (str_includes "-" dateString); [reflexivity |].
  destruct (str_includes "Q" dateString); reflexivity.
Qed.

(** A label without ["-"] and without ["Q"] is handed to [new Date]. *)
Lemma parseDate_other_format (dateString : string) :
  str_includes "-" dateString = false →
  str_includes "Q" dateString = false →
  HiringPulseChart.parseDate dateString = (Date_parse dateString, []).
Proof.
  intros H1 H2. unfold HiringPulseChart.parseDate. rewrite H1, H2. reflexivity.
Qed.

End ParseDateProperties.

(** C9 (the code departs from it): for the label ["not a date"], which
    [new Date] cannot parse, [parseDate] returns the Invalid Date and logs
    nothing; the current date is not substituted.  The [catch] branch that
    holds the fallback is never entered because [new Date] does not throw. *)
Theorem parseDate_malformed_is_invalid `{Host} :
  Date_parse "not a date" = None →
  HiringPulseChart.parseDate "not a date" = (None, [])
  ∧ HiringPulseChart.parseDate "not a date" ≠ (Some Date_now, ["Error parsing date: not a date"]).
Proof.
  intros Hinv. rewrite parseDate_other_format by reflexivity.
  rewrite Hinv. split; [reflexivity | discriminate].
Qed.

Lemma parseDate_malformed_is_invalid_witness :
  Date_parse (Host := UTC.host) "not a date" = None
  ∧ HiringPulseChart.parseDate (H := UTC.host) "not a date" = (None, []).
Proof.
  split; [reflexivity |].
  exact (proj1 (parseDate_malformed_is_invalid (H := UTC.host) eq_refl)).
Defined.

(** ** Sorting and the median *)

Lemma insert_sorted_perm {A} (leb : A → A → bool) x l : insert_sorted leb x l ≡ₚ x :: l.
Proof.
  induction l as [| h t IH]; simpl; [done |].
  destruct (leb x h); [done |]. rewrite IH. apply Permutation_swap.
Qed.

Lemma insertion_sort_perm {A} (leb : A → A → bool) l : insertion_sort leb l ≡ₚ l.
Proof.
  induction l as [| h t IH]; simpl; [done |].
  rewrite insert_sorted_perm. by rewrite IH.
Qed.

Lemma insert_sorted_ascending (x : Q) (l : list Q) :
  StronglySorted Qle l → StronglySorted Qle (insert_sorted Qle_bool x l).
Proof.
  induction 1 as [| h t Hss IH Hall]; simpl.
  - repeat constructor.
  - destruct (Qle_bool x h) eqn:E.
    + apply Qle_bool_iff in E. constructor; [by constructor |].
      constructor; [done |].
      eapply Forall_impl; [exact Hall |]. intros y Hy. simpl in Hy. lra.
    + assert (h <= x)%Q.
      { destruct (Qlt_le_dec h x) as [Hlt | Hle]; [lra |].
        apply Qle_bool_iff in Hle. congruence. }
      constructor; [done |].
      rewrite insert_sorted_perm. constructor; done.
Qed.

Lemma sort_ascending_sorted (l : list Q) : StronglySorted Qle (sort_ascending l).
Proof.
  induction l as [| h t IH]; simpl; [constructor |].
  by apply insert_sorted_ascending.
Qed.

Lemma StronglySorted_lookup_le (l : list Q) (i j : nat) (x y : Q) :
  StronglySorted Qle l → (i ≤ j)%nat → l !! i = Some x → l !! j = Some y → (x <= y)%Q.
Proof.
  intros Hss. revert i j. induction Hss as [| h t Hss IH Hall]; intros i j Hij Hi Hj.
  - done.
  - destruct i as [| i], j as [| j]; simpl in *; simplify_eq.
    + lra.
    + rewrite Forall_forall in Hall. apply Hall. by eapply list_elem_of_lookup_2.
    + lia.
    + eapply IH; [| done | done]. lia.
Qed.

Lemma lookup_nth_Q (l : list Q) (i : nat) :
  (i < length l)%nat → l !! i = Some (nth i l 0%Q).
Proof.
  intros Hi. destruct (lookup_lt_is_Some_2 l i Hi) as [x Hx].
  rewrite Hx. f_equal. symmetry. by apply nth_lookup_Some.
Qed.

Lemma half_floor (n : nat) :
  Z.to_nat (Qfloor (inject_Z (Z.of_nat n) * (1 # 2))) = (n / 2)%nat.
Proof.
  unfold Qfloor, Qmult, inject_Z. cbn [Qnum Qden].
  rewrite Z.mul_1_r. change (Z.pos (1 * 2)) with (Z.of_nat 2).
  rewrite <- Nat2Z.inj_div. apply Nat2Z.id.
Qed.

Lemma half_frac (n : nat) :
  (inject_Z (Z.of_nat n) * (1 # 2)
   - inject_Z (Qfloor (inject_Z (Z.of_nat n) * (1 # 2)))
   == if Nat.even n then 0 else 1 # 2)%Q.
Proof.
  assert (Hf : Qfloor (inject_Z (Z.of_nat n) * (1 # 2)) = Z.of_nat (n / 2)).
  { unfold Qfloor, Qmult, inject_Z. cbn [Qnum Qden].
    rewrite Z.mul_1_r. change (Z.pos (1 * 2)) with (Z.of_nat 2).
    by rewrite <- Nat2Z.inj_div. }
  rewrite Hf.
  destruct (Nat.even n) eqn:E.
  - apply Nat.even_spec in E. destruct E as [k ->].
    replace (2 * k / 2)%nat with k by (symmetry; rewrite Nat.mul_comm; apply Nat.div_mul; lia).
    rewrite Nat2Z.inj_mul. change (Z.of_nat 2) with 2%Z.
    rewrite inject_Z_mult. change (inject_Z 2) with 2%Q. lra.
  - assert (Ho : Nat.odd n = true) by (rewrite <- Nat.negb_even, E; done).
    apply Nat.odd_spec in Ho. destruct Ho as [k ->].
    replace ((2 * k + 1) / 2)%nat with k.
    2:{ symmetry. rewrite Nat.add_comm, Nat.mul_comm. rewrite Nat.div_add by lia. done. }
    rewrite Nat2Z.inj_add, Nat2Z.inj_mul. change (Z.of_nat 2) with 2%Z.
    change (Z.of_nat 1) with 1%Z.
    rewrite inject_Z_plus, inject_Z_mult. change (inject_Z 2) with 2%Q.
    change (inject_Z 1) with 1%Q. lra.
Qed.

(** [d3.median] of a sorted non-empty array is the textbook median. *)
Lemma d3_median_exact (sorted : list Q) :
  sorted ≠ [] →
  ∃ m, d3.median sorted = Some m ∧ (m == exact_median sorted)%Q.
Proof.
  intros Hne. unfold d3.median, d3.quantile, exact_median.
  set (n := length sorted).
  assert (Hn : (1 ≤ n)%nat) by (subst n; destruct sorted; simpl; [done | lia]).
  replace (n =? 0)%nat with false by (symmetry; apply Nat.eqb_neq; lia).
  change (Qle_bool (1 # 2) 0) with false. cbn [orb].
  destruct (n <? 2)%nat eqn:E2.
  - apply Nat.ltb_lt in E2. assert (n = 1)%nat as Hn1 by lia. rewrite Hn1. cbn.
    rewrite (lookup_nth_Q sorted 0) by (fold n; lia).
    eexists; split; [done |]. field.
  - apply Nat.ltb_ge in E2. change (Qle_bool 1 (1 # 2)) with false. cbv zeta.
    rewrite half_floor.
    rewrite (lookup_nth_Q sorted ((n - 1) / 2)).
    2:{ fold n. apply Nat.Div0.div_lt_upper_bound. lia. }
    rewrite (lookup_nth_Q sorted (S ((n - 1) / 2))).
    2:{ fold n. assert ((n - 1) / 2 < n - 1)%nat; [| lia].
        apply Nat.Div0.div_lt_upper_bound. lia. }
    cbn [mbind option_bind].
    eexists; split; [done |].
    rewrite half_frac.
    destruct (Nat.even (n - 1)) eqn:Ev.
    + apply Nat.even_spec in Ev. destruct Ev as [k Hk].
      assert (n = 2 * k + 1)%nat as -> by lia.
      replace ((2 * k + 1 - 1) / 2)%nat with k.
      2:{ replace (2 * k + 1 - 1)%nat with (k * 2)%nat by lia.
          symmetry. apply Nat.div_mul. lia. }
      replace ((2 * k + 1) / 2)%nat with k.
      2:{ symmetry. rewrite Nat.add_comm, Nat.mul_comm. rewrite Nat.div_add by lia. done. }
      field.
    + assert (Ho : Nat.odd (n - 1) = true) by (rewrite <- Nat.negb_even, Ev; done).
      apply Nat.odd_spec in Ho. destruct Ho as [k Hk].
      assert (n = 2 * k + 2)%nat as -> by lia.
      replace ((2 * k + 2 - 1) / 2)%nat with k.
      2:{ replace (2 * k + 2 - 1)%nat with (1 + k * 2)%nat by lia.
          rewrite Nat.div_add by lia. done. }
      replace ((2 * k + 2) / 2)%nat with (S k).
      2:{ replace (2 * k + 2)%nat with ((k + 1) * 2)%nat by lia.
          rewrite Nat.div_mul by lia. lia. }
      field.
Qed.

(** ** C5: salary statistics of a job title *)

Lemma js_or_zero (x : Q) : (js_or x 0 == x)%Q.
Proof.
  unfold js_or. destruct (Qeq_bool x 0) eqn:E; [| reflexivity].
  apply Qeq_bool_iff in E. by rewrite E.
Qed.

Lemma median_chain (sorted : list Q) (dm h : Q) :
  d3.median sorted = Some dm → sorted !! 0%nat = Some h →
  ((dm == 0)%Q → (h == 0)%Q) →
  (js_or_undef (SalaryJobTitleRidgeline.or_undef (d3.median sorted) (sorted !! 0%nat)) 0
   == dm)%Q.
Proof.
  intros -> -> Hz. unfold SalaryJobTitleRidgeline.or_undef.
  destruct (Qeq_bool dm 0) eqn:E; cbn [js_or_undef].
  - apply Qeq_bool_iff in E. rewrite js_or_zero, E. by apply Hz.
  - unfold js_or. by rewrite E.
Qed.

Lemma job_stat_fields (title : string) (range : Types.SalaryRange) :
  let sorted := sort_ascending (Types.values range) in
  let st := SalaryJobTitleRidgeline.job_stat title range in
  let n := length sorted in
  SalaryJobTitleRidgeline.median st
  = js_or_undef (SalaryJobTitleRidgeline.or_undef (d3.median sorted) (sorted !! 0%nat)) 0
  ∧ SalaryJobTitleRidgeline.min st
    = (if (n =? 1)%nat then (SalaryJobTitleRidgeline.median st * (9 # 10))%Q
       else js_or_undef (sorted !! 0%nat) 0)
  ∧ SalaryJobTitleRidgeline.max st
    = (if (n =? 1)%nat then (SalaryJobTitleRidgeline.median st * (11 # 10))%Q
       else js_or_undef (sorted !! (n - 1)%nat) 0)
  ∧ SalaryJobTitleRidgeline.q1 st
    = (if (2 <? n)%nat
       then js_or_undef (d3.quantile sorted (1 # 4)) (SalaryJobTitleRidgeline.min st)
       else (SalaryJobTitleRidgeline.min st
             + (SalaryJobTitleRidgeline.median st - SalaryJobTitleRidgeline.min st) / 2)%Q)
  ∧ SalaryJobTitleRidgeline.q3 st
    = (if (2 <? n)%nat
       then js_or_undef (d3.quantile sorted (3 # 4)) (SalaryJobTitleRidgeline.max st)
       else (SalaryJobTitleRidgeline.median st
             + (SalaryJobTitleRidgeline.max st - SalaryJobTitleRidgeline.median st) / 2)%Q).
Proof.
  intros sorted st n. subst st. unfold SalaryJobTitleRidgeline.job_stat.
  fold sorted. fold n. destruct (n =? 1)%nat; repeat split.
Qed.

Lemma median_zero_least_zero (sorted : list Q) (h : Q) :
  StronglySorted Qle sorted → sorted !! 0%nat = Some h →
  (∀ x, x ∈ sorted → (0 <= x)%Q) →
  (exact_median sorted == 0)%Q → (h == 0)%Q.
Proof.
  intros Hss Hh Hpos. unfold exact_median. set (n := length sorted).
  assert (Hn : (1 ≤ n)%nat).
  { subst n. destruct sorted; [done | simpl; lia]. }
  assert (Ha : sorted !! ((n - 1) / 2)%nat = Some (nth ((n - 1) / 2) sorted 0%Q)).
  { apply lookup_nth_Q. fold n. apply Nat.Div0.div_lt_upper_bound. lia. }
  assert (Hb : sorted !! (n / 2)%nat = Some (nth (n / 2) sorted 0%Q)).
  { apply lookup_nth_Q. fold n. apply Nat.Div0.div_lt_upper_bound. lia. }
  pose proof (Hpos _ (list_elem_of_lookup_2 _ _ _ Ha)).
  pose proof (Hpos _ (list_elem_of_lookup_2 _ _ _ Hb)).
  pose proof (Hpos _ (list_elem_of_lookup_2 _ _ _ Hh)).
  pose proof (StronglySorted_lookup_le sorted 0 ((n - 1) / 2) _ _ Hss ltac:(lia) Hh Ha).
  intros Hm.
  assert (Hsum : (nth ((n - 1) / 2) sorted 0 + nth (n / 2) sorted 0 == 0)%Q).
  { transitivity (((nth ((n - 1) / 2) sorted 0 + nth (n / 2) sorted 0) / 2) * 2)%Q;
      [field | rewrite Hm; ring]. }
  lra.
Qed.

(** C5 (code bug): the median is computed as
    [d3.median(sortedValues) || sortedValues[0] || 0].  When the median of the
    values is 0, the first operand is falsy and the statistics report the
    least value in its place: for a category with a negative value the
    reported median is then not the median. *)
Theorem zero_median_reports_least_value (title : string) (range : Types.SalaryRange) :
  let vs := Types.values range in
  let sorted := sort_ascending vs in
  let st := SalaryJobTitleRidgeline.job_stat title range in
  vs ≠ [] →
  (exact_median sorted == 0)%Q →
  is_least (SalaryJobTitleRidgeline.median st) vs
  ∧ ((∃ x, x ∈ vs ∧ (x < 0)%Q) →
     ¬ (SalaryJobTitleRidgeline.median st == exact_median sorted)%Q).
Proof.
  intros vs sorted st Hne Hzero.
  assert (Hperm : sorted ≡ₚ vs) by apply insertion_sort_perm.
  assert (Hss : StronglySorted Qle sorted) by apply sort_ascending_sorted.
  assert (Hsne : sorted ≠ []).
  { intros E. rewrite E in Hperm. by apply Permutation_nil in Hperm. }
  destruct (d3_median_exact sorted Hsne) as (dm & Hdm & Hdme).
  assert (Hn : (1 ≤ length sorted)%nat) by (destruct sorted; [done | simpl; lia]).
  pose proof (lookup_nth_Q sorted 0 ltac:(lia)) as Hh.
  set (h := nth 0 sorted 0%Q) in *.
  destruct (job_stat_fields title range) as (Emed & _).
  fold vs sorted st in Emed.
  assert (Hmed : (SalaryJobTitleRidgeline.median st == h)%Q).
  { rewrite Emed, Hdm, Hh. unfold SalaryJobTitleRidgeline.or_undef.
    assert (E : Qeq_bool dm 0 = true) by (apply Qeq_bool_iff; by rewrite Hdme).
    rewrite E. cbn [js_or_undef]. apply js_or_zero. }
  assert (Hleast : ∀ x, x ∈ vs → (h <= x)%Q).
  { intros x Hx. rewrite <- Hperm in Hx.
    apply list_elem_of_lookup_1 in Hx as [j Hj].
    eapply (StronglySorted_lookup_le sorted 0 j); [done | lia | done | done]. }
  split.
  - split.
    + exists h. split; [| done]. rewrite <- Hperm. by eapply list_elem_of_lookup_2.
    + intros x Hx. rewrite Hmed. by apply Hleast.
  - intros (x & Hx & Hneg) Heq. rewrite Hmed, Hzero in Heq.
    specialize (Hleast x Hx). lra.
Qed.

(** The failing input: for the values [-5, 0, 5] the median is 0 and the
    statistics report -5. *)
Lemma zero_median_reports_least_value_witness :
  let range := Types.mkSalaryRange [(-5)%Q; 0%Q; 5%Q] in
  let st := SalaryJobTitleRidgeline.job_stat "Analyst" range in
  (SalaryJobTitleRidgeline.median st == -5)%Q
  ∧ is_least (SalaryJobTitleRidgeline.median st) (Types.values range)
  ∧ ¬ (SalaryJobTitleRidgeline.median st
       == exact_median (sort_ascending (Types.values range)))%Q.
Proof.
  intros range st. split; [reflexivity |].
  destruct (zero_median_reports_least_value "Analyst" range) as [Hleast Hdiff].
  - discriminate.
  - reflexivity.
  - split; [exact Hleast |]. apply Hdiff. exists (-5)%Q.
    split; [apply list_elem_of_here | reflexivity].
Defined.

(** The example of the specification, [10, 20, 30]. *)
Example stats_10_20_30 :
  let st := SalaryJobTitleRidgeline.job_stat "Data Scientist"
              (Types.mkSalaryRange [10; 20; 30]%Q) in
  (SalaryJobTitleRidgeline.median st == 20)%Q
  ∧ (SalaryJobTitleRidgeline.min st == 10)%Q
  ∧ (SalaryJobTitleRidgeline.max st == 30)%Q.
Proof. repeat split. Qed.

(** ** C7: the density curve *)

Lemma job_stat_values (title : string) (range : Types.SalaryRange) :
  SalaryJobTitleRidgeline.values (SalaryJobTitleRidgeline.job_stat title range)
  = Types.values range.
Proof.
  unfold SalaryJobTitleRidgeline.job_stat.
  destruct (length (sort_ascending (Types.values range)) =? 1)%nat; reflexivity.
Qed.

Lemma Qsum_map_ext (f g : Q → Q) (l : list Q) :
  (∀ x, (f x == g x)%Q) → (Qsum (map f l) == Qsum (map g l))%Q.
Proof.
  intros Hfg. induction l as [| a l IH]; simpl; [reflexivity |].
  by rewrite Hfg, IH.
Qed.

Lemma Qsum_map_div (f : Q → Q) (c : Q) (l : list Q) :
  ¬ (c == 0)%Q → (Qsum (map (λ x, f x / c) l) == Qsum (map f l) / c)%Q.
Proof.
  intros Hc. induction l as [| a l IH]; simpl.
  - field. done.
  - rewrite IH. field. done.
Qed.

Lemma epanechnikov_scaled (bandwidth x : Q) :
  ¬ (bandwidth == 0)%Q →
  (SalaryJobTitleRidgeline.epanechnikov bandwidth x
   == epanechnikov_kernel (x / bandwidth) / bandwidth)%Q.
Proof.
  intros Hb. unfold SalaryJobTitleRidgeline.epanechnikov, epanechnikov_kernel.
  destruct (Qeq_bool bandwidth 0) eqn:E.
  { apply Qeq_bool_iff in E. contradiction. }
  destruct (Qle_bool (Qabs (x / bandwidth)) 1).
  - field. done.
  - field. done.
Qed.

Lemma kde_point (bandwidth : Q) (xs : list Q) (t : Q) :
  xs ≠ [] → ¬ (bandwidth == 0)%Q →
  (js_or_undef (d3.mean (map (λ d, SalaryJobTitleRidgeline.epanechnikov bandwidth (t - d)) xs)) 0
   == kde_estimate bandwidth xs t)%Q.
Proof.
  intros Hne Hb. unfold d3.mean, kde_estimate.
  destruct xs as [| a xs]; [done |].
  cbn [map js_or_undef]. rewrite js_or_zero.
  change (epanechnikov_kernel ((t - a) / bandwidth)
          :: map (λ x, epanechnikov_kernel ((t - x) / bandwidth)) xs)
    with (map (λ x, epanechnikov_kernel ((t - x) / bandwidth)) (a :: xs)).
  change (SalaryJobTitleRidgeline.epanechnikov bandwidth (t - a)
          :: map (λ d, SalaryJobTitleRidgeline.epanechnikov bandwidth (t - d)) xs)
    with (map (λ d, SalaryJobTitleRidgeline.epanechnikov bandwidth (t - d)) (a :: xs)).
  rewrite length_map.
  rewrite (Qsum_map_ext _ (λ d, epanechnikov_kernel ((t - d) / bandwidth) / bandwidth)%Q)
    by (intros x; by apply epanechnikov_scaled).
  rewrite Qsum_map_div by done.
  assert (Hn : ¬ (inject_Z (Z.of_nat (length (a :: xs))) == 0)%Q).
  { cbn [length]. rewrite Nat2Z.inj_succ. unfold Qeq, inject_Z. cbn [Qnum Qden]. lia. }
  field. split; done.
Qed.

Lemma range_count `{Numbers} (lo hi : Q) :
  (lo < hi)%Q →
  d3.range lo hi ((hi - lo) / 100)
  = map (λ i, (lo + inject_Z (Z.of_nat i) * ((hi - lo) / 100))%Q)
      (seq 0 (Z.to_nat (Z.max 0 (Qceiling (divide (hi - lo) ((hi - lo) / 100)))))).
Proof.
  intros Hlt. unfold d3.range.
  assert (Hs : ¬ ((hi - lo) / 100 == 0)%Q).
  { intros E. assert (hi - lo == (hi - lo) / 100 * 100)%Q as E2 by field.
    rewrite E in E2. lra. }
  destruct (Qeq_bool ((hi - lo) / 100) 0) eqn:E; [| reflexivity].
  apply Qeq_bool_iff in E. contradiction.
Qed.

Lemma range_degenerate `{Numbers} (lo hi : Q) :
  (lo == hi)%Q → d3.range lo hi ((hi - lo) / 100) = [].
Proof.
  intros Heq. unfold d3.range.
  assert (Hs : ((hi - lo) / 100 == 0)%Q) by (rewrite Heq; field).
  apply Qeq_bool_iff in Hs. rewrite Hs. reflexivity.
Qed.

Lemma ceiling_near_hundred (q : Q) :
  (99 < q)%Q → (q <= 101)%Q →
  (Qceiling q = 100%Z ∨ Qceiling q = 101%Z) ∧ (Qceiling q = 100%Z ↔ (q <= 100)%Q).
Proof.
  intros Hlo Hhi.
  pose proof (Qle_ceiling q) as Hc1. pose proof (Qceiling_lt q) as Hc2.
  assert (H99 : (99 < Qceiling q)%Z).
  { rewrite Zlt_Qlt. change (inject_Z 99) with 99%Q. lra. }
  assert (H102 : (Qceiling q - 1 < 101)%Z).
  { rewrite Zlt_Qlt. change (inject_Z 101) with 101%Q. lra. }
  split; [lia |]. split.
  - intros E. rewrite E in Hc1. exact Hc1.
  - intros Hle. assert (Qceiling q - 1 < 100)%Z; [| lia].
    rewrite Zlt_Qlt. change (inject_Z 100) with 100%Q. lra.
Qed.

(** C7 (amended): in density mode a category with at most one observation
    gets no curve.  A category with at least two observations and [min < max]
    gets the kernel density estimate with the Epanechnikov kernel and bandwidth
    [(max - min) / 5], evaluated at the thresholds
    [min + i (max - min) / 100], [i = 0 .. n - 1], where [n] is the ceiling of
    the quotient [(max - min) / step] as the machine computes it: 100
    thresholds when the quotient comes out at 100 or just below, 101 when
    rounding puts it just above 100.  When all observations are equal the
    bandwidth and the step are 0 and there is no threshold: the curve is
    empty. *)
Theorem density_curve {numbers : Numbers} (title : string) (range : Types.SalaryRange) :
  let vs := Types.values range in
  let st := SalaryJobTitleRidgeline.job_stat title range in
  let lo := SalaryJobTitleRidgeline.min st in
  let hi := SalaryJobTitleRidgeline.max st in
  let step := ((hi - lo) / 100)%Q in
  let quotient := divide (hi - lo) step in
  ((length vs ≤ 1)%nat → SalaryJobTitleRidgeline.density st = None)
  ∧ ((2 ≤ length vs)%nat → (lo < hi)%Q → (99 < quotient)%Q → (quotient <= 101)%Q →
     ∃ n curve,
       (n = 100%nat ∨ n = 101%nat)
       ∧ (n = 100%nat ↔ (quotient <= 100)%Q)
       ∧ SalaryJobTitleRidgeline.density st = Some curve
       ∧ length curve = n
       ∧ ∀ i, (i < n)%nat →
           ∃ t d, curve !! i = Some (t, d)
             ∧ t = (lo + inject_Z (Z.of_nat i) * step)%Q
             ∧ (d == kde_estimate ((hi - lo) / 5) vs t)%Q)
  ∧ ((2 ≤ length vs)%nat → (lo == hi)%Q →
     SalaryJobTitleRidgeline.density st = Some []).
Proof.
  intros vs st lo hi step quotient. unfold SalaryJobTitleRidgeline.density.
  fold lo hi. subst st. rewrite job_stat_values. fold vs.
  split; [| split].
  - intros Hle. apply Nat.leb_le in Hle. by rewrite Hle.
  - intros H2 Hlt Hq1 Hq2. replace (length vs <=? 1)%nat with false
      by (symmetry; apply Nat.leb_gt; lia).
    destruct (ceiling_near_hundred quotient Hq1 Hq2) as [Hc Hiff].
    exists (Z.to_nat (Z.max 0 (Qceiling quotient))). eexists.
    split; [lia |]. split; [rewrite <- Hiff; lia |].
    split; [reflexivity |].
    rewrite range_count by done. fold step quotient.
    unfold SalaryJobTitleRidgeline.kde.
    split; [by rewrite !length_map, length_seq |].
    intros i Hi. rewrite !list_lookup_fmap, lookup_seq_lt by done. cbn.
    eexists _, _. split; [reflexivity |]. split; [reflexivity |].
    apply kde_point.
    + intros E. rewrite E in H2. simpl in H2. lia.
    + intros E. assert (hi - lo == (hi - lo) / 5 * 5)%Q as E2 by field.
      rewrite E in E2. lra.
  - intros H2 Heq. replace (length vs <=? 1)%nat with false
      by (symmetry; apply Nat.leb_gt; lia).
    by rewrite range_degenerate.
Qed.

(** With exact arithmetic the observations 50000 and 70000 give 100
    thresholds. *)
Lemma density_curve_witness :
  let st := SalaryJobTitleRidgeline.job_stat "Engineer"
              (Types.mkSalaryRange [50000; 70000]%Q) in
  ∃ n curve,
    (n = 100%nat ∨ n = 101%nat)
    ∧ (n = 100%nat ↔ (divide (70000 - 50000) ((70000 - 50000) / 100) <= 100)%Q)
    ∧ SalaryJobTitleRidgeline.density st = Some curve
    ∧ length curve = n
    ∧ ∀ i, (i < n)%nat →
        ∃ t d, curve !! i = Some (t, d)
          ∧ t = (50000 + inject_Z (Z.of_nat i) * ((70000 - 50000) / 100))%Q
          ∧ (d == kde_estimate ((70000 - 50000) / 5) [50000; 70000] t)%Q.
Proof.
  intros st.
  apply (proj1 (proj2 (density_curve (numbers := exact_numbers) "Engineer"
                         (Types.mkSalaryRange [50000; 70000]%Q)))).
  - cbn. lia.
  - reflexivity.
  - reflexivity.
  - vm_compute. discriminate.
Defined.

(** C7, as stated, fails: for the two observations 50000 and 50000 the
    density has no threshold at all instead of 100. *)
Lemma identical_salaries_have_no_thresholds :
  let st := SalaryJobTitleRidgeline.job_stat "Data Scientist"
              (Types.mkSalaryRange [50000; 50000]%Q) in
  SalaryJobTitleRidgeline.density st = Some []
  ∧ ¬ (∃ curve, SalaryJobTitleRidgeline.density st = Some curve ∧ length curve = 100%nat).
Proof.
  assert (H : SalaryJobTitleRidgeline.density
                (SalaryJobTitleRidgeline.job_stat "Data Scientist"
                   (Types.mkSalaryRange [50000; 50000]%Q)) = Some [])
    by (vm_compute; reflexivity).
  split; [exact H |].
  intros (curve & Hc & Hl). rewrite H in Hc. injection Hc as <-. discriminate Hl.
Qed.

(** ** C6: bucket averaging *)

(** [Math.round] returns an integer within one half of its argument. *)
Lemma Math_round_nearest (x : Q) :
  (x - (1 # 2) < inject_Z (Math_round x))%Q ∧ (inject_Z (Math_round x) <= x + (1 # 2))%Q.
Proof.
  unfold Math_round.
  pose proof (Qfloor_le (x + (1 # 2))). pose proof (Qlt_floor (x + (1 # 2))) as Hlt.
  rewrite inject_Z_plus in Hlt. change (inject_Z 1) with 1%Q in Hlt.
  split; lra.
Qed.

Section Buckets.
Context `{Host}.
Import JobPostingsTimeLine.

Lemma group_points_normal data key level series dates groups :
  Types.data data !! level = Some series →
  forEachC (group_point data key level) dates groups
  = Normal (fold_left (λ g d, add_to_group (key d) (count_at series d) g) dates groups).
Proof.
  intros Hs. revert groups. induction dates as [| d dates IH]; intros groups; [done |].
  cbn [forEachC fold_left]. unfold group_point at 1. rewrite Hs. cbn [cbind].
  apply IH.
Qed.

Lemma add_to_group_lookup key v (groups : gmap string (Z * Z)) k :
  add_to_group key v groups !! k =
  if decide (key = k)
  then Some ((default (0, 0)%Z (groups !! k)).1 + v, (default (0, 0)%Z (groups !! k)).2 + 1)%Z
  else groups !! k.
Proof.
  unfold add_to_group. destruct (default (0, 0)%Z (groups !! key)) as [sum count] eqn:E.
  destruct (decide (key = k)) as [-> | Hne].
  - rewrite lookup_insert_eq, E. done.
  - by rewrite lookup_insert_ne.
Qed.

Lemma group_fold_lookup key series dates (groups : gmap string (Z * Z)) k :
  fold_left (λ g d, add_to_group (key d) (count_at series d) g) dates groups !! k =
  match bucket_points key k dates with
  | [] => groups !! k
  | pts =>
      Some ((default (0, 0)%Z (groups !! k)).1 + Zsum (map (count_at series) pts),
            (default (0, 0)%Z (groups !! k)).2 + Z.of_nat (length pts))%Z
  end.
Proof.
  revert groups. induction dates as [| d dates IH]; intros groups; [done |].
  cbn [fold_left]. rewrite IH. unfold bucket_points. rewrite filter_cons.
  rewrite add_to_group_lookup.
  destruct (decide (key d = k)) as [Hk | Hk].
  - destruct (filter (λ d0, key d0 = k) dates) as [| p pts] eqn:E.
    + cbn. rewrite Z.add_0_r. reflexivity.
    + cbn [default from_option id fst snd map Zsum foldr length].
      apply f_equal, (f_equal2 pair); lia.
  - done.
Qed.

Lemma store_buckets_skip label entries (out out' : gmap string Z) lbl :
  forEachC (store_bucket label) entries out = Normal out' →
  (∀ e, e ∈ entries → label e.1 ≠ Normal lbl) →
  out' !! lbl = out !! lbl.
Proof.
  revert out. induction entries as [| e entries IH]; intros out Hrun Hno.
  - cbn in Hrun. by injection Hrun as <-.
  - cbn [forEachC] in Hrun. unfold store_bucket at 1 in Hrun.
    destruct (label e.1) as [l |] eqn:El; [| done]. cbn [cbind] in Hrun.
    rewrite (IH _ Hrun).
    + apply lookup_insert_ne. intros ->. apply (Hno e); [apply list_elem_of_here | done].
    + intros e' He'. apply Hno. by apply list_elem_of_further.
Qed.

Lemma store_buckets_normal label entries (out : gmap string Z) :
  (∀ e, e ∈ entries → ∃ lbl, label e.1 = Normal lbl) →
  ∃ out', forEachC (store_bucket label) entries out = Normal out'.
Proof.
  revert out. induction entries as [| e entries IH]; intros out Hl; [by eexists |].
  cbn [forEachC]. unfold store_bucket at 1.
  destruct (Hl e (list_elem_of_here _ _)) as [lbl ->]. cbn [cbind].
  apply IH. intros e' He'. apply Hl. by apply list_elem_of_further.
Qed.

Lemma store_buckets_lookup label entries (out out' : gmap string Z) k stats lbl :
  forEachC (store_bucket label) entries out = Normal out' →
  NoDup entries.*1 →
  (k, stats) ∈ entries →
  label k = Normal lbl →
  (∀ e, e ∈ entries → label e.1 = Normal lbl → e.1 = k) →
  out' !! lbl = Some (bucket_value stats).
Proof.
  revert out. induction entries as [| e entries IH]; intros out Hrun Hnd Hin Hl Hinj.
  - by apply elem_of_nil in Hin.
  - cbn [forEachC] in Hrun. unfold store_bucket at 1 in Hrun.
    destruct (label e.1) as [l |] eqn:El; [| done]. cbn [cbind] in Hrun.
    cbn [fmap list_fmap] in Hnd. apply NoDup_cons in Hnd as [Hnotin Hnd].
    apply elem_of_cons in Hin as [<- | Hin].
    + cbn [fst snd] in *. rewrite Hl in El. injection El as <-.
      rewrite (store_buckets_skip _ _ _ _ lbl Hrun).
      * apply lookup_insert_eq.
      * intros e' He' Hlbl. apply Hnotin.
        rewrite <- (Hinj e' (list_elem_of_further _ _ _ He') Hlbl).
        apply list_elem_of_fmap. by exists e'.
    + apply (IH _ Hrun Hnd Hin Hl).
      intros e' He'. apply Hinj. by apply list_elem_of_further.
Qed.

Lemma aggregate_levels data key label levels (acc : gmap string (gmap string Z)) :
  (∀ l, l ∈ levels → ∃ b, aggregate_level data key label l = Normal b) →
  ∃ acc', forEachC (aggregate_step data key label) levels acc = Normal acc'
    ∧ ∀ l, l ∈ levels → ∃ b, aggregate_level data key label l = Normal b ∧ acc' !! l = Some b.
Proof.
  revert acc. induction levels as [| l levels IH]; intros acc Hall.
  - eexists; split; [done |]. intros l Hl. by apply elem_of_nil in Hl.
  - cbn [forEachC]. unfold aggregate_step at 1.
    destruct (Hall l (list_elem_of_here _ _)) as [b Hb]. rewrite Hb. cbn [cbind].
    destruct (IH (<[l := b]> acc)) as (acc' & Hrun & Hacc).
    { intros l' Hl'. apply Hall. by apply list_elem_of_further. }
    exists acc'. split; [done |].
    intros l' Hl'. destruct (decide (l' ∈ levels)) as [Hin | Hnin]; [by apply Hacc |].
    apply elem_of_cons in Hl' as [-> | Hl']; [| done].
    exists b. split; [done |].
    clear Hacc IH Hall. revert acc Hrun. 
    induction levels as [| l2 levels IH2]; intros acc Hrun.
    + cbn in Hrun. injection Hrun as <-. apply lookup_insert_eq.
    + cbn [forEachC] in Hrun. unfold aggregate_step at 1 in Hrun.
      destruct (aggregate_level data key label l2) as [b2 |]; [| done].
      cbn [cbind] in Hrun.
      rewrite not_elem_of_cons in Hnin. destruct Hnin as [Hne Hnin].
      rewrite insert_insert_ne in Hrun by done.
      by apply (IH2 Hnin (<[l2 := b2]> acc)).
Qed.

Lemma group_key_has_point key series dates k stats :
  fold_left (λ g d, add_to_group (key d) (count_at series d) g) dates ∅ !! k = Some stats →
  ∃ d, d ∈ dates ∧ key d = k.
Proof.
  rewrite group_fold_lookup.
  destruct (bucket_points key k dates) as [| p pts] eqn:E; [by rewrite lookup_empty |].
  intros _. exists p.
  assert (Hp : p ∈ bucket_points key k dates) by (rewrite E; apply list_elem_of_here).
  unfold bucket_points in Hp. apply list_elem_of_filter in Hp as [Hk Hp]. done.
Qed.

Lemma aggregate_level_correct data key label level series :
  Types.data data !! level = Some series →
  (∀ date, date ∈ Types.timePoints data → ∃ lbl, label (key date) = Normal lbl) →
  (∀ d1 d2, d1 ∈ Types.timePoints data → d2 ∈ Types.timePoints data →
            label (key d1) = label (key d2) → key d1 = key d2) →
  ∃ b, aggregate_level data key label level = Normal b
    ∧ ∀ date lbl, date ∈ Types.timePoints data → label (key date) = Normal lbl →
        b !! lbl
        = Some (rounded_average series
                  (bucket_points key (key date) (Types.timePoints data))).
Proof.
  intros Hs Hlab Hinj. unfold aggregate_level.
  rewrite (group_points_normal _ _ _ series) by done. cbn [cbind].
  set (groups := fold_left _ _ _).
  destruct (store_buckets_normal label (map_to_list groups) ∅) as [b Hb].
  { intros [k stats] He. apply elem_of_map_to_list in He.
    destruct (group_key_has_point _ _ _ _ _ He) as (d & Hd & <-). by apply Hlab. }
  exists b. split; [done |].
  intros date lbl Hdate Hlbl.
  assert (Hg : groups !! key date
               = Some (Zsum (map (count_at series)
                               (bucket_points key (key date) (Types.timePoints data))),
                       Z.of_nat (length (bucket_points key (key date)
                                           (Types.timePoints data))))).
  { subst groups. rewrite group_fold_lookup.
    destruct (bucket_points key (key date) (Types.timePoints data)) as [| p pts] eqn:E.
    - exfalso. assert (Hin : date ∈ bucket_points key (key date) (Types.timePoints data)).
      { unfold bucket_points. apply list_elem_of_filter. done. }
      rewrite E in Hin. by apply elem_of_nil in Hin.
    - rewrite lookup_empty. cbn [default from_option fst snd].
      by rewrite !Z.add_0_l. }
  rewrite (store_buckets_lookup label (map_to_list groups) ∅ b (key date)
             (Zsum (map (count_at series)
                      (bucket_points key (key date) (Types.timePoints data))),
              Z.of_nat (length (bucket_points key (key date) (Types.timePoints data))))
             lbl Hb).
  - reflexivity.
  - apply NoDup_fst_map_to_list.
  - by apply elem_of_map_to_list.
  - done.
  - intros [k stats] He Hk. cbn [fst] in *. apply elem_of_map_to_list in He.
    destruct (group_key_has_point _ _ _ _ _ He) as (d & Hd & <-).
    apply Hinj; [done | done |]. by rewrite Hk, Hlbl.
Qed.

Lemma aggregate_correct data key label :
  (∀ level, level ∈ Types.experienceLevels data → is_Some (Types.data data !! level)) →
  (∀ date, date ∈ Types.timePoints data → ∃ lbl, label (key date) = Normal lbl) →
  (∀ d1 d2, d1 ∈ Types.timePoints data → d2 ∈ Types.timePoints data →
            label (key d1) = label (key d2) → key d1 = key d2) →
  ∃ aggregated,
    forEachC (aggregate_step data key label) (Types.experienceLevels data) ∅
    = Normal aggregated
    ∧ ∀ level series date lbl,
        level ∈ Types.experienceLevels data →
        Types.data data !! level = Some series →
        date ∈ Types.timePoints data →
        label (key date) = Normal lbl →
        aggregated !! level ≫= (λ buckets, buckets !! lbl)
        = Some (rounded_average series
                  (bucket_points key (key date) (Types.timePoints data))).
Proof.
  intros Hlev Hlab Hinj.
  destruct (aggregate_levels data key label (Types.experienceLevels data) ∅)
    as (aggregated & Hrun & Hagg).
  { intros l Hl. destruct (Hlev l Hl) as [series Hs].
    destruct (aggregate_level_correct data key label l series Hs Hlab Hinj) as (b & Hb & _).
    by exists b. }
  exists aggregated. split; [done |].
  intros level series date lbl Hl Hs Hd Hlbl.
  destruct (Hagg level Hl) as (b & Hb & ->). cbn [mbind option_bind].
  destruct (aggregate_level_correct data key label level series Hs Hlab Hinj)
    as (b' & Hb' & Hval).
  rewrite Hb in Hb'. injection Hb' as <-. by apply Hval.
Qed.

(** C6: in the Weekly and the Quarterly aggregation, when every level has
    a series and the groups get distinct labels, [getAggregatedData] returns,
    and for every level and every bucket the value stored under the bucket's
    label is the sum of the counts of the time points that fall in the bucket
    divided by the number of these time points, rounded to the nearest
    integer (a missing count is 0). *)
Theorem bucket_is_rounded_average (timeInterval : TimeInterval)
    (data : Types.TimeLineData) :
  timeInterval ≠ Monthly →
  (∀ level, level ∈ Types.experienceLevels data → is_Some (Types.data data !! level)) →
  (∀ date, date ∈ Types.timePoints data →
     ∃ lbl, bucketLabel timeInterval (bucketKey timeInterval date) = Normal lbl) →
  (∀ d1 d2, d1 ∈ Types.timePoints data → d2 ∈ Types.timePoints data →
     bucketLabel timeInterval (bucketKey timeInterval d1)
     = bucketLabel timeInterval (bucketKey timeInterval d2) →
     bucketKey timeInterval d1 = bucketKey timeInterval d2) →
  ∃ aggregated,
    getAggregatedData timeInterval (Some data) = Normal (Some aggregated)
    ∧ ∀ level series date lbl,
        level ∈ Types.experienceLevels data →
        Types.data data !! level = Some series →
        date ∈ Types.timePoints data →
        bucketLabel timeInterval (bucketKey timeInterval date) = Normal lbl →
        Types.data aggregated !! level ≫= (λ buckets, buckets !! lbl)
        = Some (rounded_average series
                  (bucket_points (bucketKey timeInterval)
                     (bucketKey timeInterval date) (Types.timePoints data))).
Proof.
  intros Hint Hlev Hlab Hinj.
  destruct timeInterval; [done | |]; cbn [bucketKey bucketLabel] in *;
    unfold getAggregatedData.
  - destruct (aggregate_correct data getWeekOfYear weekLabel Hlev Hlab Hinj)
      as (aggregated & -> & Hval).
    cbn [cbind]. eexists; split; [reflexivity |]. exact Hval.
  - destruct (aggregate_correct data getQuarter Normal Hlev Hlab Hinj)
      as (aggregated & -> & Hval).
    cbn [cbind]. eexists; split; [reflexivity |]. exact Hval.
Qed.
End Buckets.

(** The example of the specification: daily counts 4 and 6 in one week give
    the bucket value 5. *)
Example weekly_4_6 :
  JobPostingsTimeLine.getAggregatedData (H := UTC.host) JobPostingsTimeLine.Weekly
    (Some two_days)
  = Normal (Some (Types.mkTimeLineData ["Jan 01"] ["Senior-level"]
                    {[ "Senior-level" := {[ "Jan 01" := 5%Z ]} ]})).
Proof. vm_compute. reflexivity. Qed.

Ltac in_list H :=
  repeat (apply elem_of_cons in H as [-> | H]); try (by apply elem_of_nil in H).

Lemma bucket_is_rounded_average_witness :
  JobPostingsTimeLine.Weekly ≠ JobPostingsTimeLine.Monthly
  ∧ ∃ aggregated,
      JobPostingsTimeLine.getAggregatedData (H := UTC.host) JobPostingsTimeLine.Weekly
        (Some two_days) = Normal (Some aggregated)
      ∧ Types.data aggregated !! "Senior-level" ≫= (λ buckets, buckets !! "Jan 01")
        = Some 5%Z.
Proof.
  split; [discriminate |].
  destruct (bucket_is_rounded_average (H := UTC.host) JobPostingsTimeLine.Weekly two_days)
    as (aggregated & Hrun & Hval).
  - discriminate.
  - intros level Hl. in_list Hl. eexists. vm_compute. reflexivity.
  - intros date Hd. in_list Hd; eexists; vm_compute; reflexivity.
  - intros d1 d2 Hd1 Hd2 _. in_list Hd1; in_list Hd2; vm_compute; reflexivity.
  - exists aggregated. split; [exact Hrun |].
    rewrite (Hval "Senior-level" {[ "2024-01-02" := 4%Z; "2024-01-03" := 6%Z ]}
               "2024-01-02" "Jan 01").
    + vm_compute. reflexivity.
    + apply list_elem_of_here.
    + vm_compute. reflexivity.
    + apply list_elem_of_here.
    + vm_compute. reflexivity.
Defined.

(** * Further properties of the code *)

(** ** The selection stays duplicate-free *)

Lemma NoDup_toggle (v : string) (l : list string) : NoDup l → NoDup (toggle v l).
Proof.
  intros Hnd. unfold toggle. destruct (includes v l) eqn:E.
  - by apply NoDup_filter.
  - apply includes_false in E. apply NoDup_app. split; [done |].
    split; [| apply NoDup_singleton].
    intros x Hx Hv. apply list_elem_of_singleton in Hv as ->. contradiction.
Qed.

Lemma NoDup_select_only (v : string) (l : list string) : NoDup (select_only v l).
Proof.
  unfold select_only. destruct (negb (includes v l)); [apply NoDup_singleton | constructor].
Qed.

(** X1: a click never puts a value twice into the field it assigns: if the
    clicked field of the snapshot the handler read has no duplicates, neither
    has the field it writes. *)
Theorem click_keeps_field_duplicate_free (t : ClickTarget) (loc : Local) (cat : string)
    (ctx s : Store) :
  NoDup (get (clicked_field t) (filters ctx)) →
  NoDup (get (clicked_field t) (filters (click t loc cat ctx s))).
Proof.
  intros Hnd. rewrite click_field.
  destruct (chart_of t); try (by apply NoDup_toggle); apply NoDup_select_only.
Qed.

Lemma click_keeps_field_duplicate_free_witness :
  let ctx := mkStore (mkFilterOptions ["Senior-level"; "Entry-level"] [] [] []) no_item in
  NoDup (get (clicked_field TimelineLegend) (filters ctx))
  ∧ NoDup (get (clicked_field TimelineLegend)
             (filters (click TimelineLegend (mkLocal false []) "Executive" ctx ctx))).
Proof.
  intros ctx.
  assert (Hnd : NoDup (get (clicked_field TimelineLegend) (filters ctx))).
  { apply (bool_decide_unpack _). vm_compute. exact I. }
  split; [exact Hnd |].
  exact (click_keeps_field_duplicate_free TimelineLegend (mkLocal false []) "Executive"
           ctx ctx Hnd).
Defined.

(** ** The visible lines of the timeline *)

(** X2: the update of [visibleExperienceLevels] that the timeline's click
    handlers share never hides the last visible line.  On a list without
    duplicates it keeps the list duplicate-free, leaves the other levels as
    they are, and the clicked level is visible afterwards exactly when it was
    hidden or was the only visible one. *)
Theorem update_visible_keeps_a_line (visible : list string) (level : string) :
  NoDup visible →
  NoDup (JobPostingsTimeLine.update_visible visible level)
  ∧ (visible ≠ [] → JobPostingsTimeLine.update_visible visible level ≠ [])
  ∧ (∀ x, x ≠ level → x ∈ JobPostingsTimeLine.update_visible visible level ↔ x ∈ visible)
  ∧ (level ∈ JobPostingsTimeLine.update_visible visible level
     ↔ level ∉ visible ∨ visible = [level]).
Proof.
  intros Hnd. unfold JobPostingsTimeLine.update_visible.
  destruct (includes level visible) eqn:E; cbn [andb negb].
  - apply includes_spec in E.
    destruct (bool_decide (1 < length visible)) eqn:L.
    + apply bool_decide_eq_true in L.
      assert (Hother : ∃ x, x ∈ visible ∧ x ≠ level).
      { destruct visible as [| a [| b rest]]; simpl in L; try lia.
        apply NoDup_cons in Hnd as [Hab _].
        destruct (decide (a = level)) as [-> | Ha].
        - exists b. split; [apply list_elem_of_further, list_elem_of_here |].
          intros ->. apply Hab, list_elem_of_here.
        - exists a. split; [apply list_elem_of_here | done]. }
      split; [by apply NoDup_filter |]. split; [| split].
      * intros _ Hnil. destruct Hother as (x & Hx & Hne).
        assert (Hin : x ∈ filter (λ l, l ≠ level) visible)
          by (apply list_elem_of_filter; done).
        rewrite Hnil in Hin. by apply elem_of_nil in Hin.
      * intros x Hx. rewrite list_elem_of_filter. tauto.
      * rewrite list_elem_of_filter. split; [tauto |].
        intros [Hn | ->]; [contradiction |]. simpl in L. lia.
    + apply bool_decide_eq_false in L.
      assert (Hone : visible = [level]).
      { destruct visible as [| a [| b rest]]; simpl in L; try lia.
        - by apply elem_of_nil in E.
        - apply list_elem_of_singleton in E. by subst. }
      split; [done |]. split; [done |]. split; [done |]. tauto.
  - apply includes_false in E.
    split; [| split; [| split]].
    + apply NoDup_app. split; [done |]. split; [| apply NoDup_singleton].
      intros x Hx Hv. apply list_elem_of_singleton in Hv as ->. contradiction.
    + intros _ Hnil. by apply app_eq_nil in Hnil as [_ ?].
    + intros x Hx. rewrite elem_of_app, list_elem_of_singleton. tauto.
    + rewrite elem_of_app, list_elem_of_singleton. tauto.
Qed.

Lemma update_visible_keeps_a_line_witness :
  NoDup ["Senior-level"]
  ∧ JobPostingsTimeLine.update_visible ["Senior-level"] "Senior-level" ≠ [].
Proof.
  assert (Hnd : NoDup ["Senior-level"]) by apply NoDup_singleton.
  split; [exact Hnd |].
  apply (proj1 (proj2 (update_visible_keeps_a_line ["Senior-level"] "Senior-level" Hnd))).
  discriminate.
Defined.

(** ** The effect that copies [selectedLevels] into the store *)

Lemma existsb_not_includes_false (sel l : list string) :
  existsb (λ level, negb (includes level l)) sel = false ↔ ∀ x, x ∈ sel → x ∈ l.
Proof.
  induction sel as [| a sel IH]; simpl.
  - split; [| done]. intros _ x Hx. by apply elem_of_nil in Hx.
  - rewrite orb_false_iff, negb_false_iff, includes_spec, IH.
    split.
    + intros [Ha Hall] x Hx. apply elem_of_cons in Hx as [-> | Hx]; [done | by apply Hall].
    + intros Hall. split; [apply Hall, list_elem_of_here |].
      intros x Hx. by apply Hall, list_elem_of_further.
Qed.

(** X3: the effect that copies the local [selectedLevels] into the store
    reaches a fixed point in one run: afterwards every selected level is in
    the experience-level filter, both lists have the same length, the active
    item is untouched, and a second run changes nothing. *)
Theorem sync_selectedLevels_settles (selectedLevels : list string) (s : Store) :
  let s' := JobPostingsTimeLine.sync_selectedLevels s false selectedLevels s in
  (∀ x, x ∈ selectedLevels → x ∈ experienceLevels (filters s'))
  ∧ length (experienceLevels (filters s')) = length selectedLevels
  ∧ activeItem s' = activeItem s
  ∧ JobPostingsTimeLine.sync_selectedLevels s' false selectedLevels s' = s'.
Proof.
  cbv zeta.
  assert (Hfix : ∀ t, experienceLevels (filters t) = selectedLevels →
                      JobPostingsTimeLine.sync_selectedLevels t false selectedLevels t = t).
  { intros t Ht. unfold JobPostingsTimeLine.sync_selectedLevels. rewrite Ht.
    rewrite Nat.eqb_refl. cbn [negb orb].
    replace (existsb _ selectedLevels) with false; [done |].
    symmetry. by apply existsb_not_includes_false. }
  assert (Hcase : experienceLevels
                    (filters (JobPostingsTimeLine.sync_selectedLevels s false selectedLevels s))
                  = selectedLevels
                  ∧ activeItem (JobPostingsTimeLine.sync_selectedLevels s false selectedLevels s)
                    = activeItem s
                  ∨ JobPostingsTimeLine.sync_selectedLevels s false selectedLevels s = s
                    ∧ length (experienceLevels (filters s)) = length selectedLevels
                    ∧ ∀ x, x ∈ selectedLevels → x ∈ experienceLevels (filters s)).
  { unfold JobPostingsTimeLine.sync_selectedLevels.
    destruct (negb (length selectedLevels =? length (experienceLevels (filters s)))%nat
              || existsb (λ level, negb (includes level (experienceLevels (filters s))))
                   selectedLevels) eqn:E.
    - left. destruct (bool_decide (0 < length selectedLevels)) eqn:L; cbn; [done |].
      apply bool_decide_eq_false in L. destruct selectedLevels; [done | simpl in L; lia].
    - right. apply orb_false_iff in E as [El Ex].
      apply negb_false_iff, Nat.eqb_eq in El.
      pose proof (proj1 (existsb_not_includes_false _ _) Ex) as Hall. done. }
  destruct Hcase as [[Hl Ha] | (Hs & Hlen & Hall)].
  - rewrite Hl. repeat split; [done | done |]. by apply Hfix.
  - rewrite Hs. repeat split; [done | done |]. exact Hs.
Qed.

(** ** A legend click and the classes of the lines *)

Lemma includes_update_visible (visible : list string) (level x : string) :
  includes x (JobPostingsTimeLine.update_visible visible level)
  = if decide (x = level)
    then negb (includes level visible && bool_decide (1 < length visible))
    else includes x visible.
Proof.
  unfold JobPostingsTimeLine.update_visible.
  destruct (includes level visible) eqn:E; cbn [andb negb].
  - destruct (bool_decide (1 < length visible)) eqn:L; cbn [negb].
    + destruct (decide (x = level)) as [-> | Hne].
      * apply includes_false. rewrite list_elem_of_filter. tauto.
      * destruct (includes x visible) eqn:Ex.
        -- apply includes_spec. apply includes_spec in Ex.
           by apply list_elem_of_filter.
        -- apply includes_false. apply includes_false in Ex.
           rewrite list_elem_of_filter. tauto.
    + destruct (decide (x = level)) as [-> | Hne]; [exact E | reflexivity].
  - destruct (decide (x = level)) as [-> | Hne].
    + apply includes_spec, elem_of_app. right. apply list_elem_of_here.
    + destruct (includes x visible) eqn:Ex.
      * apply includes_spec. apply includes_spec in Ex. apply elem_of_app. by left.
      * apply includes_false. apply includes_false in Ex.
        rewrite elem_of_app, list_elem_of_singleton. tauto.
Qed.

(** X4: a legend click on a level that is not in the filter puts it into
    the filter and makes it the active item.  The click also toggles the level
    in [visibleExperienceLevels]: in the drawing that follows, the line of the
    level is missing when the level was visible together with another one, and
    otherwise it is drawn with the class [selected].  Every other level that
    is not in the filter keeps its visibility and, if visible, is drawn
    [faded]. *)
Theorem legend_click_selects_and_fades (visible : list string) (level : string)
    (s : Store) :
  level ∉ experienceLevels (filters s) →
  let s' := JobPostingsTimeLine.legend_click s level s in
  let visible' := JobPostingsTimeLine.update_visible visible level in
  activeItem s' = item ExperienceLevel level
  ∧ level ∈ experienceLevels (filters s')
  ∧ JobPostingsTimeLine.line_classes (filters s') level = (true, false)
  ∧ JobPostingsTimeLine.drawn_line (filters s') visible' level
    = (if includes level visible && bool_decide (1 < length visible)
       then None else Some "timeline-line selected")
  ∧ ∀ other, other ≠ level → other ∉ experienceLevels (filters s) →
      JobPostingsTimeLine.line_classes (filters s') other = (false, true)
      ∧ JobPostingsTimeLine.drawn_line (filters s') visible' other
        = if includes other visible then Some "timeline-line faded" else None.
Proof.
  intros Hn s' visible'. subst s' visible'. unfold JobPostingsTimeLine.legend_click.
  apply includes_false in Hn. rewrite Hn.
  cbn [filters setFilters setActiveItem activeItem].
  unfold JobPostingsTimeLine.drawn_line, JobPostingsTimeLine.lineClass,
    JobPostingsTimeLine.line_classes.
  unfold with_experienceLevels. cbn [experienceLevels].
  assert (Hin : includes level (experienceLevels (filters s) ++ [level]) = true).
  { apply includes_spec, elem_of_app. right. apply list_elem_of_here. }
  rewrite Hin. split; [reflexivity |]. split; [by apply includes_spec |].
  split; [reflexivity |]. split.
  - rewrite includes_update_visible. destruct (decide (level = level)); [| done].
    destruct (includes level visible && bool_decide (1 < length visible)); reflexivity.
  - intros other Hne Ho.
    assert (Hout : includes other (experienceLevels (filters s) ++ [level]) = false).
    { apply includes_false. rewrite elem_of_app, list_elem_of_singleton. tauto. }
    rewrite Hout. rewrite bool_decide_eq_true_2 by (rewrite length_app; simpl; lia).
    split; [reflexivity |].
    rewrite includes_update_visible. destruct (decide (other = level)); [done |].
    destruct (includes other visible); reflexivity.
Qed.

Lemma legend_click_selects_and_fades_witness :
  let visible := ["Entry-level"; "Senior-level"] in
  let s' := JobPostingsTimeLine.legend_click initial "Senior-level" initial in
  let visible' := JobPostingsTimeLine.update_visible visible "Senior-level" in
  ("Senior-level" ∉ experienceLevels (filters initial))
  ∧ JobPostingsTimeLine.drawn_line (filters s') visible' "Senior-level" = None
  ∧ JobPostingsTimeLine.drawn_line (filters s') visible' "Entry-level"
    = Some "timeline-line faded".
Proof.
  intros visible s' visible'.
  assert (Hn : "Senior-level" ∉ experienceLevels (filters initial)) by apply not_elem_of_nil.
  split; [exact Hn |].
  destruct (legend_click_selects_and_fades visible "Senior-level" initial Hn)
    as (_ & _ & _ & Hline & Hother).
  split; [exact Hline |].
  refine (proj2 (Hother "Entry-level" _ _)).
  - discriminate.
  - apply not_elem_of_nil.
Defined.

(** ** The bar chart's local selection and the global filter *)

(** X5: the click handler of an industry badge is [toggleIndustry]: both
    compute the same local selection and the same store.  The legend entry
    computes the same selection and filters, but leaves the active item
    alone. *)
Theorem badge_click_is_toggleIndustry (ctx : Store) (activeIndustries : list string)
    (industry : string) (s : Store) :
  SalaryLocationIndustryBarChart.badge_click ctx activeIndustries industry s
  = SalaryLocationIndustryBarChart.toggleIndustry ctx activeIndustries industry s
  ∧ fst (SalaryLocationIndustryBarChart.legend_click ctx activeIndustries industry s)
    = fst (SalaryLocationIndustryBarChart.toggleIndustry ctx activeIndustries industry s)
  ∧ filters (snd (SalaryLocationIndustryBarChart.legend_click ctx activeIndustries industry s))
    = filters (snd (SalaryLocationIndustryBarChart.toggleIndustry ctx activeIndustries industry s))
  ∧ activeItem (snd (SalaryLocationIndustryBarChart.legend_click ctx activeIndustries industry s)) = activeItem s.
Proof.
  unfold SalaryLocationIndustryBarChart.badge_click, SalaryLocationIndustryBarChart.toggleIndustry, SalaryLocationIndustryBarChart.legend_click.
  repeat match goal with
         | |- context [if ?b then _ else _] => destruct b eqn:?
         end; repeat split.
Qed.

Lemma legend_click_as_toggle (ctx : Store) (activeIndustries : list string)
    (industry : string) (s : Store) :
  fst (SalaryLocationIndustryBarChart.legend_click ctx activeIndustries industry s)
  = fst (SalaryLocationIndustryBarChart.toggleIndustry ctx activeIndustries industry s)
  ∧ filters (snd (SalaryLocationIndustryBarChart.legend_click ctx activeIndustries industry s))
    = filters (snd (SalaryLocationIndustryBarChart.toggleIndustry ctx activeIndustries industry s)).
Proof.
  unfold SalaryLocationIndustryBarChart.toggleIndustry, SalaryLocationIndustryBarChart.legend_click.
  repeat match goal with
         | |- context [if ?b then _ else _] => destruct b eqn:?
         end; split; reflexivity.
Qed.

Lemma topIndustries_nonempty (data : Types.GroupedBarData) :
  Types.bar_industries data ≠ [] → SalaryLocationIndustryBarChart.topIndustries data ≠ [].
Proof.
  intros Hne Hnil. apply (f_equal length) in Hnil.
  unfold SalaryLocationIndustryBarChart.topIndustries in Hnil.
  rewrite length_map, length_take, (Permutation_length (insertion_sort_perm _ _)),
    length_map in Hnil.
  destruct (Types.bar_industries data); [done | simpl in Hnil; lia].
Qed.

(** X6: the handlers keep the bar chart's local [activeIndustries] and the
    industries filter in step, the effects that follow need not.  When both
    hold the same values, they still do right after a legend click, a badge
    toggle, Select All and Clear.  The effects of the commit that follows
    leave a selection as it is when it is not empty and the active item is not
    an unselected industry of the payload.  After Clear, on a loaded payload
    with industries, the default selection fills the empty selection with
    [topIndustries] while the filter stays empty. *)
Theorem bar_selection_follows_filter (data : option Types.GroupedBarData)
    (isLoading : bool) (activeIndustries : list string) (industry : string)
    (data_industries : list string) (s : Store) :
  (∀ x, x ∈ activeIndustries ↔ x ∈ industries (filters s)) →
  (∀ x, x ∈ fst (SalaryLocationIndustryBarChart.legend_click s activeIndustries industry s)
        ↔ x ∈ industries (filters (snd (SalaryLocationIndustryBarChart.legend_click s activeIndustries industry s))))
  ∧ (∀ x, x ∈ fst (SalaryLocationIndustryBarChart.toggleIndustry s activeIndustries industry s)
          ↔ x ∈ industries (filters (snd (SalaryLocationIndustryBarChart.toggleIndustry s activeIndustries industry s))))
  ∧ (∀ x, x ∈ fst (SalaryLocationIndustryBarChart.select_all s data_industries s)
          ↔ x ∈ industries (filters (snd (SalaryLocationIndustryBarChart.select_all s data_industries s))))
  ∧ (∀ x, x ∈ fst (SalaryLocationIndustryBarChart.clear s s) ↔ x ∈ industries (filters (snd (SalaryLocationIndustryBarChart.clear s s))))
  ∧ (∀ (selection : list string) (s' : Store),
       selection ≠ [] →
       SalaryLocationIndustryBarChart.highlight_updater s' data selection = None →
       SalaryLocationIndustryBarChart.after_effects s' data isLoading selection = selection)
  ∧ (∀ d, data = Some d → isLoading = false → Types.bar_industries d ≠ [] →
       let cleared := SalaryLocationIndustryBarChart.clear s s in
       SalaryLocationIndustryBarChart.after_effects (snd cleared) data isLoading (fst cleared)
       = SalaryLocationIndustryBarChart.topIndustries d
       ∧ SalaryLocationIndustryBarChart.topIndustries d ≠ []
       ∧ industries (filters (snd cleared)) = []).
Proof.
  intros Hsync.
  assert (Htog : ∀ x, x ∈ toggle industry activeIndustries
                      ↔ x ∈ toggle industry (industries (filters s))).
  { intros x. rewrite !elem_of_toggle, !Hsync. tauto. }
  assert (Hl : fst (SalaryLocationIndustryBarChart.toggleIndustry s activeIndustries industry s)
               = toggle industry activeIndustries) by reflexivity.
  assert (Hf : industries (filters (snd (SalaryLocationIndustryBarChart.toggleIndustry s activeIndustries industry s)))
               = toggle industry (industries (filters s))).
  { unfold SalaryLocationIndustryBarChart.toggleIndustry, toggle.
    repeat match goal with
           | |- context [if ?b then _ else _] => destruct b eqn:?
           end; reflexivity. }
  destruct (legend_click_as_toggle s activeIndustries industry s) as [Hfst Hfil].
  split; [| split; [| split; [| split; [| split]]]].
  - intros x. rewrite Hfil, Hf, Hfst, Hl. apply Htog.
  - intros x. rewrite Hf, Hl. apply Htog.
  - intros x. reflexivity.
  - intros x. reflexivity.
  - intros selection s' Hne Hup.
    unfold SalaryLocationIndustryBarChart.after_effects. rewrite Hup.
    unfold SalaryLocationIndustryBarChart.default_industries_effect.
    destruct data as [d |]; [| reflexivity].
    destruct (negb isLoading && bool_decide (0 < length (Types.bar_industries d)));
      [| reflexivity].
    rewrite bool_decide_eq_false_2; [reflexivity |].
    destruct selection; [done | discriminate].
  - intros d -> -> Hd cleared. subst cleared.
    split; [| split; [by apply topIndustries_nonempty | reflexivity]].
    unfold SalaryLocationIndustryBarChart.after_effects,
      SalaryLocationIndustryBarChart.highlight_updater,
      SalaryLocationIndustryBarChart.default_industries_effect,
      SalaryLocationIndustryBarChart.clear.
    cbn [fst snd activeItem setActiveItem setFilters filters no_item type value negb andb].
    rewrite bool_decide_eq_true_2 by (destruct (Types.bar_industries d); [done | simpl; lia]).
    reflexivity.
Qed.

Lemma bar_selection_follows_filter_witness :
  let s := mkStore (mkFilterOptions [] [] ["Finance"] []) no_item in
  let data := Types.mkGroupedBarData ["Berlin"] ["Finance"; "Retail"] ∅ in
  let cleared := SalaryLocationIndustryBarChart.clear s s in
  (∀ x, x ∈ ["Finance"] ↔ x ∈ industries (filters s))
  ∧ (∀ x, x ∈ fst (SalaryLocationIndustryBarChart.legend_click s ["Finance"] "Retail" s)
          ↔ x ∈ industries (filters (snd (SalaryLocationIndustryBarChart.legend_click s ["Finance"] "Retail" s))))
  ∧ SalaryLocationIndustryBarChart.after_effects (snd cleared) (Some data) false (fst cleared)
    = SalaryLocationIndustryBarChart.topIndustries data
  ∧ industries (filters (snd cleared)) = [].
Proof.
  intros s data cleared.
  assert (H : ∀ x, x ∈ ["Finance"] ↔ x ∈ industries (filters s)) by (intros x; reflexivity).
  split; [exact H |].
  destruct (bar_selection_follows_filter (Some data) false ["Finance"] "Retail" [] s H)
    as (Hlegend & _ & _ & _ & _ & Hclear).
  split; [exact Hlegend |].
  destruct (Hclear data eq_refl eq_refl ltac:(discriminate)) as (Hafter & _ & Hfilter).
  split; [exact Hafter | exact Hfilter].
Defined.

(** ** Hovering a bar *)

(** X7: hovering a bar of an industry that is not selected adds it to
    [activeIndustries] through the highlight effect, and leaving the bar does
    not take it out again; the filters are not changed. *)
Theorem hover_activates_industry (data : Types.GroupedBarData)
    (activeIndustries : list string) (industry : string) (s : Store) :
  industry ∈ Types.bar_industries data →
  industry ≠ EmptyString →
  industry ∉ activeIndustries →
  let s1 := SalaryLocationIndustryBarChart.bar_mouseover s industry s in
  let s2 := SalaryLocationIndustryBarChart.bar_mouseout s1 s1 in
  SalaryLocationIndustryBarChart.highlight_effect s1 (Some data) activeIndustries = Some (activeIndustries ++ [industry])
  ∧ SalaryLocationIndustryBarChart.highlight_effect s2 (Some data) (activeIndustries ++ [industry]) = None
  ∧ filters s2 = filters s.
Proof.
  intros Hin Hne Hnot s1 s2. subst s1 s2.
  unfold SalaryLocationIndustryBarChart.highlight_effect,
    SalaryLocationIndustryBarChart.highlight_updater,
    SalaryLocationIndustryBarChart.bar_mouseover, SalaryLocationIndustryBarChart.bar_mouseout.
  cbn [activeItem setActiveItem item no_item type value filters].
  apply includes_spec in Hin. apply includes_false in Hnot.
  apply String.eqb_neq in Hne. rewrite Hne, Hin, Hnot. cbn. done.
Qed.

Lemma hover_activates_industry_witness :
  let data := Types.mkGroupedBarData ["Berlin"] ["Finance"; "Retail"] ∅ in
  "Retail" ∈ Types.bar_industries data
  ∧ SalaryLocationIndustryBarChart.highlight_effect (SalaryLocationIndustryBarChart.bar_mouseover initial "Retail" initial) (Some data) ["Finance"]
    = Some ["Finance"; "Retail"].
Proof.
  intros data.
  assert (Hin : "Retail" ∈ Types.bar_industries data)
    by (apply list_elem_of_further, list_elem_of_here).
  split; [exact Hin |].
  refine (proj1 (hover_activates_industry data ["Finance"] "Retail" initial Hin _ _)).
  - discriminate.
  - intros H. apply list_elem_of_singleton in H. discriminate.
Defined.

(** X8: whenever the highlight effect sets [activeIndustries], it queues
    the updater that appends one value: the value of an active item of kind
    industry, which is an industry of the payload and is not in the
    [activeIndustries] of the render.  Applied to a list without duplicates,
    the updater gives a list without duplicates exactly when the list does not
    hold the value yet: so it does on the list of the render, and it does not
    on a default selection, set in the same commit, that holds the value. *)
Theorem highlight_effect_appends_known_industry (ctx : Store)
    (data : option Types.GroupedBarData) (activeIndustries : list string)
    (update : list string → list string) :
  SalaryLocationIndustryBarChart.highlight_updater ctx data activeIndustries = Some update →
  ∃ d v, data = Some d ∧ activeItem ctx = item Industry v
         ∧ v ∈ Types.bar_industries d ∧ (v ∉ activeIndustries)
         ∧ (∀ prev, update prev = prev ++ [v])
         ∧ SalaryLocationIndustryBarChart.highlight_effect ctx data activeIndustries
           = Some (activeIndustries ++ [v])
         ∧ (∀ prev, NoDup prev → (NoDup (update prev) ↔ v ∉ prev)).
Proof.
  unfold SalaryLocationIndustryBarChart.highlight_effect,
    SalaryLocationIndustryBarChart.highlight_updater.
  destruct ctx as [f [[[]|] [v|]]]; cbn; try done.
  destruct data as [d|]; [| done].
  destruct (negb (v =? "")%string && includes v (Types.bar_industries d)) eqn:E; [| done].
  destruct (includes v activeIndustries) eqn:E2; [done |]. cbn.
  intros [= <-]. apply andb_true_iff in E as [_ E]. apply includes_spec in E.
  apply includes_false in E2.
  exists d, v. repeat split; try done.
  - intros Hnd Hv. apply NoDup_app in Hnd as (_ & Hdis & _).
    apply (Hdis v Hv). apply list_elem_of_here.
  - intros Hv. apply NoDup_app. split; [done |]. split; [| apply NoDup_singleton].
    intros x Hx Hxv. apply list_elem_of_singleton in Hxv as ->. contradiction.
Qed.

(** The bar chart has no selection, the filter is empty and the active item
    is the industry "Finance": in one commit the default selection sets the
    three best-paid industries and the highlight effect appends "Finance" to
    them. *)
Lemma highlight_effect_appends_known_industry_witness :
  let ctx := setActiveItem (item Industry "Finance") initial in
  let data :=
    Types.mkGroupedBarData ["Austin"] ["Technology"; "Finance"]
      {[ "Austin" := {[ "Technology" := 120000%Q; "Finance" := 100000%Q ]} ]} in
  ∃ update,
    SalaryLocationIndustryBarChart.highlight_updater ctx (Some data) [] = Some update
    ∧ update [] = ["Finance"]
    ∧ SalaryLocationIndustryBarChart.after_effects ctx (Some data) false []
      = ["Technology"; "Finance"; "Finance"]
    ∧ ¬ NoDup (update ["Technology"; "Finance"]).
Proof.
  intros ctx data. exists (λ prev, prev ++ ["Finance"]).
  assert (Hup : SalaryLocationIndustryBarChart.highlight_updater ctx (Some data) []
                = Some (λ prev, prev ++ ["Finance"])) by reflexivity.
  split; [exact Hup |]. split; [reflexivity |]. split; [vm_compute; reflexivity |].
  destruct (highlight_effect_appends_known_industry ctx (Some data) [] _ Hup)
    as (d & v & _ & Hv & _ & _ & Happ & _ & Hnd).
  injection Hv as <-.
  intros Hdup. apply (Hnd ["Technology"; "Finance"]) in Hdup.
  - apply Hdup. apply list_elem_of_further, list_elem_of_here.
  - apply (bool_decide_unpack _). vm_compute. exact I.
Defined.

(** ** Sorting with a total, transitive comparison *)

Lemma insert_sorted_StronglySorted {A} (leb : A → A → bool) (x : A) (l : list A) :
  (∀ a b, leb a b = false → leb b a = true) →
  (∀ a b c, leb a b = true → leb b c = true → leb a c = true) →
  StronglySorted (λ a b, leb a b = true) l →
  StronglySorted (λ a b, leb a b = true) (insert_sorted leb x l).
Proof.
  intros Htot Htrans. induction 1 as [| h t Hss IH Hall]; simpl.
  - repeat constructor.
  - destruct (leb x h) eqn:E.
    + constructor; [by constructor |]. constructor; [done |].
      eapply Forall_impl; [exact Hall |]. intros y Hy. simpl in Hy. by eapply Htrans.
    + constructor; [done |]. rewrite insert_sorted_perm. constructor; [| done].
      by apply Htot.
Qed.

Lemma insertion_sort_StronglySorted {A} (leb : A → A → bool) (l : list A) :
  (∀ a b, leb a b = false → leb b a = true) →
  (∀ a b c, leb a b = true → leb b c = true → leb a c = true) →
  StronglySorted (λ a b, leb a b = true) (insertion_sort leb l).
Proof.
  intros Htot Htrans. induction l as [| h t IH]; simpl; [constructor |].
  by apply insert_sorted_StronglySorted.
Qed.

Lemma StronglySorted_app_le {A} (R : A → A → Prop) (l1 l2 : list A) (x y : A) :
  StronglySorted R (l1 ++ l2) → x ∈ l1 → y ∈ l2 → R x y.
Proof.
  induction l1 as [| a l1 IH]; intros Hss Hx Hy; [by apply elem_of_nil in Hx |].
  simpl in Hss. apply StronglySorted_inv in Hss as [Hss Hall].
  apply elem_of_cons in Hx as [-> | Hx]; [| by apply IH].
  rewrite Forall_forall in Hall. apply Hall, elem_of_app. by right.
Qed.

Lemma Qle_bool_total (a b : Q) : Qle_bool a b = false → Qle_bool b a = true.
Proof.
  intros E. apply Qle_bool_iff. destruct (Qlt_le_dec b a) as [Hlt | Hle]; [lra |].
  apply Qle_bool_iff in Hle. congruence.
Qed.

Lemma Qle_bool_trans (a b c : Q) :
  Qle_bool a b = true → Qle_bool b c = true → Qle_bool a c = true.
Proof. rewrite !Qle_bool_iff. lra. Qed.

Lemma elem_of_take_elem {A} (x : A) (k : nat) (l : list A) : x ∈ take k l → x ∈ l.
Proof. intros Hx. rewrite <- (take_drop k l). apply elem_of_app. by left. Qed.

(** A prefix of a list sorted in descending order of [f] holds greatest
    elements: every element left out is below every element kept. *)
Lemma top_of_descending {A} (f : A → Q) (l : list A) (k : nat) (a b : A) :
  a ∈ take k (insertion_sort (λ x y, Qle_bool (f y) (f x)) l) →
  b ∈ drop k (insertion_sort (λ x y, Qle_bool (f y) (f x)) l) →
  (f b <= f a)%Q.
Proof.
  intros Ha Hb.
  assert (Hss : StronglySorted (λ x y, Qle_bool (f y) (f x) = true)
                  (insertion_sort (λ x y, Qle_bool (f y) (f x)) l)).
  { apply insertion_sort_StronglySorted.
    - intros x y. apply Qle_bool_total.
    - intros x y z Hxy Hyz. by eapply Qle_bool_trans. }
  rewrite <- (take_drop k) in Hss.
  apply Qle_bool_iff. by eapply (StronglySorted_app_le _ _ _ a b Hss).
Qed.

(** ** Average salaries and the default selection *)

Lemma add_location_step data industry total count location :
  SalaryLocationIndustryBarChart.add_location data industry (total, count) location
  = match positive_salary data industry location with
    | Some v => ((total + v)%Q, (count + 1)%Z)
    | None => (total, count)
    end.
Proof.
  unfold SalaryLocationIndustryBarChart.add_location, positive_salary.
  destruct (Types.bar_data data !! location) as [row |]; [| done]. cbn.
  destruct (row !! industry) as [v |]; [| done]. cbn.
  by destruct (Qlt_le_dec 0 v).
Qed.

Lemma add_location_fold data industry locations total count :
  ∃ total',
    fold_left (SalaryLocationIndustryBarChart.add_location data industry) locations (total, count)
    = (total',
       (count + Z.of_nat (length (omap (positive_salary data industry) locations)))%Z)
    ∧ (total' == total + Qsum (omap (positive_salary data industry) locations))%Q.
Proof.
  revert total count. induction locations as [| loc locations IH]; intros total count.
  - exists total. split; [cbn; f_equal; lia | cbn; ring].
  - cbn [fold_left]. rewrite add_location_step.
    destruct (positive_salary data industry loc) as [v |] eqn:E.
    + assert (omap (positive_salary data industry) (loc :: locations)
              = v :: omap (positive_salary data industry) locations) as ->
        by (cbn; by rewrite E).
      destruct (IH (total + v)%Q (count + 1)%Z) as (total' & -> & Ht).
      exists total'. split; [f_equal; cbn [length]; lia |].
      rewrite Ht. unfold Qsum. cbn [foldr]. ring.
    + assert (omap (positive_salary data industry) (loc :: locations)
              = omap (positive_salary data industry) locations) as ->
        by (cbn; by rewrite E).
      apply IH.
Qed.

Lemma Qsum_nonneg (l : list Q) : (∀ x, x ∈ l → (0 <= x)%Q) → (0 <= Qsum l)%Q.
Proof.
  induction l as [| a l IH]; intros Hall; cbn; [lra |].
  pose proof (Hall a (list_elem_of_here _ _)).
  assert (0 <= Qsum l)%Q by (apply IH; intros x Hx; by apply Hall, list_elem_of_further).
  unfold Qsum in *. lra.
Qed.

Lemma industryTotal_industry (data : Types.GroupedBarData) (industry : string) :
  SalaryLocationIndustryBarChart.industry
    (SalaryLocationIndustryBarChart.industryTotal data industry) = industry.
Proof.
  unfold SalaryLocationIndustryBarChart.industryTotal.
  by destruct (fold_left _ _ _) as [total count].
Qed.

(** X9: the average salary of an industry is the mean of its positive
    salaries over the locations of the payload, and [0] when it has none;
    missing locations, missing entries and non-positive salaries are
    skipped.  It is never negative. *)
Theorem avgSalary_is_mean_of_positive_salaries (data : Types.GroupedBarData)
    (industry : string) :
  let salaries := positive_salaries data industry in
  SalaryLocationIndustryBarChart.industry (SalaryLocationIndustryBarChart.industryTotal data industry) = industry
  ∧ (SalaryLocationIndustryBarChart.avgSalary (SalaryLocationIndustryBarChart.industryTotal data industry)
     == match salaries with
        | [] => 0
        | _ => Qsum salaries / inject_Z (Z.of_nat (length salaries))
        end)%Q
  ∧ (0 <= SalaryLocationIndustryBarChart.avgSalary (SalaryLocationIndustryBarChart.industryTotal data industry))%Q.
Proof.
  intros salaries. unfold SalaryLocationIndustryBarChart.industryTotal.
  destruct (add_location_fold data industry (Types.bar_locations data) 0%Q 0%Z)
    as (total & -> & Ht).
  fold (positive_salaries data industry) in Ht |- *. fold salaries in Ht |- *.
  cbn [SalaryLocationIndustryBarChart.industry SalaryLocationIndustryBarChart.avgSalary].
  assert (Hpos : ∀ x, x ∈ salaries → (0 <= x)%Q).
  { intros x Hx. subst salaries. unfold positive_salaries in Hx.
    apply list_elem_of_omap in Hx as (loc & _ & Hx). unfold positive_salary in Hx.
    destruct (Types.bar_data data !! loc) as [row |]; [| done]. cbn in Hx.
    destruct (row !! industry) as [v |]; [| done]. cbn in Hx.
    destruct (Qlt_le_dec 0 v); [| done]. injection Hx as ->. lra. }
  assert (Hval : ((if (0 <? 0 + Z.of_nat (length salaries))%Z
                   then total / inject_Z (0 + Z.of_nat (length salaries)) else 0)
                  == match salaries with
                     | [] => 0
                     | _ => Qsum salaries / inject_Z (Z.of_nat (length salaries))
                     end)%Q).
  { destruct salaries as [| a rest] eqn:Es; [reflexivity |].
    replace (0 <? 0 + Z.of_nat (length (a :: rest)))%Z with true
      by (symmetry; apply Z.ltb_lt; cbn [length]; lia).
    rewrite Z.add_0_l, Ht. field.
    cbn [length]. rewrite Nat2Z.inj_succ. unfold Qeq, inject_Z. cbn [Qnum Qden]. lia. }
  split; [done |]. split; [exact Hval |].
  rewrite Hval. destruct salaries as [| a rest] eqn:Es; [lra |].
  apply Qle_shift_div_l.
  - cbn [length]. rewrite Nat2Z.inj_succ. unfold Qlt, inject_Z. cbn [Qnum Qden]. lia.
  - rewrite Qmult_0_l. by apply Qsum_nonneg.
Qed.

Lemma topIndustries_known (data : Types.GroupedBarData) (a : string) :
  a ∈ SalaryLocationIndustryBarChart.topIndustries data → a ∈ Types.bar_industries data.
Proof.
  unfold SalaryLocationIndustryBarChart.topIndustries. intros Ha.
  apply list_elem_of_fmap in Ha as (t & -> & Ht). apply elem_of_take_elem in Ht.
  rewrite insertion_sort_perm in Ht.
  apply list_elem_of_fmap in Ht as (x & -> & Hx). by rewrite industryTotal_industry.
Qed.

(** X10: the default selection consists of three industries of the payload
    (all of them when there are fewer), and no industry left out has a higher
    average salary than a selected one. *)
Theorem topIndustries_are_the_best_paid (data : Types.GroupedBarData) :
  length (SalaryLocationIndustryBarChart.topIndustries data) = Nat.min 3 (length (Types.bar_industries data))
  ∧ (∀ a, a ∈ SalaryLocationIndustryBarChart.topIndustries data → a ∈ Types.bar_industries data)
  ∧ ∀ a b, a ∈ SalaryLocationIndustryBarChart.topIndustries data → b ∈ Types.bar_industries data →
           b ∉ SalaryLocationIndustryBarChart.topIndustries data →
           (SalaryLocationIndustryBarChart.avgSalary (SalaryLocationIndustryBarChart.industryTotal data b) <= SalaryLocationIndustryBarChart.avgSalary (SalaryLocationIndustryBarChart.industryTotal data a))%Q.
Proof.
  unfold SalaryLocationIndustryBarChart.topIndustries.
  set (totals := map (SalaryLocationIndustryBarChart.industryTotal data) (Types.bar_industries data)).
  set (sorted := insertion_sort (λ a b, Qle_bool (SalaryLocationIndustryBarChart.avgSalary b) (SalaryLocationIndustryBarChart.avgSalary a)) totals).
  assert (Hperm : sorted ≡ₚ totals) by apply insertion_sort_perm.
  assert (Hname : ∀ t, t ∈ sorted → t = SalaryLocationIndustryBarChart.industryTotal data (SalaryLocationIndustryBarChart.industry t)
                                   ∧ SalaryLocationIndustryBarChart.industry t ∈ Types.bar_industries data).
  { intros t Ht. rewrite Hperm in Ht. subst totals.
    apply list_elem_of_fmap in Ht as (x & -> & Hx).
    by rewrite industryTotal_industry. }
  split; [| split].
  - rewrite length_map, length_take, Hperm. subst totals. rewrite length_map. lia.
  - intros a Ha. apply list_elem_of_fmap in Ha as (t & -> & Ht).
    apply Hname. by eapply elem_of_take_elem.
  - intros a b Ha Hb Hnb.
    apply list_elem_of_fmap in Ha as (ta & -> & Hta).
    assert (Htb : SalaryLocationIndustryBarChart.industryTotal data b ∈ drop 3 sorted).
    { assert (Hin : SalaryLocationIndustryBarChart.industryTotal data b ∈ take 3 sorted ++ drop 3 sorted).
      { rewrite take_drop, Hperm. subst totals. apply list_elem_of_fmap. by exists b. }
      apply elem_of_app in Hin as [Hin | Hin]; [| done].
      exfalso. apply Hnb. apply list_elem_of_fmap. exists (SalaryLocationIndustryBarChart.industryTotal data b).
      split; [| done]. by rewrite industryTotal_industry. }
    destruct (Hname ta (elem_of_take_elem _ _ _ Hta)) as [Heq _]. rewrite <- Heq.
    exact (top_of_descending SalaryLocationIndustryBarChart.avgSalary totals 3 ta (SalaryLocationIndustryBarChart.industryTotal data b) Hta Htb).
Qed.

Lemma topIndustries_are_the_best_paid_witness :
  let data := Types.mkGroupedBarData ["Berlin"] ["Retail"; "Finance"; "Energy"; "Education"]
                {[ "Berlin" := {[ "Retail" := 10%Q; "Finance" := 40%Q;
                                   "Energy" := 30%Q; "Education" := 20%Q ]} ]} in
  SalaryLocationIndustryBarChart.topIndustries data = ["Finance"; "Energy"; "Education"]
  ∧ (SalaryLocationIndustryBarChart.avgSalary (SalaryLocationIndustryBarChart.industryTotal data "Retail")
     <= SalaryLocationIndustryBarChart.avgSalary (SalaryLocationIndustryBarChart.industryTotal data "Education"))%Q.
Proof.
  intros data.
  assert (Ht : SalaryLocationIndustryBarChart.topIndustries data = ["Finance"; "Energy"; "Education"])
    by (vm_compute; reflexivity).
  split; [exact Ht |].
  refine (proj2 (proj2 (topIndustries_are_the_best_paid data)) "Education" "Retail" _ _ _).
  - rewrite Ht. apply list_elem_of_further, list_elem_of_further, list_elem_of_here.
  - apply list_elem_of_here.
  - rewrite Ht. intros H. repeat (apply elem_of_cons in H as [H | H]; [discriminate H |]).
    by apply elem_of_nil in H.
Defined.

(** X11: the default-selection effect sets [activeIndustries] only when
    loading has finished, the payload has industries and nothing is selected
    yet.  What it sets are industries of the payload: the filtered industries
    that the payload knows when the filter is not empty, the three best-paid
    industries otherwise. *)
Theorem default_selection_is_known (ctx : Store) (data : option Types.GroupedBarData)
    (isLoading : bool) (activeIndustries next : list string) :
  SalaryLocationIndustryBarChart.default_industries_effect ctx data isLoading activeIndustries = Some next →
  isLoading = false ∧ activeIndustries = []
  ∧ ∃ d, data = Some d ∧ Types.bar_industries d ≠ []
         ∧ (∀ x, x ∈ next → x ∈ Types.bar_industries d)
         ∧ (industries (filters ctx) ≠ [] → ∀ x, x ∈ next → x ∈ industries (filters ctx))
         ∧ (industries (filters ctx) = [] → next = SalaryLocationIndustryBarChart.topIndustries d).
Proof.
  unfold SalaryLocationIndustryBarChart.default_industries_effect. destruct data as [d |]; [| done].
  destruct isLoading; cbn [negb andb]; [done |].
  destruct (bool_decide (0 < length (Types.bar_industries d))) eqn:E1; [| done].
  destruct (bool_decide (length activeIndustries = 0%nat)) eqn:E2; [| done].
  apply bool_decide_eq_true in E1, E2.
  destruct (bool_decide (0 < length (industries (filters ctx)))) eqn:E3;
    intros [= <-]; (split; [done |]); (split; [by destruct activeIndustries |]);
    exists d; (split; [done |]); (split; [intros E; rewrite E in E1; simpl in E1; lia |]).
  - apply bool_decide_eq_true in E3. repeat split.
    + intros x Hx. by apply list_elem_of_filter in Hx as [? _].
    + intros _ x Hx. by apply list_elem_of_filter in Hx as [_ ?].
    + intros E. rewrite E in E3. simpl in E3. lia.
  - apply bool_decide_eq_false in E3. repeat split.
    + apply topIndustries_known.
    + intros Hne. destruct (industries (filters ctx)); [done | simpl in E3; lia].
Qed.

Lemma default_selection_is_known_witness :
  let data := Types.mkGroupedBarData ["Berlin"] ["Retail"; "Finance"] ∅ in
  let ctx := mkStore (mkFilterOptions [] [] ["Finance"; "Mining"] []) no_item in
  SalaryLocationIndustryBarChart.default_industries_effect ctx (Some data) false [] = Some ["Finance"]
  ∧ ∀ x, x ∈ ["Finance"] → x ∈ Types.bar_industries data.
Proof.
  intros data ctx.
  assert (He : SalaryLocationIndustryBarChart.default_industries_effect ctx (Some data) false [] = Some ["Finance"])
    by (vm_compute; reflexivity).
  split; [exact He |].
  destruct (default_selection_is_known ctx (Some data) false [] ["Finance"] He)
    as (_ & _ & d & [= <-] & _ & Hsub & _).
  exact Hsub.
Defined.

(** ** The Y scale of the bar chart *)

Lemma Math_max_ge_l (a b : Q) : (a <= Math_max a b)%Q.
Proof.
  unfold Math_max. destruct (Qle_bool a b) eqn:E; [by apply Qle_bool_iff | lra].
Qed.

Lemma Math_max_ge_r (a b : Q) : (b <= Math_max a b)%Q.
Proof.
  unfold Math_max. destruct (Qle_bool a b) eqn:E; [lra |].
  apply Qle_bool_total in E. apply Qle_bool_iff in E. done.
Qed.

Lemma max_over_industries data location (inds : list string) (acc : Q) :
  let m := fold_left
             (λ maxSalary industry,
                match SalaryLocationIndustryBarChart.bar_value data location industry with
                | Some v => Math_max maxSalary (js_or v 0)
                | None => maxSalary
                end) inds acc in
  (acc <= m)%Q
  ∧ ∀ industry v, industry ∈ inds → SalaryLocationIndustryBarChart.bar_value data location industry = Some v → (v <= m)%Q.
Proof.
  revert acc. induction inds as [| i inds IH]; intros acc; cbn [fold_left].
  - split; [lra |]. intros industry v Hin. by apply elem_of_nil in Hin.
  - set (acc' := match SalaryLocationIndustryBarChart.bar_value data location i with
                 | Some v => Math_max acc (js_or v 0)
                 | None => acc
                 end).
    destruct (IH acc') as [Hge Hall].
    assert (Hacc : (acc <= acc')%Q).
    { subst acc'. destruct (SalaryLocationIndustryBarChart.bar_value data location i); [apply Math_max_ge_l | lra]. }
    split; [lra |].
    intros industry v Hin Hv. apply elem_of_cons in Hin as [-> | Hin]; [| by eapply Hall].
    assert (v <= acc')%Q; [| lra].
    subst acc'. rewrite Hv. pose proof (Math_max_ge_r acc (js_or v 0)).
    pose proof (js_or_zero v). lra.
Qed.

(** X12: the upper end of the Y scale is at least 110% of every bar drawn
    for the first ten locations, and never negative. *)
Theorem maxSalary_covers_every_bar (data : Types.GroupedBarData)
    (location industry : string) (v : Q) :
  location ∈ take 10 (Types.bar_locations data) →
  industry ∈ Types.bar_industries data →
  SalaryLocationIndustryBarChart.bar_value data location industry = Some v →
  (v * (11 # 10) <= SalaryLocationIndustryBarChart.maxSalary data)%Q ∧ (0 <= SalaryLocationIndustryBarChart.maxSalary data)%Q.
Proof.
  intros Hloc Hind Hv. unfold SalaryLocationIndustryBarChart.maxSalary.
  assert (Hgen : ∀ locs acc,
    let m := fold_left
               (λ maxSalary location,
                  fold_left
                    (λ maxSalary industry,
                       match SalaryLocationIndustryBarChart.bar_value data location industry with
                       | Some v => Math_max maxSalary (js_or v 0)
                       | None => maxSalary
                       end) (Types.bar_industries data) maxSalary) locs acc in
    (acc <= m)%Q ∧ (location ∈ locs → (v <= m)%Q)).
  { induction locs as [| l locs IH]; intros acc; cbn [fold_left].
    - split; [lra |]. intros Hin. by apply elem_of_nil in Hin.
    - destruct (max_over_industries data l (Types.bar_industries data) acc) as [Hge Hall].
      match goal with
      | |- context [fold_left _ locs ?a] => destruct (IH a) as [Hge2 Hin2]
      end.
      split; [lra |]. intros Hin. apply elem_of_cons in Hin as [<- | Hin]; [| by apply Hin2].
      pose proof (Hall industry v Hind Hv). lra. }
  destruct (Hgen (take 10 (Types.bar_locations data)) 0%Q) as [H0 Hin].
  specialize (Hin Hloc). cbv zeta in H0, Hin. split; lra.
Qed.

Lemma maxSalary_covers_every_bar_witness :
  let data := Types.mkGroupedBarData ["Berlin"] ["Finance"]
                {[ "Berlin" := {[ "Finance" := 40%Q ]} ]} in
  SalaryLocationIndustryBarChart.bar_value data "Berlin" "Finance" = Some 40%Q
  ∧ (40 * (11 # 10) <= SalaryLocationIndustryBarChart.maxSalary data)%Q.
Proof.
  intros data. split; [reflexivity |].
  refine (proj1 (maxSalary_covers_every_bar data "Berlin" "Finance" 40 _ _ _)).
  - apply list_elem_of_here.
  - apply list_elem_of_here.
  - reflexivity.
Defined.

(** ** The box plot is well formed *)

Lemma quantile_between (sorted : list Q) (p : Q) :
  StronglySorted Qle sorted → (2 ≤ length sorted)%nat → (0 < p)%Q → (p < 1)%Q →
  let i0 := Z.to_nat (Qfloor (inject_Z (Z.of_nat (length sorted - 1)) * p)) in
  (S i0 < length sorted)%nat
  ∧ ∃ q, d3.quantile sorted p = Some q
      ∧ (nth i0 sorted 0 <= q)%Q ∧ (q <= nth (S i0) sorted 0)%Q.
Proof.
  intros Hss Hn Hp0 Hp1 i0. unfold d3.quantile.
  set (n := length sorted) in *.
  set (i := (inject_Z (Z.of_nat (n - 1)) * p)%Q) in *.
  assert (Hm : (1 <= inject_Z (Z.of_nat (n - 1)))%Q).
  { change 1%Q with (inject_Z 1). rewrite <- Zle_Qle. lia. }
  assert (Hi0 : (0 <= i)%Q) by (subst i; nra).
  assert (Hi1 : (i < inject_Z (Z.of_nat (n - 1)))%Q) by (subst i; nra).
  assert (Hf0 : (0 <= Qfloor i)%Z).
  { change 0%Z with (Qfloor 0). by apply Qfloor_resp_le. }
  assert (Hf1 : (Qfloor i < Z.of_nat (n - 1))%Z).
  { rewrite Zlt_Qlt. pose proof (Qfloor_le i). lra. }
  assert (Hlt : (S i0 < n)%nat) by (subst i0; lia).
  split; [done |].
  replace (n =? 0)%nat with false by (symmetry; apply Nat.eqb_neq; lia).
  replace (Qle_bool p 0) with false.
  2:{ symmetry. apply not_true_iff_false. rewrite Qle_bool_iff. lra. }
  replace (n <? 2)%nat with false by (symmetry; apply Nat.ltb_ge; lia).
  replace (Qle_bool 1 p) with false.
  2:{ symmetry. apply not_true_iff_false. rewrite Qle_bool_iff. lra. }
  cbn [orb]. cbv zeta. fold i. fold i0.
  rewrite (lookup_nth_Q sorted i0) by (fold n; lia).
  rewrite (lookup_nth_Q sorted (S i0)) by (fold n; lia).
  cbn [mbind option_bind]. eexists. split; [reflexivity |].
  assert (Hord : (nth i0 sorted 0 <= nth (S i0) sorted 0)%Q).
  { eapply (StronglySorted_lookup_le sorted i0 (S i0)); [done | lia | |];
      apply lookup_nth_Q; fold n; lia. }
  assert (Hfr0 : (0 <= i - inject_Z (Qfloor i))%Q) by (pose proof (Qfloor_le i); lra).
  assert (Hfr1 : (i - inject_Z (Qfloor i) <= 1)%Q).
  { pose proof (Qlt_floor i) as Hl. rewrite inject_Z_plus in Hl.
    change (inject_Z 1) with 1%Q in Hl. lra. }
  split; nra.
Qed.

Lemma js_or_undef_cases (q fallback : Q) :
  (js_or_undef (Some q) fallback == q)%Q ∨ (js_or_undef (Some q) fallback == fallback)%Q.
Proof.
  cbn. unfold js_or. destruct (Qeq_bool q 0); [right | left]; reflexivity.
Qed.

Lemma nth_le_sorted (sorted : list Q) (i j : nat) :
  StronglySorted Qle sorted → (i ≤ j)%nat → (j < length sorted)%nat →
  (nth i sorted 0 <= nth j sorted 0)%Q.
Proof.
  intros Hss Hij Hj.
  eapply (StronglySorted_lookup_le sorted i j); [done | done | |];
    apply lookup_nth_Q; lia.
Qed.

(** X13: for a job title with at least one observation and no negative
    salary the statistics are ordered as a box plot needs them:
    [0 <= min <= q1 <= median <= q3 <= max]; [rangeSize] is [max - min] and
    [count] the number of observations. *)
Theorem box_plot_is_ordered (title : string) (range : Types.SalaryRange) :
  Types.values range ≠ [] →
  (∀ x, x ∈ Types.values range → (0 <= x)%Q) →
  let st := SalaryJobTitleRidgeline.job_stat title range in
  (0 <= SalaryJobTitleRidgeline.min st)%Q ∧ (SalaryJobTitleRidgeline.min st <= SalaryJobTitleRidgeline.q1 st)%Q ∧ (SalaryJobTitleRidgeline.q1 st <= SalaryJobTitleRidgeline.median st)%Q
  ∧ (SalaryJobTitleRidgeline.median st <= SalaryJobTitleRidgeline.q3 st)%Q ∧ (SalaryJobTitleRidgeline.q3 st <= SalaryJobTitleRidgeline.max st)%Q
  ∧ (SalaryJobTitleRidgeline.rangeSize st == SalaryJobTitleRidgeline.max st - SalaryJobTitleRidgeline.min st)%Q
  ∧ SalaryJobTitleRidgeline.count st = length (Types.values range).
Proof.
  intros Hne Hpos st.
  set (vs := Types.values range) in *. set (sorted := sort_ascending vs).
  assert (Hperm : sorted ≡ₚ vs) by apply insertion_sort_perm.
  assert (Hss : StronglySorted Qle sorted) by apply sort_ascending_sorted.
  assert (Hsne : sorted ≠ []).
  { intros E. rewrite E in Hperm. by apply Permutation_nil in Hperm. }
  assert (Hn : (1 ≤ length sorted)%nat) by (destruct sorted; [done | simpl; lia]).
  assert (Hspos : ∀ i, (i < length sorted)%nat → (0 <= nth i sorted 0)%Q).
  { intros i Hi. apply Hpos. rewrite <- Hperm.
    eapply list_elem_of_lookup_2. by apply lookup_nth_Q. }
  destruct (d3_median_exact sorted Hsne) as (dm & Hdm & Hdme).
  pose proof (lookup_nth_Q sorted 0 ltac:(lia)) as Hh.
  pose proof (lookup_nth_Q sorted (length sorted - 1) ltac:(lia)) as Hl.
  destruct (job_stat_fields title range) as (Emed & Emin & Emax & Eq1 & Eq3).
  fold vs sorted st in Emed, Emin, Emax, Eq1, Eq3.
  assert (Hmed : (SalaryJobTitleRidgeline.median st == exact_median sorted)%Q).
  { rewrite Emed, <- Hdme. apply (median_chain sorted dm _ Hdm Hh).
    intros Hz. apply (median_zero_least_zero sorted _ Hss Hh).
    - intros x Hx. apply Hpos. by rewrite <- Hperm.
    - by rewrite <- Hdme. }
  assert (Hrange : (SalaryJobTitleRidgeline.rangeSize st == SalaryJobTitleRidgeline.max st - SalaryJobTitleRidgeline.min st)%Q
                   ∧ SalaryJobTitleRidgeline.count st = length vs).
  { subst st. unfold SalaryJobTitleRidgeline.job_stat. fold vs. fold sorted.
    destruct (length sorted =? 1)%nat; split; reflexivity. }
  unfold exact_median in Hmed.
  set (n := length sorted) in *.
  set (a := nth ((n - 1) / 2) sorted 0%Q) in *. set (b := nth (n / 2) sorted 0%Q) in *.
  set (h := nth 0 sorted 0%Q) in *. set (g := nth (n - 1) sorted 0%Q) in *.
  assert (Hdiv1 : ((n - 1) / 2 ≤ n / 2)%nat) by (apply Nat.Div0.div_le_mono; lia).
  assert (Hdiv2 : (n / 2 ≤ n - 1)%nat).
  { assert (n / 2 < n)%nat by (apply Nat.div_lt; lia). lia. }
  assert (Hha : (h <= a)%Q) by (apply nth_le_sorted; [done | lia | fold n; lia]).
  assert (Hab : (a <= b)%Q) by (apply nth_le_sorted; [done | lia | fold n; lia]).
  assert (Hbg : (b <= g)%Q) by (apply nth_le_sorted; [done | lia | fold n; lia]).
  assert (Hh0 : (0 <= h)%Q) by (apply Hspos; lia).
  assert (Hmid : (SalaryJobTitleRidgeline.median st == (a + b) / 2)%Q) by exact Hmed.
  assert (Hm1 : (a <= SalaryJobTitleRidgeline.median st)%Q) by (rewrite Hmid; apply Qle_shift_div_l; lra).
  assert (Hm2 : (SalaryJobTitleRidgeline.median st <= b)%Q) by (rewrite Hmid; apply Qle_shift_div_r; lra).
  destruct (decide (n = 1%nat)) as [H1 | H1].
  - (* a single value *)
    rewrite H1 in Emin, Emax, Eq1, Eq3. cbn [Nat.eqb Nat.ltb Nat.leb] in Emin, Emax, Eq1, Eq3.
    assert (Hq1 : (SalaryJobTitleRidgeline.q1 st == SalaryJobTitleRidgeline.min st + (SalaryJobTitleRidgeline.median st - SalaryJobTitleRidgeline.min st) / 2)%Q) by (by rewrite Eq1).
    assert (Hq3 : (SalaryJobTitleRidgeline.q3 st == SalaryJobTitleRidgeline.median st + (SalaryJobTitleRidgeline.max st - SalaryJobTitleRidgeline.median st) / 2)%Q) by (by rewrite Eq3).
    assert (Hmin : (SalaryJobTitleRidgeline.min st == SalaryJobTitleRidgeline.median st * (9 # 10))%Q) by (by rewrite Emin).
    assert (Hmax : (SalaryJobTitleRidgeline.max st == SalaryJobTitleRidgeline.median st * (11 # 10))%Q) by (by rewrite Emax).
    assert (Hq1' : (SalaryJobTitleRidgeline.q1 st == (SalaryJobTitleRidgeline.min st + SalaryJobTitleRidgeline.median st) / 2)%Q) by (rewrite Hq1; field).
    assert (Hq3' : (SalaryJobTitleRidgeline.q3 st == (SalaryJobTitleRidgeline.median st + SalaryJobTitleRidgeline.max st) / 2)%Q) by (rewrite Hq3; field).
    assert (Hq1'' : (2 * SalaryJobTitleRidgeline.q1 st == SalaryJobTitleRidgeline.min st + SalaryJobTitleRidgeline.median st)%Q) by (rewrite Hq1'; field).
    assert (Hq3'' : (2 * SalaryJobTitleRidgeline.q3 st == SalaryJobTitleRidgeline.median st + SalaryJobTitleRidgeline.max st)%Q) by (rewrite Hq3'; field).
    assert (0 <= SalaryJobTitleRidgeline.median st)%Q by lra.
    repeat split; try lra; apply Hrange.
  - replace (n =? 1)%nat with false in Emin, Emax by (symmetry; apply Nat.eqb_neq; lia).
    rewrite Hh in Emin. rewrite Hl in Emax. cbn [js_or_undef] in Emin, Emax.
    assert (Hmin : (SalaryJobTitleRidgeline.min st == h)%Q) by (rewrite Emin; apply js_or_zero).
    assert (Hmax : (SalaryJobTitleRidgeline.max st == g)%Q) by (rewrite Emax; apply js_or_zero).
    destruct (decide (n = 2%nat)) as [H2 | H2].
    + rewrite H2 in Eq1, Eq3. cbn [Nat.ltb Nat.leb] in Eq1, Eq3.
      assert (Hq1 : (2 * SalaryJobTitleRidgeline.q1 st == SalaryJobTitleRidgeline.min st + SalaryJobTitleRidgeline.median st)%Q) by (rewrite Eq1; field).
      assert (Hq3 : (2 * SalaryJobTitleRidgeline.q3 st == SalaryJobTitleRidgeline.median st + SalaryJobTitleRidgeline.max st)%Q) by (rewrite Eq3; field).
      repeat split; try lra; apply Hrange.
    + replace (2 <? n)%nat with true in Eq1, Eq3 by (symmetry; apply Nat.ltb_lt; lia).
      destruct (quantile_between sorted (1 # 4) Hss ltac:(fold n; lia) ltac:(lra) ltac:(lra))
        as (Hi1 & q1 & Hq1 & Hq1lo & Hq1hi).
      destruct (quantile_between sorted (3 # 4) Hss ltac:(fold n; lia) ltac:(lra) ltac:(lra))
        as (Hi3 & q3 & Hq3 & Hq3lo & Hq3hi).
      fold n in Hi1, Hi3, Hq1lo, Hq1hi, Hq3lo, Hq3hi.
      set (i1 := Z.to_nat (Qfloor (inject_Z (Z.of_nat (n - 1)) * (1 # 4)))) in *.
      set (i3 := Z.to_nat (Qfloor (inject_Z (Z.of_nat (n - 1)) * (3 # 4)))) in *.
      assert (Ei1 : i1 = Z.to_nat (Z.of_nat (n - 1) / 4)).
      { subst i1. unfold Qfloor, Qmult, inject_Z. cbn [Qnum Qden]. by rewrite Z.mul_1_r. }
      assert (Ei3 : i3 = Z.to_nat (Z.of_nat (n - 1) * 3 / 4)).
      { subst i3. unfold Qfloor, Qmult, inject_Z. cbn [Qnum Qden]. done. }
      assert (Ea : Z.of_nat ((n - 1) / 2) = (Z.of_nat (n - 1) / 2)%Z)
        by (rewrite Nat2Z.inj_div; done).
      assert (Eb : Z.of_nat (n / 2) = (Z.of_nat n / 2)%Z) by (rewrite Nat2Z.inj_div; done).
      assert (Hidx1 : (S i1 ≤ (n - 1) / 2)%nat)
        by (rewrite Ei1; zify; Z.div_mod_to_equations; lia).
      assert (Hidx3 : (n / 2 ≤ i3)%nat)
        by (rewrite Ei3; zify; Z.div_mod_to_equations; lia).
      assert (Hi3' : (S i3 < n)%nat) by exact Hi3.
      assert (Hq1a : (nth (S i1) sorted 0 <= a)%Q)
        by (apply nth_le_sorted; [done | lia | fold n; lia]).
      assert (Hq1h : (h <= nth i1 sorted 0)%Q)
        by (apply nth_le_sorted; [done | lia | fold n; lia]).
      assert (Hq3b : (b <= nth i3 sorted 0)%Q)
        by (apply nth_le_sorted; [done | lia | fold n; lia]).
      assert (Hq3g : (nth (S i3) sorted 0 <= g)%Q)
        by (apply nth_le_sorted; [done | lia | fold n; lia]).
      rewrite Hq1 in Eq1. rewrite Hq3 in Eq3.
      destruct (js_or_undef_cases q1 (SalaryJobTitleRidgeline.min st)) as [C1 | C1];
        destruct (js_or_undef_cases q3 (SalaryJobTitleRidgeline.max st)) as [C3 | C3];
        rewrite <- Eq1 in C1; rewrite <- Eq3 in C3;
        repeat split; try lra; apply Hrange.
Qed.

(** ** [d3.min] and [d3.max] *)

Lemma d3_max_fold (l : list Q) (acc : option Q) :
  match fold_left
          (λ acc value,
             match acc with
             | None => Some value
             | Some m => if Qlt_le_dec m value then Some value else Some m
             end) l acc with
  | None => acc = None ∧ l = []
  | Some m =>
      (Some m = acc ∨ m ∈ l)
      ∧ (∀ x, x ∈ l → (x <= m)%Q)
      ∧ (∀ a, acc = Some a → (a <= m)%Q)
  end.
Proof.
  revert acc. induction l as [| v l IH]; intros acc; cbn [fold_left].
  - destruct acc as [a |]; [| done]. split; [by left |]. split.
    + intros x Hx. by apply elem_of_nil in Hx.
    + intros a' [= <-]. lra.
  - match goal with |- context [fold_left _ l ?a] => specialize (IH a); set (acc' := a) in * end.
    destruct (fold_left _ l acc') as [m |].
    + destruct IH as (Hin & Hall & Hacc).
      assert (Hv : (v <= m)%Q).
      { subst acc'. destruct acc as [a |]; [| by apply Hacc].
        destruct (Qlt_le_dec a v); [by apply Hacc |].
        specialize (Hacc a eq_refl). lra. }
      split; [| split].
      * destruct Hin as [Hin | Hin]; [| right; by apply list_elem_of_further].
        subst acc'. destruct acc as [a |].
        -- destruct (Qlt_le_dec a v); injection Hin as ->;
             [right; apply list_elem_of_here | by left].
        -- injection Hin as ->. right. apply list_elem_of_here.
      * intros x Hx. apply elem_of_cons in Hx as [-> | Hx]; [done | by apply Hall].
      * intros a ->. subst acc'. destruct (Qlt_le_dec a v); [| by apply Hacc].
        specialize (Hacc v eq_refl). lra.
    + destruct IH as [Hacc _]. subst acc'. destruct acc as [a |]; [| done].
      by destruct (Qlt_le_dec a v).
Qed.

Lemma d3_max_spec (l : list Q) :
  match d3.max l with
  | None => l = []
  | Some m => m ∈ l ∧ ∀ x, x ∈ l → (x <= m)%Q
  end.
Proof.
  unfold d3.max. pose proof (d3_max_fold l None) as H.
  destruct (fold_left _ l None) as [m |]; [| by destruct H].
  destruct H as ([H | H] & Hall & _); [done | done].
Qed.

Lemma d3_min_fold (l : list Q) (acc : option Q) :
  match fold_left
          (λ acc value,
             match acc with
             | None => Some value
             | Some m => if Qlt_le_dec value m then Some value else Some m
             end) l acc with
  | None => acc = None ∧ l = []
  | Some m =>
      (Some m = acc ∨ m ∈ l)
      ∧ (∀ x, x ∈ l → (m <= x)%Q)
      ∧ (∀ a, acc = Some a → (m <= a)%Q)
  end.
Proof.
  revert acc. induction l as [| v l IH]; intros acc; cbn [fold_left].
  - destruct acc as [a |]; [| done]. split; [by left |]. split.
    + intros x Hx. by apply elem_of_nil in Hx.
    + intros a' [= <-]. lra.
  - match goal with |- context [fold_left _ l ?a] => specialize (IH a); set (acc' := a) in * end.
    destruct (fold_left _ l acc') as [m |].
    + destruct IH as (Hin & Hall & Hacc).
      assert (Hv : (m <= v)%Q).
      { subst acc'. destruct acc as [a |]; [| by apply Hacc].
        destruct (Qlt_le_dec v a); [by apply Hacc |].
        specialize (Hacc a eq_refl). lra. }
      split; [| split].
      * destruct Hin as [Hin | Hin]; [| right; by apply list_elem_of_further].
        subst acc'. destruct acc as [a |].
        -- destruct (Qlt_le_dec v a); injection Hin as ->;
             [right; apply list_elem_of_here | by left].
        -- injection Hin as ->. right. apply list_elem_of_here.
      * intros x Hx. apply elem_of_cons in Hx as [-> | Hx]; [done | by apply Hall].
      * intros a ->. subst acc'. destruct (Qlt_le_dec v a); [| by apply Hacc].
        specialize (Hacc v eq_refl). lra.
    + destruct IH as [Hacc _]. subst acc'. destruct acc as [a |]; [| done].
      by destruct (Qlt_le_dec v a).
Qed.

Lemma d3_min_spec (l : list Q) :
  match d3.min l with
  | None => l = []
  | Some m => m ∈ l ∧ ∀ x, x ∈ l → (m <= x)%Q
  end.
Proof.
  unfold d3.min. pose proof (d3_min_fold l None) as H.
  destruct (fold_left _ l None) as [m |]; [| by destruct H].
  destruct H as ([H | H] & Hall & _); [done | done].
Qed.

(** X14: the displayed job titles are the first 5 (or 15) of the sorted
    list: nothing is invented or duplicated, and under the median and range
    orders every title left out ranks no higher than a displayed one. *)
Theorem displayed_titles_are_the_top (localeCompare : string → string → Z)
    (sortBy : SalaryJobTitleRidgeline.SortBy) (showTopTitles : bool) (stats : list SalaryJobTitleRidgeline.JobStat) :
  let shown := SalaryJobTitleRidgeline.displayedTitles showTopTitles (SalaryJobTitleRidgeline.displayJobTitles localeCompare sortBy stats) in
  ∃ hidden,
    shown ++ hidden ≡ₚ stats
    ∧ length shown = Nat.min (if showTopTitles then 5 else 15) (length stats)
    ∧ match sortBy with
      | SalaryJobTitleRidgeline.sort_median =>
          ∀ a b, a ∈ shown → b ∈ hidden → (SalaryJobTitleRidgeline.median b <= SalaryJobTitleRidgeline.median a)%Q
      | SalaryJobTitleRidgeline.sort_range =>
          ∀ a b, a ∈ shown → b ∈ hidden → (SalaryJobTitleRidgeline.rangeSize b <= SalaryJobTitleRidgeline.rangeSize a)%Q
      | SalaryJobTitleRidgeline.sort_alphabetical => True
      end.
Proof.
  intros shown. subst shown.
  set (sorted := SalaryJobTitleRidgeline.displayJobTitles localeCompare sortBy stats).
  assert (Hperm : sorted ≡ₚ stats).
  { subst sorted. destruct sortBy; apply insertion_sort_perm. }
  set (k := Nat.min (if showTopTitles then 5 else 15)%nat (length sorted)).
  assert (Hshown : SalaryJobTitleRidgeline.displayedTitles showTopTitles sorted = take k sorted).
  { subst k. unfold SalaryJobTitleRidgeline.displayedTitles. by destruct showTopTitles. }
  rewrite Hshown. exists (drop k sorted). split; [| split].
  - by rewrite take_drop.
  - rewrite length_take. subst k. rewrite (Permutation_length Hperm). lia.
  - subst sorted. destruct sortBy; [done | |]; intros a b Ha Hb.
    + by apply (top_of_descending SalaryJobTitleRidgeline.median stats k a b).
    + by apply (top_of_descending SalaryJobTitleRidgeline.rangeSize stats k a b).
Qed.

Lemma js_or_undef_some_nonneg (x fallback : Q) :
  (0 <= x)%Q → (0 <= fallback)%Q →
  (x <= js_or_undef (Some x) fallback)%Q ∧ (0 <= js_or_undef (Some x) fallback)%Q
  ∧ ((js_or_undef (Some x) fallback == x)%Q ∨ ((x == 0)%Q ∧ js_or_undef (Some x) fallback = fallback)).
Proof.
  intros Hx Hf. cbn [js_or_undef]. unfold js_or.
  destruct (Qeq_bool x 0) eqn:E.
  - apply Qeq_bool_iff in E. split; [lra |]. split; [done |]. by right.
  - split; [lra |]. split; [done |]. left. reflexivity.
Qed.

(** X15: the X scale covers the salary range of every displayed title with a
    margin of at least 1000 on each side, and is never degenerate. *)
Theorem x_domain_covers_displayed_ranges (displayedTitles : list SalaryJobTitleRidgeline.JobStat) :
  (∀ d, d ∈ displayedTitles → (0 <= SalaryJobTitleRidgeline.min d)%Q ∧ (SalaryJobTitleRidgeline.min d <= SalaryJobTitleRidgeline.max d)%Q) →
  let domain := SalaryJobTitleRidgeline.x_domain displayedTitles in
  (fst domain < snd domain)%Q
  ∧ ∀ d, d ∈ displayedTitles →
      (fst domain + 1000 <= SalaryJobTitleRidgeline.min d)%Q ∧ (SalaryJobTitleRidgeline.max d + 1000 <= snd domain)%Q.
Proof.
  intros Hall domain. subst domain. unfold SalaryJobTitleRidgeline.x_domain.
  set (gmin := js_or_undef (d3.min (map SalaryJobTitleRidgeline.min displayedTitles)) 0).
  set (gmax := js_or_undef (d3.max (map SalaryJobTitleRidgeline.max displayedTitles)) 100000).
  assert (Hmin : (0 <= gmin)%Q ∧ ∀ d, d ∈ displayedTitles → (gmin <= SalaryJobTitleRidgeline.min d)%Q).
  { subst gmin. pose proof (d3_min_spec (map SalaryJobTitleRidgeline.min displayedTitles)) as H.
    destruct (d3.min (map SalaryJobTitleRidgeline.min displayedTitles)) as [m |].
    - destruct H as [Hin Hle].
      apply list_elem_of_fmap in Hin as (d0 & -> & Hd0).
      cbn [js_or_undef]. split; [rewrite js_or_zero; by apply Hall |].
      intros d Hd. rewrite js_or_zero. apply Hle. apply list_elem_of_fmap. by exists d.
    - apply fmap_nil_inv in H. subst. cbn [js_or_undef]. split; [lra |].
      intros d Hd. by apply elem_of_nil in Hd. }
  assert (Hmax : (gmin <= gmax)%Q ∧ ∀ d, d ∈ displayedTitles → (SalaryJobTitleRidgeline.max d <= gmax)%Q).
  { subst gmax. pose proof (d3_max_spec (map SalaryJobTitleRidgeline.max displayedTitles)) as H.
    destruct (d3.max (map SalaryJobTitleRidgeline.max displayedTitles)) as [m |] eqn:Em.
    - destruct H as [Hin Hle].
      apply list_elem_of_fmap in Hin as (d0 & -> & Hd0).
      destruct (Hall d0 Hd0) as [H0 H1].
      assert (H2 : (0 <= SalaryJobTitleRidgeline.max d0)%Q) by lra.
      destruct (js_or_undef_some_nonneg (SalaryJobTitleRidgeline.max d0) 100000 H2 ltac:(lra)) as (Hge & _ & _).
      split.
      + destruct Hmin as [_ Hmin]. specialize (Hmin d0 Hd0). lra.
      + intros d Hd. assert ((SalaryJobTitleRidgeline.max d <= SalaryJobTitleRidgeline.max d0)%Q).
        { apply Hle. apply list_elem_of_fmap. by exists d. }
        lra.
    - apply fmap_nil_inv in H. subst. cbn [js_or_undef]. split.
      + subst gmin. cbn. lra.
      + intros d Hd. by apply elem_of_nil in Hd. }
  destruct Hmin as [Hg0 Hmin]. destruct Hmax as [Hle Hmax].
  clearbody gmin gmax.
  assert (Hpad : ∀ a, (1000 <= Math_max a 1000)%Q) by (intros a; apply Math_max_ge_r).
  destruct (Qeq_bool gmin gmax) eqn:E; cbn [fst snd].
  - apply Qeq_bool_iff in E.
    specialize (Hpad ((gmax * (12 # 10) - gmin * (8 # 10)) * (5 # 100))%Q).
    split; [lra |]. intros d Hd. specialize (Hmin d Hd). specialize (Hmax d Hd).
    split; lra.
  - specialize (Hpad ((gmax - gmin) * (5 # 100))%Q).
    split; [lra |]. intros d Hd. specialize (Hmin d Hd). specialize (Hmax d Hd).
    split; lra.
Qed.

Lemma job_stat_min_le_max (title : string) (range : Types.SalaryRange) :
  (2 ≤ length (Types.values range))%nat →
  (SalaryJobTitleRidgeline.min (SalaryJobTitleRidgeline.job_stat title range) <= SalaryJobTitleRidgeline.max (SalaryJobTitleRidgeline.job_stat title range))%Q.
Proof.
  intros Hlen.
  set (sorted := sort_ascending (Types.values range)).
  assert (Hperm : sorted ≡ₚ Types.values range) by apply insertion_sort_perm.
  assert (Hss : StronglySorted Qle sorted) by apply sort_ascending_sorted.
  assert (Hn : length sorted = length (Types.values range))
    by apply (Permutation_length Hperm).
  destruct (job_stat_fields title range) as (_ & Emin & Emax & _).
  fold sorted in Emin, Emax. rewrite Emin, Emax.
  replace (length sorted =? 1)%nat with false by (symmetry; apply Nat.eqb_neq; lia).
  rewrite (lookup_nth_Q sorted 0) by lia.
  rewrite (lookup_nth_Q sorted (length sorted - 1)) by lia.
  cbn [js_or_undef]. do 2 rewrite js_or_zero.
  apply nth_le_sorted; [done | lia | lia].
Qed.

Lemma epanechnikov_nonneg (bandwidth x : Q) :
  (0 <= bandwidth)%Q → (0 <= SalaryJobTitleRidgeline.epanechnikov bandwidth x)%Q.
Proof.
  intros Hb. unfold SalaryJobTitleRidgeline.epanechnikov.
  destruct (Qeq_bool bandwidth 0) eqn:E; [lra |].
  apply Qeq_bool_neq in E.
  destruct (Qle_bool (Qabs (x / bandwidth)) 1) eqn:E1; [| lra].
  apply Qle_bool_iff, Qabs_Qle_condition in E1.
  set (u := (x / bandwidth)%Q) in *.
  apply Qle_shift_div_l; [lra |]. nra.
Qed.

Lemma kde_nonneg (bandwidth : Q) (thresholds data : list Q) (point : Q * Q) :
  (0 <= bandwidth)%Q →
  point ∈ SalaryJobTitleRidgeline.kde (SalaryJobTitleRidgeline.epanechnikov bandwidth) thresholds data → (0 <= snd point)%Q.
Proof.
  intros Hb Hin. unfold SalaryJobTitleRidgeline.kde in Hin.
  apply list_elem_of_fmap in Hin as (t & -> & _). cbn [snd].
  unfold d3.mean. destruct data as [| a data]; [cbn; lra |].
  set (ks := map (λ d, SalaryJobTitleRidgeline.epanechnikov bandwidth (t - d)) (a :: data)).
  assert (Hks : ∀ y, y ∈ ks → (0 <= y)%Q).
  { intros y Hy. apply list_elem_of_fmap in Hy as (d & -> & _).
    by apply epanechnikov_nonneg. }
  assert (Hlen : (0 < length ks)%nat) by (subst ks; cbn; lia).
  clearbody ks. destruct ks as [| k ks]; [cbn in Hlen; lia |].
  cbn [js_or_undef]. rewrite js_or_zero.
  apply Qle_shift_div_l.
  - change 0%Q with (inject_Z 0). rewrite <- Zlt_Qlt. lia.
  - rewrite Qmult_0_l. by apply Qsum_nonneg.
Qed.

(** X16: in density mode every density of a curve is non-negative and at
    most [maxDensity], which is positive; so the area drawn for a job
    title stays within its band: between 20% of the band height and the
    band's lower edge. *)
Theorem density_area_stays_in_band {numbers : Numbers} (title : string) (range : Types.SalaryRange)
    (curve : list (Q * Q)) (bandwidth : Q) (point : Q * Q) :
  SalaryJobTitleRidgeline.density (SalaryJobTitleRidgeline.job_stat title range) = Some curve →
  point ∈ curve →
  (0 <= bandwidth)%Q →
  (0 <= snd point)%Q ∧ (snd point <= SalaryJobTitleRidgeline.maxDensity curve)%Q
  ∧ (0 < SalaryJobTitleRidgeline.maxDensity curve)%Q
  ∧ (bandwidth * (2 # 10) <= SalaryJobTitleRidgeline.density_y1 bandwidth curve point)%Q
  ∧ (SalaryJobTitleRidgeline.density_y1 bandwidth curve point <= bandwidth)%Q.
Proof.
  intros Hd Hin Hb. unfold SalaryJobTitleRidgeline.density in Hd.
  rewrite job_stat_values in Hd.
  destruct (length (Types.values range) <=? 1)%nat eqn:El; [discriminate Hd |].
  apply Nat.leb_gt in El. injection Hd as Hd.
  pose proof (job_stat_min_le_max title range ltac:(lia)) as Hmm.
  set (st := SalaryJobTitleRidgeline.job_stat title range) in *.
  assert (Hbw : (0 <= (SalaryJobTitleRidgeline.max st - SalaryJobTitleRidgeline.min st) / 5)%Q)
    by (apply Qle_shift_div_l; lra).
  assert (Hall : ∀ p, p ∈ curve → (0 <= snd p)%Q).
  { intros p Hp. rewrite <- Hd in Hp. by eapply kde_nonneg. }
  assert (Hmax : (snd point <= SalaryJobTitleRidgeline.maxDensity curve)%Q ∧ (0 < SalaryJobTitleRidgeline.maxDensity curve)%Q).
  { unfold SalaryJobTitleRidgeline.maxDensity. pose proof (d3_max_spec (map snd curve)) as H.
    destruct (d3.max (map snd curve)) as [m |].
    - destruct H as [Hm Hle].
      assert (Hpm : (snd point <= m)%Q).
      { apply Hle. apply list_elem_of_fmap. by exists point. }
      apply list_elem_of_fmap in Hm as (p & -> & Hp).
      pose proof (Hall p Hp) as Hp0.
      cbn [js_or_undef]. unfold js_or.
      destruct (Qeq_bool (snd p) 0) eqn:E.
      + apply Qeq_bool_iff in E. split; lra.
      + apply Qeq_bool_neq in E. split; [done |].
        destruct (Qlt_le_dec 0 (snd p)); [done |]. exfalso. apply E. lra.
    - apply fmap_nil_inv in H. rewrite H in Hin. by apply elem_of_nil in Hin. }
  destruct Hmax as [Hle Hpos]. pose proof (Hall point Hin) as H0.
  split; [done |]. split; [done |]. split; [done |].
  unfold SalaryJobTitleRidgeline.density_y1.
  set (r := (snd point / SalaryJobTitleRidgeline.maxDensity curve)%Q).
  assert (Hr0 : (0 <= r)%Q) by (apply Qle_shift_div_l; lra).
  assert (Hr1 : (r <= 1)%Q) by (apply Qle_shift_div_r; lra).
  split; nra.
Qed.

Lemma density_area_stays_in_band_witness :
  ∃ curve point,
    SalaryJobTitleRidgeline.density (SalaryJobTitleRidgeline.job_stat "Engineer" (Types.mkSalaryRange [50000; 70000]%Q)) = Some curve
    ∧ point ∈ curve
    ∧ (0 <= snd point)%Q ∧ (snd point <= SalaryJobTitleRidgeline.maxDensity curve)%Q
    ∧ (0 < SalaryJobTitleRidgeline.maxDensity curve)%Q
    ∧ (40 * (2 # 10) <= SalaryJobTitleRidgeline.density_y1 40 curve point)%Q
    ∧ (SalaryJobTitleRidgeline.density_y1 40 curve point <= 40)%Q.
Proof.
  set (st := SalaryJobTitleRidgeline.job_stat "Engineer" (Types.mkSalaryRange [50000; 70000]%Q)).
  exists (default [] (SalaryJobTitleRidgeline.density st)), (hd (0, 0)%Q (default [] (SalaryJobTitleRidgeline.density st))).
  assert (Hd : SalaryJobTitleRidgeline.density st = Some (default [] (SalaryJobTitleRidgeline.density st)))
    by (vm_compute; reflexivity).
  assert (Hin : hd (0, 0)%Q (default [] (SalaryJobTitleRidgeline.density st)) ∈ default [] (SalaryJobTitleRidgeline.density st))
    by (vm_compute; apply list_elem_of_here).
  split; [exact Hd |]. split; [exact Hin |].
  apply (density_area_stays_in_band "Engineer" (Types.mkSalaryRange [50000; 70000]%Q));
    [exact Hd | exact Hin | vm_compute; discriminate].
Defined.

Lemma x_domain_covers_displayed_ranges_witness :
  let shown := [SalaryJobTitleRidgeline.job_stat "Engineer" (Types.mkSalaryRange [50000; 70000]%Q);
                SalaryJobTitleRidgeline.job_stat "Analyst" (Types.mkSalaryRange [40000]%Q)] in
  (fst (SalaryJobTitleRidgeline.x_domain shown) < snd (SalaryJobTitleRidgeline.x_domain shown))%Q
  ∧ ∀ d, d ∈ shown →
      (fst (SalaryJobTitleRidgeline.x_domain shown) + 1000 <= SalaryJobTitleRidgeline.min d)%Q
      ∧ (SalaryJobTitleRidgeline.max d + 1000 <= snd (SalaryJobTitleRidgeline.x_domain shown))%Q.
Proof.
  intros shown. apply (x_domain_covers_displayed_ranges shown).
  intros d Hd. subst shown.
  apply elem_of_cons in Hd as [-> | Hd];
    [| apply elem_of_cons in Hd as [-> | Hd]; [| by apply elem_of_nil in Hd]];
    vm_compute; split; discriminate.
Defined.

Lemma box_plot_is_ordered_witness :
  let st := SalaryJobTitleRidgeline.job_stat "Engineer" (Types.mkSalaryRange [40; 10; 30; 20]%Q) in
  (0 <= SalaryJobTitleRidgeline.min st)%Q ∧ (SalaryJobTitleRidgeline.min st <= SalaryJobTitleRidgeline.q1 st)%Q ∧ (SalaryJobTitleRidgeline.q1 st <= SalaryJobTitleRidgeline.median st)%Q
  ∧ (SalaryJobTitleRidgeline.median st <= SalaryJobTitleRidgeline.q3 st)%Q ∧ (SalaryJobTitleRidgeline.q3 st <= SalaryJobTitleRidgeline.max st)%Q
  ∧ (SalaryJobTitleRidgeline.rangeSize st == SalaryJobTitleRidgeline.max st - SalaryJobTitleRidgeline.min st)%Q
  ∧ SalaryJobTitleRidgeline.count st = 4%nat.
Proof.
  apply (box_plot_is_ordered "Engineer" (Types.mkSalaryRange [40; 10; 30; 20]%Q)).
  - discriminate.
  - intros x Hx. cbn [Types.values] in Hx.
    repeat (apply elem_of_cons in Hx as [-> | Hx]; [vm_compute; discriminate |]).
    by apply elem_of_nil in Hx.
Defined.


















Section TimelineAggregates.
Context `{Host}.
Import JobPostingsTimeLine.

Lemma aggregate_steps_inv data key label levels (acc acc' : gmap string (gmap string Z)) :
  forEachC (aggregate_step data key label) levels acc = Normal acc' →
  (∀ l, l ∈ levels → ∃ b, aggregate_level data key label l = Normal b ∧ acc' !! l = Some b)
  ∧ (∀ l, l ∉ levels → acc' !! l = acc !! l).
Proof.
  revert acc. induction levels as [| l0 levels IH]; intros acc Hrun.
  - cbn in Hrun. injection Hrun as <-. split; [| done].
    intros l Hl. by apply elem_of_nil in Hl.
  - cbn [forEachC] in Hrun. unfold aggregate_step at 1 in Hrun.
    destruct (aggregate_level data key label l0) as [b0 |] eqn:E0; [| done].
    cbn [cbind] in Hrun. apply IH in Hrun as [Hin Hout]. split.
    + intros l Hl. destruct (decide (l ∈ levels)) as [Hr | Hr]; [by apply Hin |].
      apply elem_of_cons in Hl as [-> | Hl]; [| done].
      exists b0. split; [done |]. rewrite (Hout l0 Hr). apply lookup_insert_eq.
    + intros l Hl. apply not_elem_of_cons in Hl as [Hne Hl].
      rewrite (Hout l Hl). by apply lookup_insert_ne.
Qed.

Lemma store_buckets_sound label entries (out out' : gmap string Z) lbl v :
  forEachC (store_bucket label) entries out = Normal out' →
  out' !! lbl = Some v →
  out !! lbl = Some v
  ∨ ∃ e, e ∈ entries ∧ label e.1 = Normal lbl ∧ v = bucket_value e.2.
Proof.
  revert out. induction entries as [| e entries IH]; intros out Hrun Hv.
  - cbn in Hrun. injection Hrun as <-. by left.
  - cbn [forEachC] in Hrun. unfold store_bucket at 1 in Hrun.
    destruct (label e.1) as [l |] eqn:El; [| done]. cbn [cbind] in Hrun.
    destruct (IH _ Hrun Hv) as [Hold | (e' & He' & Hl' & Hv')].
    + destruct (decide (l = lbl)) as [-> | Hne].
      * rewrite lookup_insert_eq in Hold. injection Hold as <-.
        right. exists e. split; [apply list_elem_of_here | done].
      * rewrite lookup_insert_ne in Hold by done. by left.
    + right. exists e'. split; [by apply list_elem_of_further | done].
Qed.

Lemma group_points_throw data key level d dates groups :
  Types.data data !! level = None →
  forEachC (group_point data key level) (d :: dates) groups
  = Throw "TypeError: Cannot read properties of undefined".
Proof. intros Hs. cbn [forEachC]. unfold group_point. by rewrite Hs. Qed.

Lemma aggregate_level_sound data key label level b lbl v :
  aggregate_level data key label level = Normal b →
  b !! lbl = Some v →
  ∃ series date,
    Types.data data !! level = Some series
    ∧ date ∈ Types.timePoints data
    ∧ label (key date) = Normal lbl
    ∧ v = rounded_average series (bucket_points key (key date) (Types.timePoints data)).
Proof.
  unfold aggregate_level. intros Hrun Hv.
  destruct (Types.data data !! level) as [series |] eqn:Es.
  - rewrite (group_points_normal _ _ _ series) in Hrun by done. cbn [cbind] in Hrun.
    destruct (store_buckets_sound _ _ _ _ _ _ Hrun Hv) as [Hold | ([k stats] & He & Hl & ->)].
    { by rewrite lookup_empty in Hold. }
    apply elem_of_map_to_list in He. cbn [fst snd] in *.
    destruct (group_key_has_point _ _ _ _ _ He) as (d & Hd & <-).
    exists series, d. split; [done |]. split; [done |]. split; [done |].
    rewrite group_fold_lookup in He.
    destruct (bucket_points key (key d) (Types.timePoints data)) as [| p pts] eqn:Ep.
    { by rewrite lookup_empty in He. }
    rewrite lookup_empty in He. cbn [default from_option id fst snd] in He.
    injection He as <-. unfold bucket_value, rounded_average. cbn [fst snd].
    by rewrite !Z.add_0_l.
  - destruct (Types.timePoints data) as [| d dates].
    + cbn in Hrun. rewrite map_to_list_empty in Hrun. cbn in Hrun.
      injection Hrun as <-. by rewrite lookup_empty in Hv.
    + by rewrite group_points_throw in Hrun.
Qed.

Lemma getAggregatedData_run (timeInterval : TimeInterval) (data : Types.TimeLineData) :
  timeInterval ≠ Monthly →
  getAggregatedData timeInterval (Some data)
  = (aggregatedData ←?
       forEachC (aggregate_step data (bucketKey timeInterval) (bucketLabel timeInterval))
         (Types.experienceLevels data) ∅;
     Normal (Some (Types.mkTimeLineData
                     (newTimePoints (Types.experienceLevels data) aggregatedData)
                     (Types.experienceLevels data) aggregatedData))).
Proof. by destruct timeInterval. Qed.

Lemma Zsum_bounds (l : list Z) (lo hi : Z) :
  (∀ x, x ∈ l → (lo ≤ x ≤ hi)%Z) →
  (lo * Z.of_nat (length l) ≤ Zsum l ≤ hi * Z.of_nat (length l))%Z.
Proof.
  induction l as [| a l IH]; intros Hall; [cbn; lia |].
  pose proof (Hall a (list_elem_of_here _ _)).
  assert (lo * Z.of_nat (length l) ≤ Zsum l ≤ hi * Z.of_nat (length l))%Z
    by (apply IH; intros x Hx; by apply Hall, list_elem_of_further).
  cbn [Zsum foldr length]. fold (Zsum l). lia.
Qed.

Lemma rounded_average_between (series : gmap string Z) (pts : list string) (lo hi : Z) :
  pts ≠ [] →
  (∀ d, d ∈ pts → (lo ≤ count_at series d ≤ hi)%Z) →
  (lo ≤ rounded_average series pts ≤ hi)%Z.
Proof.
  intros Hne Hall. unfold rounded_average.
  set (s := Zsum (map (count_at series) pts)).
  set (n := Z.of_nat (length pts)).
  assert (Hn : (0 < n)%Z) by (subst n; destruct pts; [done | cbn [length]; lia]).
  assert (Hs : (lo * n ≤ s ≤ hi * n)%Z).
  { subst s n. rewrite <- (length_map (count_at series)). apply Zsum_bounds.
    intros x Hx. apply list_elem_of_fmap in Hx as (d & -> & Hd). by apply Hall. }
  assert (HnQ : (0 < inject_Z n)%Q) by (change 0%Q with (inject_Z 0); by rewrite <- Zlt_Qlt).
  assert (Hlo : (inject_Z lo <= inject_Z s / inject_Z n)%Q).
  { apply Qle_shift_div_l; [done |]. rewrite <- inject_Z_mult, <- Zle_Qle. lia. }
  assert (Hhi : (inject_Z s / inject_Z n <= inject_Z hi)%Q).
  { apply Qle_shift_div_r; [done |]. rewrite <- inject_Z_mult, <- Zle_Qle. lia. }
  destruct (Math_round_nearest (inject_Z s / inject_Z n)) as [H1 H2].
  set (q := (inject_Z s / inject_Z n)%Q) in *.
  set (r := Math_round q) in *.
  assert (Hr1 : (inject_Z lo - 1 < inject_Z r)%Q) by lra.
  assert (Hr2 : (inject_Z r < inject_Z hi + 1)%Q) by lra.
  change 1%Q with (inject_Z 1) in Hr1, Hr2.
  unfold Qminus in Hr1. rewrite <- inject_Z_opp, <- inject_Z_plus, <- Zlt_Qlt in Hr1.
  rewrite <- inject_Z_plus, <- Zlt_Qlt in Hr2. lia.
Qed.

(** X21: the Weekly and Quarterly aggregation invents no bucket.  Every
    value stored for a level is the rounded average of the counts of the
    time points that share a bucket with some time point of the payload, so
    it lies within any bounds that hold for the counts of the level. *)
Theorem buckets_come_from_time_points (timeInterval : TimeInterval)
    (data aggregated : Types.TimeLineData) (level lbl : string)
    (buckets : gmap string Z) (v : Z) :
  timeInterval ≠ Monthly →
  getAggregatedData timeInterval (Some data) = Normal (Some aggregated) →
  Types.data aggregated !! level = Some buckets →
  buckets !! lbl = Some v →
  level ∈ Types.experienceLevels data
  ∧ ∃ series date,
      Types.data data !! level = Some series
      ∧ date ∈ Types.timePoints data
      ∧ bucketLabel timeInterval (bucketKey timeInterval date) = Normal lbl
      ∧ v = rounded_average series
              (bucket_points (bucketKey timeInterval) (bucketKey timeInterval date)
                 (Types.timePoints data))
      ∧ ∀ lo hi, (∀ d, d ∈ Types.timePoints data → (lo ≤ count_at series d ≤ hi)%Z) →
                 (lo ≤ v ≤ hi)%Z.
Proof.
  intros Hint Hrun Hb Hv. rewrite getAggregatedData_run in Hrun by done.
  destruct (forEachC _ _ _) as [acc |] eqn:Eacc; [| done].
  cbn [cbind] in Hrun. injection Hrun as <-. cbn [Types.data] in Hb.
  apply aggregate_steps_inv in Eacc as [Hin Hout].
  destruct (decide (level ∈ Types.experienceLevels data)) as [Hl | Hl].
  2:{ rewrite (Hout level Hl), lookup_empty in Hb. discriminate Hb. }
  split; [done |].
  destruct (Hin level Hl) as (b & Hlevel & Hb'). rewrite Hb in Hb'. injection Hb' as <-.
  destruct (aggregate_level_sound _ _ _ _ _ _ _ Hlevel Hv) as (series & date & Hs & Hd & Hlbl & Hval).
  exists series, date. repeat (split; [done |]).
  intros lo hi Hall. rewrite Hval. apply rounded_average_between.
  - intros Hnil. assert (Hp : date ∈ bucket_points (bucketKey timeInterval)
                                 (bucketKey timeInterval date) (Types.timePoints data)).
    { unfold bucket_points. by apply list_elem_of_filter. }
    rewrite Hnil in Hp. by apply elem_of_nil in Hp.
  - intros d Hd'. apply Hall. unfold bucket_points in Hd'.
    by apply list_elem_of_filter in Hd' as [_ Hd'].
Qed.

(** X22: in the Weekly and Quarterly modes the aggregation does not return
    when a listed experience level has no series, is not named like a member
    of [Object.prototype], and the payload has a time point: reading the count
    throws. *)
Theorem missing_series_stops_the_aggregation (timeInterval : TimeInterval)
    (data : Types.TimeLineData) (level : string) :
  timeInterval ≠ Monthly →
  level ∈ Types.experienceLevels data →
  Types.data data !! level = None →
  level ∉ Object_prototype →
  Types.timePoints data ≠ [] →
  ∃ msg, getAggregatedData timeInterval (Some data) = Throw msg.
Proof.
  intros Hint Hl Hs _ Hne. rewrite getAggregatedData_run by done.
  destruct (forEachC _ _ _) as [acc | msg] eqn:Eacc; [| by exists msg].
  apply aggregate_steps_inv in Eacc as [Hin _].
  destruct (Hin level Hl) as (b & Hb & _). unfold aggregate_level in Hb.
  destruct (Types.timePoints data) as [| d dates]; [done |].
  by rewrite group_points_throw in Hb.
Qed.

Lemma maxCount_inner (aggregated : Types.TimeLineData) (level : string)
    (series : gmap string Z) (times : list string) (acc : Z) :
  Types.data aggregated !! level = Some series →
  ∃ m, forEachC (maxCount_step aggregated level) times acc = Normal m
       ∧ (acc ≤ m)%Z
       ∧ (∀ time, time ∈ times → (count_at series time ≤ m)%Z)
       ∧ (m = acc ∨ ∃ time, time ∈ times ∧ count_at series time = m).
Proof.
  intros Hs. revert acc. induction times as [| t times IH]; intros acc.
  - exists acc. split; [done |]. split; [lia |]. split; [| by left].
    intros time Ht. by apply elem_of_nil in Ht.
  - cbn [forEachC]. unfold maxCount_step at 1. rewrite Hs. cbn [cbind].
    fold (count_at series t).
    destruct (IH (Z.max acc (count_at series t))) as (m & Hrun & Hle & Hall & Hatt).
    exists m. split; [done |]. split; [lia |]. split.
    + intros time Ht. apply elem_of_cons in Ht as [-> | Ht]; [lia | by apply Hall].
    + destruct Hatt as [-> | (time & Ht & Htm)].
      * destruct (Z.max_spec acc (count_at series t)) as [[_ ->] | [_ ->]].
        -- right. exists t. split; [apply list_elem_of_here | done].
        -- by left.
      * right. exists time. split; [by apply list_elem_of_further | done].
Qed.

Lemma maxCount_outer (aggregated : Types.TimeLineData) (levels : list string) (acc : Z) :
  (∀ level, level ∈ levels → is_Some (Types.data aggregated !! level)) →
  ∃ m, forEachC
         (λ level acc,
            forEachC (maxCount_step aggregated level) (Types.timePoints aggregated) acc)
         levels acc = Normal m
       ∧ (acc ≤ m)%Z
       ∧ (∀ level series time, level ∈ levels →
            Types.data aggregated !! level = Some series →
            time ∈ Types.timePoints aggregated → (count_at series time ≤ m)%Z)
       ∧ (m = acc
          ∨ ∃ level series time,
              level ∈ levels ∧ Types.data aggregated !! level = Some series
              ∧ time ∈ Types.timePoints aggregated ∧ count_at series time = m).
Proof.
  revert acc. induction levels as [| l levels IH]; intros acc Hall.
  - exists acc. split; [done |]. split; [lia |]. split; [| by left].
    intros level series time Hl. by apply elem_of_nil in Hl.
  - destruct (Hall l (list_elem_of_here _ _)) as [series Hs].
    destruct (maxCount_inner aggregated l series (Types.timePoints aggregated) acc Hs)
      as (m1 & Hrun1 & Hle1 & Hall1 & Hatt1).
    destruct (IH m1) as (m & Hrun & Hle & Hall2 & Hatt).
    { intros level Hl. apply Hall. by apply list_elem_of_further. }
    exists m. cbn [forEachC]. rewrite Hrun1. cbn [cbind].
    split; [done |]. split; [lia |]. split.
    + intros level series' time Hl Hs' Ht.
      apply elem_of_cons in Hl as [-> | Hl]; [| by eapply Hall2].
      rewrite Hs in Hs'. injection Hs' as <-. specialize (Hall1 time Ht). lia.
    + destruct Hatt as [-> | (level & series' & time & Hl & Hs' & Ht & Hm)].
      * destruct Hatt1 as [-> | (time & Ht & Hm)]; [by left |].
        right. exists l, series, time. split; [apply list_elem_of_here | done].
      * right. exists level, series', time. split; [by apply list_elem_of_further | done].
Qed.

(** X23: when every listed level has a series, [maxCount] is computed
    without an exception; it is at least [0] and at least every count shown,
    and it is [0] or the count of one of the points. *)
Theorem maxCount_is_the_greatest_count (aggregated : Types.TimeLineData) :
  (∀ level, level ∈ Types.experienceLevels aggregated →
            is_Some (Types.data aggregated !! level)) →
  ∃ m, maxCount aggregated = Normal m
       ∧ (0 ≤ m)%Z
       ∧ (∀ level series time, level ∈ Types.experienceLevels aggregated →
            Types.data aggregated !! level = Some series →
            time ∈ Types.timePoints aggregated → (count_at series time ≤ m)%Z)
       ∧ (m = 0%Z
          ∨ ∃ level series time,
              level ∈ Types.experienceLevels aggregated
              ∧ Types.data aggregated !! level = Some series
              ∧ time ∈ Types.timePoints aggregated ∧ count_at series time = m).
Proof.
  intros Hall. unfold maxCount.
  destruct (maxCount_outer aggregated (Types.experienceLevels aggregated) 0 Hall)
    as (m & Hrun & Hle & Hmax & Hatt).
  exists m. split; [exact Hrun |]. split; [exact Hle |]. split; [exact Hmax |].
  exact Hatt.
Qed.





End TimelineAggregates.

Lemma buckets_come_from_time_points_witness :
  "Senior-level" ∈ Types.experienceLevels two_days
  ∧ ∃ series date,
      Types.data two_days !! "Senior-level" = Some series
      ∧ date ∈ Types.timePoints two_days
      ∧ JobPostingsTimeLine.bucketLabel (H := UTC.host) JobPostingsTimeLine.Weekly
          (JobPostingsTimeLine.bucketKey (H := UTC.host) JobPostingsTimeLine.Weekly date)
        = Normal "Jan 01"
      ∧ 5%Z = rounded_average series
                (bucket_points (JobPostingsTimeLine.bucketKey (H := UTC.host) JobPostingsTimeLine.Weekly)
                   (JobPostingsTimeLine.bucketKey (H := UTC.host) JobPostingsTimeLine.Weekly date)
                   (Types.timePoints two_days))
      ∧ ∀ lo hi, (∀ d, d ∈ Types.timePoints two_days → (lo ≤ count_at series d ≤ hi)%Z) →
                 (lo ≤ 5 ≤ hi)%Z.
Proof.
  apply (buckets_come_from_time_points (H := UTC.host) JobPostingsTimeLine.Weekly
           two_days two_days_weekly "Senior-level" "Jan 01"
           (default ∅ (Types.data two_days_weekly !! "Senior-level")) 5%Z).
  - discriminate.
  - vm_compute. reflexivity.
  - vm_compute. reflexivity.
  - vm_compute. reflexivity.
Defined.

Lemma missing_series_stops_the_aggregation_witness :
  ∃ msg, JobPostingsTimeLine.getAggregatedData (H := UTC.host) JobPostingsTimeLine.Quarterly
           (Some no_series) = Throw msg.
Proof.
  apply (missing_series_stops_the_aggregation (H := UTC.host) JobPostingsTimeLine.Quarterly
           no_series "Mid-level").
  - discriminate.
  - apply list_elem_of_here.
  - vm_compute. reflexivity.
  - apply (bool_decide_unpack _). vm_compute. exact I.
  - discriminate.
Defined.

Lemma maxCount_is_the_greatest_count_witness :
  ∃ m, JobPostingsTimeLine.maxCount two_days = Normal m
       ∧ (0 ≤ m)%Z
       ∧ (∀ level series time, level ∈ Types.experienceLevels two_days →
            Types.data two_days !! level = Some series →
            time ∈ Types.timePoints two_days → (count_at series time ≤ m)%Z)
       ∧ (m = 0%Z
          ∨ ∃ level series time,
              level ∈ Types.experienceLevels two_days
              ∧ Types.data two_days !! level = Some series
              ∧ time ∈ Types.timePoints two_days ∧ count_at series time = m).
Proof.
  apply (maxCount_is_the_greatest_count two_days).
  intros level Hl. in_list Hl. eexists. vm_compute. reflexivity.
Defined.


(** X25: the class a line is drawn with and the classes the restyling
    effect sets agree.  A line is [selected] exactly when its level is in the
    experience-level filter, and [faded] exactly when the filter is not empty
    and does not hold its level; it never carries both classes. *)
Theorem line_style_follows_filter (filters : FilterOptions) (level : string) :
  let classes := JobPostingsTimeLine.line_classes filters level in
  JobPostingsTimeLine.lineClass filters level
  = ("timeline-line" +:+ (if fst classes then " selected" else "")
       +:+ (if snd classes then " faded" else ""))%string
  ∧ (fst classes = true ↔ level ∈ experienceLevels filters)
  ∧ (snd classes = true
     ↔ (level ∉ experienceLevels filters) ∧ experienceLevels filters ≠ [])
  ∧ ¬ (fst classes = true ∧ snd classes = true).
Proof.
  unfold JobPostingsTimeLine.line_classes, JobPostingsTimeLine.lineClass. cbv zeta.
  destruct (includes level (experienceLevels filters)) eqn:E.
  - apply includes_spec in E. cbn [fst snd].
    split; [reflexivity |]. split; [tauto |]. split; [| by intros [_ H]].
    split; [done | by intros [Hn _]].
  - apply includes_false in E.
    destruct (experienceLevels filters) as [| l ls] eqn:El.
    + rewrite bool_decide_eq_false_2 by (cbn; lia). cbn [fst snd].
      split; [reflexivity |]. split; [split; [done | intros H; by apply elem_of_nil in H] |].
      split; [| by intros [H _]]. split; [done | by intros [_ H]].
    + rewrite bool_decide_eq_true_2 by (cbn; lia). cbn [fst snd].
      split; [reflexivity |]. split; [split; [done | intros H; by apply E in H] |].
      split; [| by intros [H _]]. split; [done | done].
Qed.

(** One run of the effect that copies [selectedLevels], with the filters of
    the store in its closure: it copies the selection, or finds every selected
    level in a filter of the same length and sets nothing. *)
Lemma sync_selectedLevels_run (selectedLevels : list string) (s : Store) :
  let s' := JobPostingsTimeLine.sync_selectedLevels s false selectedLevels s in
  activeItem s' = activeItem s
  ∧ (∀ fld, fld ≠ F_experienceLevels → get fld (filters s') = get fld (filters s))
  ∧ (experienceLevels (filters s') = selectedLevels
     ∨ s' = s
       ∧ length (experienceLevels (filters s)) = length selectedLevels
       ∧ ∀ x, x ∈ selectedLevels → x ∈ experienceLevels (filters s)).
Proof.
  cbv zeta. unfold JobPostingsTimeLine.sync_selectedLevels.
  destruct (negb (length selectedLevels =? length (experienceLevels (filters s)))%nat
            || existsb (λ level, negb (includes level (experienceLevels (filters s))))
                 selectedLevels) eqn:E.
  - destruct (bool_decide (0 < length selectedLevels)) eqn:L; cbn [filters setFilters activeItem].
    + split; [done |]. split; [| by left]. intros fld Hfld. by destruct fld.
    + split; [done |]. split; [intros fld Hfld; by destruct fld |]. left.
      apply bool_decide_eq_false in L. destruct selectedLevels; [done | simpl in L; lia].
  - split; [done |]. split; [done |]. right.
    apply orb_false_iff in E as [El Ex].
    apply negb_false_iff, Nat.eqb_eq in El.
    pose proof (proj1 (existsb_not_includes_false _ _) Ex) as Hall. done.
Qed.

(** X26: a click on a data point of the second copy of the timeline
    toggles the level in the local [selectedLevels] and leaves the membership
    of every other level unchanged; the point's [selected] class afterwards
    tells whether its level is selected, and the level becomes the active
    item.  The handler itself leaves the filters alone; the effect that runs
    after it rewrites them: it copies the new [selectedLevels] into
    [experienceLevels] unless the filter already holds every selected level and
    has their number, and leaves the three other fields as they are. *)
Theorem point_click_toggles_selected_level (selectedLevels : list string)
    (level : string) (s : Store) :
  let '(selectedLevels', selected', s1) :=
    JobPostingsTimeLine.point_click2 s selectedLevels level s in
  let s' := JobPostingsTimeLine.sync_selectedLevels s1 false selectedLevels' s1 in
  (level ∈ selectedLevels' ↔ level ∉ selectedLevels)
  ∧ (∀ other, other ≠ level → other ∈ selectedLevels' ↔ other ∈ selectedLevels)
  ∧ (selected' = true ↔ level ∈ selectedLevels')
  ∧ filters s1 = filters s
  ∧ click_point2 selectedLevels level s = (selectedLevels', s')
  ∧ activeItem s' = item ExperienceLevel level
  ∧ (experienceLevels (filters s') = selectedLevels'
     ∨ filters s' = filters s
       ∧ length (experienceLevels (filters s)) = length selectedLevels'
       ∧ ∀ x, x ∈ selectedLevels' → x ∈ experienceLevels (filters s))
  ∧ ∀ fld, fld ≠ F_experienceLevels → get fld (filters s') = get fld (filters s).
Proof.
  pose proof (point_click2_selected s selectedLevels level s) as Hsel.
  unfold click_point2.
  destruct (JobPostingsTimeLine.point_click2 s selectedLevels level s)
    as [[selectedLevels' selected'] s1] eqn:E.
  cbn [fst snd] in Hsel. subst selectedLevels'.
  assert (Hs1 : s1 = setActiveItem (item ExperienceLevel level) s
                ∧ selected' = negb (includes level selectedLevels)).
  { unfold JobPostingsTimeLine.point_click2 in E. by injection E as _ <- <-. }
  destruct Hs1 as [-> ->].
  destruct (sync_selectedLevels_run (toggle level selectedLevels)
              (setActiveItem (item ExperienceLevel level) s)) as (Hact & Hother & Hcase).
  split; [rewrite elem_of_toggle; tauto |].
  split; [intros other Hne; rewrite elem_of_toggle; tauto |].
  split.
  { rewrite elem_of_toggle, negb_true_iff, includes_false. tauto. }
  split; [reflexivity |]. split; [reflexivity |].
  split; [by rewrite Hact |].
  split; [| exact Hother].
  destruct Hcase as [Hcopy | (Hsame & Hlen & Hall)]; [by left |].
  right. rewrite Hsame. done.
Qed.

Lemma point_click_toggles_selected_level_witness :
  let s := mkStore (mkFilterOptions ["Mid-level"; "Senior-level"] ["Berlin"] [] []) no_item in
  click_point2 ["Entry-level"; "Mid-level"; "Senior-level"] "Mid-level" s
  = (["Entry-level"; "Senior-level"],
     mkStore (mkFilterOptions ["Entry-level"; "Senior-level"] ["Berlin"] [] [])
       (item ExperienceLevel "Mid-level")).
Proof.
  intros s.
  exact (proj1 (proj2 (proj2 (proj2 (proj2
           (point_click_toggles_selected_level
              ["Entry-level"; "Mid-level"; "Senior-level"] "Mid-level" s)))))).
Defined.

Lemma pretty_N_char_digit (x : N) : is_digit (pretty_N_char x) = true.
Proof. unfold pretty_N_char. by repeat case_match. Qed.

Lemma pretty_N_go_digits (x : N) (s : string) :
  all_digits s = true → all_digits (pretty_N_go x s) = true.
Proof.
  revert s. induction (N.lt_wf_0 x) as [x _ IH]; intros s Hs.
  destruct (decide (x = 0%N)) as [-> | Hx]; [by rewrite pretty_N_go_0 |].
  rewrite pretty_N_go_step by lia. apply IH.
  - apply N.div_lt; lia.
  - cbn [all_digits]. by rewrite pretty_N_char_digit.
Qed.

Lemma pretty_Z_digits (z : Z) : (0 ≤ z)%Z → all_digits (pretty z) = true.
Proof.
  intros Hz. destruct z as [| p | p]; [done | | lia].
  unfold pretty, pretty_Z, pretty, pretty_positive, pretty, pretty_N.
  destruct (decide (N.pos p = 0%N)); [done |]. by apply pretty_N_go_digits.
Qed.

Lemma digits_exclude (c : ascii) (s : string) :
  is_digit c = false → all_digits s = true → str_includes c s = false.
Proof.
  intros Hc. induction s as [| a s IH]; [done |]. cbn [all_digits str_includes].
  intros Hs. apply andb_true_iff in Hs as [Ha Hs]. rewrite (IH Hs), orb_false_r.
  apply Ascii.eqb_neq. intros ->. congruence.
Qed.

Lemma str_split_none (c : ascii) (s : string) :
  str_includes c s = false → str_split c s = [s].
Proof.
  induction s as [| a s IH]; [done |]. cbn [str_includes str_split].
  intros Hs. apply orb_false_iff in Hs as [Ha Hs]. by rewrite Ha, (IH Hs).
Qed.

Lemma str_split_first (c : ascii) (s1 s2 : string) :
  str_includes c s1 = false →
  str_split c (s1 +:+ String c s2) = s1 :: str_split c s2.
Proof.
  induction s1 as [| a s1 IH]; intros Hs.
  - change ("" +:+ String c s2) with (String c s2). cbn [str_split].
    by rewrite Ascii.eqb_refl.
  - cbn [str_includes] in Hs. apply orb_false_iff in Hs as [Ha Hs].
    change (String a s1 +:+ String c s2) with (String a (s1 +:+ String c s2)).
    cbn [str_split]. by rewrite Ha, (IH Hs).
Qed.

Lemma str_includes_app (c : ascii) (s1 s2 : string) :
  str_includes c (s1 +:+ s2) = str_includes c s1 || str_includes c s2.
Proof.
  induction s1 as [| a s1 IH]; [done |].
  change (String a s1 +:+ s2) with (String a (s1 +:+ s2)). cbn [str_includes].
  by rewrite IH, orb_assoc.
Qed.

Section QuarterLabels.
Context `{Host}.

(** X27: a quarter label parses back to the first day of its quarter.
    For a date with a non-negative year, the label [getQuarter] builds has no
    dash, so [parseDate] takes the quarter branch and returns
    [new Date(year, 3 * (quarter - 1))] without logging, provided [parseInt]
    reads back the two numbers. *)
Theorem quarter_label_round_trip (dateStr : string) (date : Z) :
  parseISO dateStr = Some date →
  (0 ≤ getMonth date)%Z →
  (0 ≤ getFullYear date)%Z →
  parseInt (pretty (getMonth date / 3 + 1)%Z) = Some (getMonth date / 3 + 1)%Z →
  parseInt (pretty (getFullYear date)) = Some (getFullYear date) →
  HiringPulseChart.parseDate (JobPostingsTimeLine.getQuarter dateStr)
  = (Date_local (getFullYear date) (getMonth date / 3 * 3) 1, []).
Proof.
  intros Hiso Hm Hy Hq Hyear.
  unfold JobPostingsTimeLine.getQuarter. rewrite Hiso.
  set (q := (getMonth date / 3 + 1)%Z) in *. set (y := getFullYear date) in *.
  assert (Hq0 : (0 ≤ q)%Z) by (subst q; apply Z.add_nonneg_nonneg; [apply Z.div_pos |]; lia).
  pose proof (pretty_Z_digits q Hq0) as Hdq. pose proof (pretty_Z_digits y Hy) as Hdy.
  unfold HiringPulseChart.parseDate.
  assert (Hdash : str_includes "-" ("Q" +:+ pretty q +:+ " " +:+ pretty y) = false).
  { rewrite !str_includes_app.
    rewrite (digits_exclude "-" (pretty q)), (digits_exclude "-" (pretty y)) by done.
    reflexivity. }
  rewrite Hdash.
  change (str_includes "Q" ("Q" +:+ pretty q +:+ " " +:+ pretty y)) with true. cbv iota.
  assert (Hsplit : str_split " " ("Q" +:+ pretty q +:+ " " +:+ pretty y)
                   = ["Q" +:+ pretty q; pretty y]).
  { change ("Q" +:+ pretty q +:+ " " +:+ pretty y)
      with (("Q" +:+ pretty q) +:+ String " " (pretty y)).
    rewrite str_split_first.
    - by rewrite str_split_none by (by apply digits_exclude).
    - rewrite str_includes_app, (digits_exclude " " (pretty q)) by done. reflexivity. }
  rewrite Hsplit. cbn [lookup list_lookup default from_option id substring1 String.append].
  change (substring1 ("Q" +:+ pretty q)) with (pretty q).
  cbn [mbind option_bind]. rewrite Hq, Hyear.
  unfold HiringPulseChart.new_Date_ym. cbn [mbind option_bind].
  do 2 f_equal. subst q. lia.
Qed.

End QuarterLabels.

Lemma quarter_label_round_trip_witness :
  JobPostingsTimeLine.getQuarter (H := UTC.host) "2024-05-15" = "Q2 2024"
  ∧ HiringPulseChart.parseDate (H := UTC.host) "Q2 2024"
    = (Date_local (Host := UTC.host) 2024 3 1, []).
Proof.
  split; [vm_compute; reflexivity |].
  assert (Hiso : parseISO (Host := UTC.host) "2024-05-15"
                 = Some (default 0%Z (parseISO (Host := UTC.host) "2024-05-15")))
    by (vm_compute; reflexivity).
  pose proof (quarter_label_round_trip (H := UTC.host) "2024-05-15" _ Hiso) as Hrt.
  assert (Hlabel : JobPostingsTimeLine.getQuarter (H := UTC.host) "2024-05-15" = "Q2 2024")
    by (vm_compute; reflexivity).
  rewrite Hlabel in Hrt. rewrite Hrt.
  - vm_compute. reflexivity.
  - vm_compute. discriminate.
  - vm_compute. discriminate.
  - vm_compute. reflexivity.
  - vm_compute. reflexivity.
Defined.
